(** * Kanban task board: task collection, local store and load strategy

    A shallow embedding of the core of the board (tasks.js, api.js,
    storage.js, the load strategy and the auto-save timer of script.js,
    the rendering and the modal handlers of ui.js) together with the
    properties of its specification and further properties of the code.

    Conventions of the embedding.
    - A JavaScript Number is an exact decimal number: an integer is a
      [Z], as task ids and the epoch-millisecond timestamps are, and a
      number with a fraction, as JSON text can hold one, is a [VFrac].
      NaN, the infinities and the rounding of binary64 (integers beyond
      2^53, more than 15 significant digits) are outside the model.
    - A JavaScript String is a [string] of bytes (its UTF-8 encoding);
      the white space that [trim] and [parseInt] drop is that of the
      language, ASCII or not.
    - The arrays and objects stored in [tasks] are heap cells addressed by
      a location, so that [tasks] and [taskMap] share records the way the
      JavaScript arrays and objects do.
    - An [await] resumes at once: runs are not interleaved with the
      auto-save timer or with each other.
    - [Date.now()] is an input of every operation that reads the clock.
    - The platform is modelled as far as the program uses it: [parseInt],
      [String.prototype.trim], [JSON.stringify] and [JSON.parse] over
      the values above; [localStorage] is a finite
      map from keys to strings whose [setItem] does not fail; the document
      has the elements the code looks up, and what is drawn into it is an
      event of the trace.
    - An object used as a map ([taskMap]) is a finite map over its own
      properties; the properties every JavaScript object inherits and the
      property name __proto__ are outside the model, and so is the
      reordering of integer-like property names inside a record.
    - ui.js is the version with task priorities; api.js is the one
      version of the repository, kept under .history. *)

From Stdlib Require Import ZArith Ascii String Decimal DecimalString DecimalPos.
From stdpp Require Import gmap strings list fin_maps.

Local Open Scope Z_scope.

#[local] Arguments String.append !_ _ / : simpl nomatch.

(* ================================================================== *)
(** * JavaScript values *)
(* ================================================================== *)

#[local] Set Warnings "-register-all".
Inductive value : Type :=
| VUndef
| VNull
| VBool (b : bool)
| VNum (n : Z)
| VStr (s : string)
| VArr (elems : list value)
| VObj (props : list (string * value))
| VFrac (neg : bool) (whole : N) (rfrac : positive).

(** Induction over values that reaches the elements of arrays and the
    property values of objects. *)
Section value_induction.
Variable P : value → Prop.
Hypothesis Hundef : P VUndef.
Hypothesis Hnull : P VNull.
Hypothesis Hbool : ∀ b, P (VBool b).
Hypothesis Hnum : ∀ n, P (VNum n).
Hypothesis Hstr : ∀ s, P (VStr s).
Hypothesis Harr : ∀ l, Forall P l → P (VArr l).
Hypothesis Hobj : ∀ ps, Forall (λ kv, P kv.2) ps → P (VObj ps).
Hypothesis Hfrac : ∀ neg whole rfrac, P (VFrac neg whole rfrac).

Fixpoint value_ind' (v : value) : P v :=
  match v with
  | VUndef => Hundef
  | VNull => Hnull
  | VBool b => Hbool b
  | VNum n => Hnum n
  | VStr s => Hstr s
  | VArr l =>
      Harr l ((fix go (l : list value) : Forall P l :=
                 match l with
                 | [] => @List.Forall_nil value P
                 | x :: r => @List.Forall_cons value P x r (value_ind' x) (go r)
                 end) l)
  | VObj ps =>
      Hobj ps ((fix go (ps : list (string * value))
                  : Forall (λ kv, P kv.2) ps :=
                  match ps with
                  | [] => @List.Forall_nil (string * value) (λ kv, P kv.2)
                  | kv :: r =>
                      @List.Forall_cons (string * value) (λ kv, P kv.2) kv r (value_ind' kv.2) (go r)
                  end) ps)
  | VFrac neg whole rfrac => Hfrac neg whole rfrac
  end.
End value_induction.

(** An outcome of a JavaScript computation: a value, or a thrown error
    with its message. *)
Inductive result (A : Type) : Type :=
| Ok (a : A)
| Throw (msg : string).
Arguments Ok {A} a.
Arguments Throw {A} msg.

(** JavaScript truthiness ([ToBoolean]). *)
Definition truthy (v : value) : bool :=
  match v with
  | VUndef | VNull => false
  | VBool b => b
  | VNum n => negb (n =? 0)
  | VStr s => negb (String.eqb s "")
  | VArr _ | VObj _ | VFrac _ _ _ => true
  end.

(** Own property of an object, [undefined] when missing. *)
Fixpoint get_field (ps : list (string * value)) (k : string) : value :=
  match ps with
  | [] => VUndef
  | (k', v) :: r => if String.eqb k' k then v else get_field r k
  end.

(** [o.k] for the property names the program reads (id, title,
    description, status, priority, forEach): reading a property of [null]
    or [undefined] throws a TypeError; primitives and arrays have no such
    property. *)
Definition get_prop (o : value) (k : string) : result value :=
  match o with
  | VUndef | VNull => Throw "TypeError: Cannot read properties of null or undefined"
  | VObj ps => Ok (get_field ps k)
  | _ => Ok VUndef
  end.

(** [o.k = v] on an object: overwrite in place, or append a new property. *)
Fixpoint set_field (ps : list (string * value)) (k : string) (v : value)
  : list (string * value) :=
  match ps with
  | [] => [(k, v)]
  | (k', v') :: r =>
      if String.eqb k' k then (k', v) :: r else (k', v') :: set_field r k v
  end.

(** [Number.prototype.toString] on an integer: plain decimal digits.
    This is what the platform prints for the integers below 10^21 that
    a binary64 holds exactly, among them every safe integer. *)
Definition Number_toString (z : Z) : string :=
  match z with
  | Z0 => "0"
  | Zpos p => NilEmpty.string_of_uint (Pos.to_uint p)
  | Zneg p => String "-" (NilEmpty.string_of_uint (Pos.to_uint p))
  end.

(** The integers on which the [Z] of the model and the binary64 of the
    platform agree ([Number.isSafeInteger]); every time value that
    [Date.now()] returns is one. *)
Definition safe_integer (z : Z) : Prop :=
  -9007199254740991 ≤ z ≤ 9007199254740991.

(** The digits after the decimal point of [VFrac]: the decimal digits of
    [rfrac], last digit first. *)
Definition frac_digits (rfrac : positive) : string :=
  String.rev (NilEmpty.string_of_uint (Pos.to_uint rfrac)).

(** The zeros a text starts with, counted, and what follows them. *)
Fixpoint leading_zeros (s : string) : nat * string :=
  match s with
  | String c r =>
      if Ascii.eqb c "0" then let '(n, t) := leading_zeros r in (S n, t)
      else (O, s)
  | EmptyString => (O, s)
  end.

(** Digits in exponent notation: a point after the first digit when
    there are more, then the exponent with its sign. *)
Definition exponent_form (digits : string) (e : Z) : string :=
  match digits with
  | String d EmptyString => String d EmptyString
  | String d r => String d ("." +:+ r)
  | EmptyString => EmptyString
  end +:+ "e" +:+ (if e <? 0 then "-" else "+") +:+ Number_toString (Z.abs e).

(** [Number.prototype.toString] on a number with a fraction: positional
    notation when the decimal point comes after 1 to 21 digits or after
    at most five zeros, exponent notation otherwise. *)
Definition Fraction_toString (neg : bool) (whole : N) (rfrac : positive) : string :=
  (if neg then "-" else "") +:+
  match whole with
  | N0 =>
      let '(z, digits) := leading_zeros (frac_digits rfrac) in
      if (z <? 6)%nat then "0." +:+ frac_digits rfrac
      else exponent_form digits (- Z.of_nat z - 1)
  | Npos w =>
      let digits := NilEmpty.string_of_uint (Pos.to_uint w) in
      if (String.length digits <=? 21)%nat then digits +:+ "." +:+ frac_digits rfrac
      else exponent_form (digits +:+ frac_digits rfrac)
                         (Z.of_nat (String.length digits) - 1)
  end.

(** [Array.prototype.join] separator handling. *)
Fixpoint join (sep : string) (l : list string) : string :=
  match l with
  | [] => ""
  | [x] => x
  | x :: r => x +:+ sep +:+ join sep r
  end.

(** [ToString], as used by [ToPropertyKey] when a value indexes an
    object: [taskMap[task.id]]. *)
Fixpoint to_key (v : value) : string :=
  match v with
  | VUndef => "undefined"
  | VNull => "null"
  | VBool true => "true"
  | VBool false => "false"
  | VNum n => Number_toString n
  | VStr s => s
  | VArr l =>
      join "," (map (λ x, match x with
                          | VUndef | VNull => ""
                          | _ => to_key x
                          end) l)
  | VObj _ => "[object Object]"
  | VFrac neg whole rfrac => Fraction_toString neg whole rfrac
  end.

(** Strict equality [task.id === taskId] against a Number. *)
Definition strict_eq_num (v : value) (n : Z) : bool :=
  match v with
  | VNum m => m =? n
  | _ => false
  end.

(* ------------------------------------------------------------------ *)
(** ** Characters and numbers in text *)

(** The characters of [WhiteSpace] and [LineTerminator] that take one
    byte: U+0009 to U+000D and U+0020. *)
Definition is_ws (c : ascii) : bool :=
  let n := N_of_ascii c in ((9 <=? n) && (n <=? 13) || (n =? 32))%N.

(** The decimal digits. *)
Definition is_digit (c : ascii) : bool :=
  let n := N_of_ascii c in ((48 <=? n) && (n <=? 57))%N.

(** The other characters of [WhiteSpace] and [LineTerminator], by the
    bytes of their UTF-8 encoding: U+00A0 takes two bytes; U+1680,
    U+2000 to U+200A, U+2028, U+2029, U+202F, U+205F, U+3000 and U+FEFF
    take three. *)
Definition ws2 (a b : ascii) : bool :=
  ((N_of_ascii a =? 194) && (N_of_ascii b =? 160))%N.

Definition ws3 (a b c : ascii) : bool :=
  let x := N_of_ascii a in
  let y := N_of_ascii b in
  let z := N_of_ascii c in
  ((x =? 225) && (y =? 154) && (z =? 128)
   || (x =? 226) && (y =? 128)
      && ((128 <=? z) && (z <=? 138) || (z =? 168) || (z =? 169) || (z =? 175))
   || (x =? 226) && (y =? 129) && (z =? 159)
   || (x =? 227) && (y =? 128) && (z =? 128)
   || (x =? 239) && (y =? 187) && (z =? 191))%N.

(** A byte that can start, and a byte that can end, such a character. *)
Definition ws_lead (a : ascii) : bool :=
  let x := N_of_ascii a in
  ((x =? 194) || (x =? 225) || (x =? 226) || (x =? 227) || (x =? 239))%N.

Definition ws_last (c : ascii) : bool :=
  let z := N_of_ascii c in ((128 <=? z) && (z <=? 191))%N.

(** The text after its leading white space. *)
Fixpoint skip_ws (s : string) : string :=
  match s with
  | String a r =>
      if is_ws a then skip_ws r
      else if negb (ws_lead a) then s
      else
        match r with
        | String b r2 =>
            if ws2 a b then skip_ws r2
            else
              match r2 with
              | String c r3 => if ws3 a b c then skip_ws r3 else s
              | EmptyString => s
              end
        | EmptyString => s
        end
  | EmptyString => s
  end.

(** The same on a text that is read from its end: the bytes of a
    character come last byte first. *)
Fixpoint skip_ws_rev (s : string) : string :=
  match s with
  | String c r =>
      if is_ws c then skip_ws_rev r
      else if negb (ws_last c) then s
      else
        match r with
        | String b r2 =>
            if ws2 b c then skip_ws_rev r2
            else
              match r2 with
              | String a r3 => if ws3 a b c then skip_ws_rev r3 else s
              | EmptyString => s
              end
        | EmptyString => s
        end
  | EmptyString => s
  end.

(** [String.prototype.trim]: the white space at both ends is dropped. *)
Definition trim (s : string) : string :=
  String.rev (skip_ws_rev (String.rev (skip_ws s))).

(** The longest prefix of decimal digits, and what follows it. *)
Fixpoint read_digits (s : string) : Decimal.uint * string :=
  match s with
  | String c r =>
      let k (d : Decimal.uint → Decimal.uint) :=
        let '(u, rest) := read_digits r in (d u, rest) in
      if Ascii.eqb c "0" then k D0
      else if Ascii.eqb c "1" then k D1
      else if Ascii.eqb c "2" then k D2
      else if Ascii.eqb c "3" then k D3
      else if Ascii.eqb c "4" then k D4
      else if Ascii.eqb c "5" then k D5
      else if Ascii.eqb c "6" then k D6
      else if Ascii.eqb c "7" then k D7
      else if Ascii.eqb c "8" then k D8
      else if Ascii.eqb c "9" then k D9
      else (Nil, s)
  | EmptyString => (Nil, s)
  end.

(** The value of a hexadecimal digit. *)
Definition hex_val (c : ascii) : option N :=
  let n := N_of_ascii c in
  if ((48 <=? n) && (n <=? 57))%N then Some (n - 48)%N
  else if ((97 <=? n) && (n <=? 102))%N then Some (n - 87)%N
  else if ((65 <=? n) && (n <=? 70))%N then Some (n - 55)%N
  else None.

(** The longest prefix of hexadecimal digits, accumulated, with their
    count and what follows. *)
Fixpoint read_hex (acc : N) (cnt : nat) (s : string) : N * nat * string :=
  match s with
  | String c r =>
      match hex_val c with
      | Some d => read_hex (acc * 16 + d)%N (S cnt) r
      | None => (acc, cnt, s)
      end
  | EmptyString => (acc, cnt, s)
  end.

(** [parseInt(s)] without a radix: leading white space, a sign, a [0x]
    prefix selecting radix 16, then the longest run of digits; [None] is
    NaN. *)
Definition parseInt (s : string) : option Z :=
  let s1 := skip_ws s in
  let '(neg, s2) :=
    match s1 with
    | String "-" r => (true, r)
    | String "+" r => (false, r)
    | _ => (false, s1)
    end in
  let sign (n : N) : Z := if neg then - Z.of_N n else Z.of_N n in
  match s2 with
  | String "0" (String x r) =>
      if Ascii.eqb x "x" || Ascii.eqb x "X" then
        match read_hex 0 0 r with
        | (_, O, _) => None
        | (n, _, _) => Some (sign n)
        end
      else
        Some (sign (N.of_uint (read_digits s2).1))
  | _ =>
      match read_digits s2 with
      | (Nil, _) => None
      | (u, _) => Some (sign (N.of_uint u))
      end
  end.

(* ================================================================== *)
(** * JSON text *)
(* ================================================================== *)

(** [JSON.stringify] and [JSON.parse] of the platform, over the values
    of the model. The text is compact, as [JSON.stringify] without an
    indent argument prints it. *)

(** The double quote and the backslash. *)
Definition dquote : ascii := Eval cbv in ascii_of_N 34.
Definition bslash : ascii := Eval cbv in ascii_of_N 92.

(** The lower-case hexadecimal digit of a value below 16. *)
Definition hex_digit (n : N) : ascii :=
  ascii_of_N (if (n <? 10)%N then n + 48 else n + 87).

(** [QuoteJSONString], one character at a time. *)
Definition escape_char (c : ascii) : string :=
  let n := N_of_ascii c in
  if Ascii.eqb c dquote then String bslash (String dquote EmptyString)
  else if Ascii.eqb c bslash then String bslash (String bslash EmptyString)
  else if (n =? 8)%N then String bslash "b"
  else if (n =? 12)%N then String bslash "f"
  else if (n =? 10)%N then String bslash "n"
  else if (n =? 13)%N then String bslash "r"
  else if (n =? 9)%N then String bslash "t"
  else if (n <? 32)%N then
    String bslash
      (String "u" (String "0" (String "0"
        (String (hex_digit (n / 16)) (String (hex_digit (n mod 16)) EmptyString)))))
  else String c EmptyString.

Fixpoint escape (s : string) : string :=
  match s with
  | EmptyString => EmptyString
  | String c r => escape_char c +:+ escape r
  end.

(** A string literal. *)
Definition quote (s : string) : string :=
  String dquote (escape s +:+ String dquote EmptyString).

Section serialize.
Variable ser : value → option string.

(** An array element that does not serialize prints as [null]. *)
Definition ser_elems (l : list value) : list string :=
  map (λ x, match ser x with Some t => t | None => "null" end) l.

(** A property whose value does not serialize is left out. *)
Fixpoint ser_props (ps : list (string * value)) : list string :=
  match ps with
  | [] => []
  | (k, v) :: r =>
      match ser v with
      | Some t => (quote k +:+ ":" +:+ t) :: ser_props r
      | None => ser_props r
      end
  end.
End serialize.

(** [JSON.stringify v]; [None] is the [undefined] it returns for
    [undefined]. *)
Fixpoint JSON_stringify (v : value) : option string :=
  match v with
  | VUndef => None
  | VNull => Some "null"
  | VBool true => Some "true"
  | VBool false => Some "false"
  | VNum n => Some (Number_toString n)
  | VStr s => Some (quote s)
  | VArr l => Some ("[" +:+ join "," (ser_elems JSON_stringify l) +:+ "]")
  | VObj ps => Some ("{" +:+ join "," (ser_props JSON_stringify ps) +:+ "}")
  | VFrac neg whole rfrac => Some (Fraction_toString neg whole rfrac)
  end.

(* ------------------------------------------------------------------ *)
(** ** Parsing *)

(** Puts decoded characters in front of the rest of a literal. *)
Definition prepend (x : string) (p : option (string * string))
  : option (string * string) :=
  match p with
  | Some (t, rest) => Some (x +:+ t, rest)
  | None => None
  end.

(** The code unit of a [\uXXXX] escape. *)
Definition hex4 (a b c d : ascii) : option N :=
  match hex_val a, hex_val b, hex_val c, hex_val d with
  | Some x, Some y, Some z, Some w => Some (((x * 16 + y) * 16 + z) * 16 + w)%N
  | _, _, _, _ => None
  end.

(** The UTF-8 bytes of a code point. *)
Definition utf8 (cp : N) : string :=
  if (cp <? 128)%N then String (ascii_of_N cp) EmptyString
  else if (cp <? 2048)%N then
    String (ascii_of_N (192 + cp / 64))
      (String (ascii_of_N (128 + cp mod 64)) EmptyString)
  else if (cp <? 65536)%N then
    String (ascii_of_N (224 + cp / 4096))
      (String (ascii_of_N (128 + (cp / 64) mod 64))
        (String (ascii_of_N (128 + cp mod 64)) EmptyString))
  else
    String (ascii_of_N (240 + cp / 262144))
      (String (ascii_of_N (128 + (cp / 4096) mod 64))
        (String (ascii_of_N (128 + (cp / 64) mod 64))
          (String (ascii_of_N (128 + cp mod 64)) EmptyString))).

(** The two halves of a surrogate pair, and the code point of a pair. *)
Definition high_surrogate (cp : N) : bool := ((55296 <=? cp) && (cp <=? 56319))%N.
Definition low_surrogate (cp : N) : bool := ((56320 <=? cp) && (cp <=? 57343))%N.
Definition surrogate_pair (hi lo : N) : N :=
  (65536 + (hi - 55296) * 1024 + (lo - 56320))%N.

(** The characters of a string literal after its opening quote, up to
    and including the closing quote. Two [\uXXXX] escapes that form a
    surrogate pair are one character; a half without its other half
    keeps the bytes of its own code unit. *)
Fixpoint parse_chars (s : string) : option (string * string) :=
  match s with
  | EmptyString => None
  | String c r =>
      if Ascii.eqb c dquote then Some (EmptyString, r)
      else if Ascii.eqb c bslash then
        match r with
        | String e r1 =>
            if Ascii.eqb e dquote then prepend (String dquote EmptyString) (parse_chars r1)
            else if Ascii.eqb e bslash then prepend (String bslash EmptyString) (parse_chars r1)
            else if Ascii.eqb e "/" then prepend "/" (parse_chars r1)
            else if Ascii.eqb e "b" then prepend (String (ascii_of_N 8) EmptyString) (parse_chars r1)
            else if Ascii.eqb e "f" then prepend (String (ascii_of_N 12) EmptyString) (parse_chars r1)
            else if Ascii.eqb e "n" then prepend (String (ascii_of_N 10) EmptyString) (parse_chars r1)
            else if Ascii.eqb e "r" then prepend (String (ascii_of_N 13) EmptyString) (parse_chars r1)
            else if Ascii.eqb e "t" then prepend (String (ascii_of_N 9) EmptyString) (parse_chars r1)
            else if Ascii.eqb e "u" then
              match r1 with
              | String h1 (String h2 (String h3 (String h4 r5))) =>
                  match hex4 h1 h2 h3 h4 with
                  | Some cp =>
                      if high_surrogate cp then
                        match r5 with
                        | String b (String u (String l1 (String l2 (String l3 (String l4 r11))))) =>
                            match (if Ascii.eqb b bslash && Ascii.eqb u "u"
                                   then hex4 l1 l2 l3 l4 else None) with
                            | Some lo =>
                                if low_surrogate lo
                                then prepend (utf8 (surrogate_pair cp lo)) (parse_chars r11)
                                else prepend (utf8 cp) (parse_chars r5)
                            | None => prepend (utf8 cp) (parse_chars r5)
                            end
                        | _ => prepend (utf8 cp) (parse_chars r5)
                        end
                      else prepend (utf8 cp) (parse_chars r5)
                  | None => None
                  end
              | _ => None
              end
            else None
        | EmptyString => None
        end
      else if (N_of_ascii c <? 32)%N then None
      else prepend (String c EmptyString) (parse_chars r)
  end.

(** The white space of JSON text: space, tab, line feed, carriage return. *)
Definition is_json_ws (c : ascii) : bool :=
  let n := N_of_ascii c in ((n =? 9) || (n =? 10) || (n =? 13) || (n =? 32))%N.

Fixpoint skip_json_ws (s : string) : string :=
  match s with
  | String c r => if is_json_ws c then skip_json_ws r else s
  | EmptyString => s
  end.

(** The rest of a literal name ([null], [true], [false]). *)
Fixpoint expect (w s : string) : option string :=
  match w, s with
  | EmptyString, _ => Some s
  | String a w', String b s' => if Ascii.eqb a b then expect w' s' else None
  | String _ _, EmptyString => None
  end.

(** What would continue a number beyond its integer part. *)
Definition starts_fraction (s : string) : bool :=
  match s with
  | String c _ => Ascii.eqb c "." || Ascii.eqb c "e" || Ascii.eqb c "E"
  | EmptyString => false
  end.

(** The fraction of a number: a point and at least one digit; [Nil]
    when there is no point, [None] when no digit follows the point. *)
Definition parse_fraction (s : string) : option (Decimal.uint * string) :=
  match s with
  | String c r =>
      if Ascii.eqb c "." then
        match read_digits r with
        | (Nil, _) => None
        | (f, rest) => Some (f, rest)
        end
      else Some (Nil, s)
  | EmptyString => Some (Nil, s)
  end.

(** The exponent of a number: [e] or [E], an optional sign and at least
    one digit; 0 when there is none. *)
Definition parse_exponent (s : string) : option (Z * string) :=
  match s with
  | String c r =>
      if Ascii.eqb c "e" || Ascii.eqb c "E" then
        let '(neg, r1) :=
          match r with
          | String "-" x => (true, x)
          | String "+" x => (false, x)
          | _ => (false, r)
          end in
        match read_digits r1 with
        | (Nil, _) => None
        | (d, rest) =>
            Some (if neg then - Z.of_N (N.of_uint d) else Z.of_N (N.of_uint d), rest)
        end
      else Some (0, s)
  | EmptyString => Some (0, s)
  end.

(** The last [j] digits of [rem], last digit first, as a number. *)
Fixpoint rev_frac (j : nat) (rem acc : N) : N :=
  match j with
  | O => acc
  | S j' => rev_frac j' (rem / 10) (acc * 10 + rem mod 10)
  end.

(** The number with the integer part [i], the fraction digits [f] and
    the exponent [e]: an integer when no digit other than 0 is left
    after the decimal point. *)
Definition decimal (neg : bool) (i : N) (f : Decimal.uint) (e : Z) : value :=
  let k := Z.of_nat (Decimal.nb_digits f) in
  let m := (i * 10 ^ N.of_nat (Decimal.nb_digits f) + N.of_uint f)%N in
  let sign (n : N) : Z := if neg then - Z.of_N n else Z.of_N n in
  if k <=? e then VNum (sign (m * 10 ^ Z.to_N (e - k))%N)
  else
    let j := Z.to_N (k - e) in
    match rev_frac (N.to_nat j) (m mod 10 ^ j) 0 with
    | Npos p => VFrac neg (m / 10 ^ j) p
    | N0 => VNum (sign (m / 10 ^ j)%N)
    end.

(** A number: an optional minus sign, decimal digits without a leading
    zero, an optional fraction and an optional exponent. *)
Definition parse_number (s : string) : option (value * string) :=
  let '(neg, s1) :=
    match s with
    | String "-" r => (true, r)
    | _ => (false, s)
    end in
  match read_digits s1 with
  | (Nil, _) => None
  | (D0 (D0 _ | D1 _ | D2 _ | D3 _ | D4 _ | D5 _ | D6 _ | D7 _ | D8 _ | D9 _), _) => None
  | (u, rest) =>
      match parse_fraction rest with
      | Some (f, rest1) =>
          match parse_exponent rest1 with
          | Some (e, rest2) => Some (decimal neg (N.of_uint u) f e, rest2)
          | None => None
          end
      | None => None
      end
  end.

(** Properties in the order of the text; a repeated name keeps its first
    position and takes the last value. *)
Definition build_object (raw : list (string * value)) : list (string * value) :=
  fold_left (λ acc kv, set_field acc kv.1 kv.2) raw [].

Fixpoint parse_value (fuel : nat) (s : string) : option (value * string) :=
  match fuel with
  | O => None
  | S fuel =>
      match skip_json_ws s with
      | EmptyString => None
      | String c r =>
          if Ascii.eqb c "n" then
            match expect "ull" r with Some rest => Some (VNull, rest) | None => None end
          else if Ascii.eqb c "t" then
            match expect "rue" r with Some rest => Some (VBool true, rest) | None => None end
          else if Ascii.eqb c "f" then
            match expect "alse" r with Some rest => Some (VBool false, rest) | None => None end
          else if Ascii.eqb c dquote then
            match parse_chars r with Some (t, rest) => Some (VStr t, rest) | None => None end
          else if Ascii.eqb c "[" then
            match skip_json_ws r with
            | String "]" rest => Some (VArr [], rest)
            | _ =>
                match parse_elems fuel r with
                | Some (l, rest) => Some (VArr l, rest)
                | None => None
                end
            end
          else if Ascii.eqb c "{" then
            match skip_json_ws r with
            | String "}" rest => Some (VObj [], rest)
            | _ =>
                match parse_members fuel r with
                | Some (raw, rest) => Some (VObj (build_object raw), rest)
                | None => None
                end
            end
          else parse_number (String c r)
      end
  end
with parse_elems (fuel : nat) (s : string) : option (list value * string) :=
  match fuel with
  | O => None
  | S fuel =>
      match parse_value fuel s with
      | Some (v, rest) =>
          match skip_json_ws rest with
          | String c rest1 =>
              if Ascii.eqb c "," then
                match parse_elems fuel rest1 with
                | Some (l, rest2) => Some (v :: l, rest2)
                | None => None
                end
              else if Ascii.eqb c "]" then Some ([v], rest1)
              else None
          | EmptyString => None
          end
      | None => None
      end
  end
with parse_members (fuel : nat) (s : string)
  : option (list (string * value) * string) :=
  match fuel with
  | O => None
  | S fuel =>
      match skip_json_ws s with
      | String c r =>
          if Ascii.eqb c dquote then
            match parse_chars r with
            | Some (k, rest) =>
                match skip_json_ws rest with
                | String c1 rest1 =>
                    if Ascii.eqb c1 ":" then
                      match parse_value fuel rest1 with
                      | Some (v, rest2) =>
                          match skip_json_ws rest2 with
                          | String c2 rest3 =>
                              if Ascii.eqb c2 "," then
                                match parse_members fuel rest3 with
                                | Some (raw, rest4) => Some ((k, v) :: raw, rest4)
                                | None => None
                                end
                              else if Ascii.eqb c2 "}" then Some ([(k, v)], rest3)
                              else None
                          | EmptyString => None
                          end
                      | None => None
                      end
                    else None
                | EmptyString => None
                end
            | None => None
            end
          else None
      | EmptyString => None
      end
  end.

(** [JSON.parse s]; [None] is the SyntaxError it throws. *)
Definition JSON_parse (s : string) : option value :=
  match parse_value (S (String.length s)) s with
  | Some (v, rest) =>
      match skip_json_ws rest with
      | EmptyString => Some v
      | String _ _ => None
      end
  | None => None
  end.

(* ------------------------------------------------------------------ *)
(** ** What survives a round trip *)

(** The character that follows a token does not extend it. *)
Definition delimited (rest : string) : bool :=
  match rest with
  | EmptyString => true
  | String c _ => Ascii.eqb c "," || Ascii.eqb c "]" || Ascii.eqb c "}"
  end.

(** Whether a text starts with a decimal digit. *)
Definition starts_digit (s : string) : bool :=
  match s with
  | String c _ => is_digit c
  | EmptyString => false
  end.

(** A value of task records that [JSON.stringify] prints in full and
    [JSON.parse] reads back: no [undefined] anywhere, the numbers
    integers, and no object with a repeated property name. *)
Fixpoint serializable (v : value) : bool :=
  match v with
  | VUndef | VFrac _ _ _ => false
  | VNull | VBool _ | VNum _ | VStr _ => true
  | VArr l => forallb serializable l
  | VObj ps =>
      bool_decide (NoDup (map fst ps)) && forallb (λ kv, serializable kv.2) ps
  end.

(** The fuel that parsing the text of a value takes at most. *)
Fixpoint size (v : value) : nat :=
  match v with
  | VArr l => S (list_sum (map (λ x, S (size x)) l))
  | VObj ps => S (list_sum (map (λ kv, S (size kv.2)) ps))
  | _ => 1
  end.

(** The text of a value inside an array. *)
Definition ser (v : value) : string :=
  match JSON_stringify v with Some t => t | None => "null" end.

(** A character a printed value can start with. *)
Definition value_start (c : ascii) : bool :=
  negb (is_json_ws c) && negb (Ascii.eqb c "]") && negb (Ascii.eqb c "}").

(** The parser reads a printed value back, whatever token end follows. *)
Definition roundtrips (v : value) : Prop :=
  serializable v = true →
  ∀ fuel rest, (size v ≤ fuel)%nat → delimited rest = true →
    parse_value fuel (ser v +:+ rest) = Some (v, rest).

(** The text of one property of an object. *)
Definition member (kv : string * value) : string :=
  quote kv.1 +:+ ":" +:+ ser kv.2.

(* ================================================================== *)
(** * Program state and effects *)
(* ================================================================== *)

(** A location of the heap: the identity of an array element. *)
Definition loc := nat.

(** What the transport answers to [fetch(API_BASE_URL/)]: a rejection,
    or a response with its [ok] flag, its status and the outcome of
    [response.json()]. *)
Inductive http : Type :=
| FetchRejects (msg : string)
| Response (ok : bool) (status : Z) (body : result value).

(** Calls that leave the core, in the order they happen. *)
Inductive event : Type :=
| EvFetch
| EvCreateTaskAPI (taskData : value)
| EvUpdateTaskAPI (taskId : Z) (taskData : value)
| EvDeleteTaskAPI (taskId : Z)
| EvConsoleError (msg : string)
| EvConsoleLog (msg : string)
| EvRender
| EvStatus (status text : string)
| EvShowLoading
| EvHideLoading
| EvShowError (msg : string)
| EvAlert (msg : string)
| EvCloseModal.

Record state : Type := mkState {
  storage : gmap string string;   (* localStorage *)
  heap : list value;              (* the records ever created *)
  tasks : list loc;               (* tasks.js: export let tasks *)
  taskMap : gmap string loc;      (* tasks.js: export const taskMap *)
  trace : list event              (* newest last *)
}.

(** The state of a freshly loaded page over a given localStorage. *)
Definition initial (st : gmap string string) : state :=
  mkState st [] [] ∅ [].

(** The record a location refers to. *)
Definition deref (h : list value) (l : loc) : value :=
  default VUndef (h !! l).

(** The task sequence by value. *)
Definition task_values (s : state) : list value :=
  map (deref (heap s)) (tasks s).

(** Computations: state passing with exceptions; a throw keeps the
    state reached so far. *)
Definition M (A : Type) : Type := state → result A * state.

Definition ret {A} (a : A) : M A := λ s, (Ok a, s).
Definition throw {A} (msg : string) : M A := λ s, (Throw msg, s).
Definition bind {A B} (m : M A) (k : A → M B) : M B :=
  λ s, match m s with
       | (Ok a, s') => k a s'
       | (Throw e, s') => (Throw e, s')
       end.
Definition try_catch {A} (m : M A) (handler : string → M A) : M A :=
  λ s, match m s with
       | (Ok a, s') => (Ok a, s')
       | (Throw e, s') => handler e s'
       end.
Definition lift {A} (r : result A) : M A := λ s, (r, s).

Notation "'let*' x ':=' m 'in' k" := (bind m (λ x, k))
  (at level 10, x name, m at level 100, k at level 200).
Notation "m ';;' k" := (bind m (λ _, k))
  (at level 100, k at level 200, right associativity).

(** The primitive effects. *)
Definition get_state : M state := λ s, (Ok s, s).
Definition log (e : event) : M unit :=
  λ s, (Ok tt, mkState (storage s) (heap s) (tasks s) (taskMap s) (trace s ++ [e])).
Definition getItem (k : string) : M (option string) :=
  λ s, (Ok (storage s !! k), s).
Definition setItem (k v : string) : M unit :=
  λ s, (Ok tt, mkState (<[k := v]> (storage s)) (heap s) (tasks s) (taskMap s) (trace s)).
Definition set_tasks (ts : list loc) : M unit :=
  λ s, (Ok tt, mkState (storage s) (heap s) ts (taskMap s) (trace s)).
Definition set_taskMap (m : gmap string loc) : M unit :=
  λ s, (Ok tt, mkState (storage s) (heap s) (tasks s) m (trace s)).
Definition alloc (v : value) : M loc :=
  λ s, (Ok (length (heap s)),
        mkState (storage s) (heap s ++ [v]) (tasks s) (taskMap s) (trace s)).
Definition read (l : loc) : M value := λ s, (Ok (deref (heap s) l), s).
Definition write (l : loc) (v : value) : M unit :=
  λ s, (Ok tt, mkState (storage s) (<[l := v]> (heap s)) (tasks s) (taskMap s) (trace s)).

(** [xs.forEach(f)] *)
Fixpoint forEach {A} (xs : list A) (f : A → M unit) : M unit :=
  match xs with
  | [] => ret tt
  | x :: r => f x ;; forEach r f
  end.

(** [tasks.push(v)] of a value that enters the array as a new record. *)
Definition push_new (v : value) : M loc :=
  let* l := alloc v in
  let* s := get_state in
  set_tasks (tasks s ++ [l]) ;;
  ret l.

(* ================================================================== *)
(** * storage.js: time stamps *)
(* ================================================================== *)

(** [getLastSavedTime]: [None] is [null], [Some None] is NaN. *)
Definition getLastSavedTime (st : gmap string string) : option (option Z) :=
  match st !! "lastSaved" with
  | Some lastSaved =>
      if negb (String.eqb lastSaved "") then Some (parseInt lastSaved) else None
  | None => None
  end.

(** [!x] on what [getLastSavedTime] returns: null, NaN and 0 are falsy. *)
Definition falsy_time (t : option (option Z)) : bool :=
  match t with
  | Some (Some n) => n =? 0
  | Some None | None => true
  end.

(** [hasUnsavedChanges] *)
Definition hasUnsavedChanges (st : gmap string string) : bool :=
  let lastSaved := getLastSavedTime st in
  let lastModified := st !! "lastModified" in
  if falsy_time lastSaved
     || match lastModified with
        | Some m => String.eqb m ""
        | None => true
        end
  then false
  else
    match lastModified, lastSaved with
    | Some m, Some (Some saved) =>
        match parseInt m with
        | Some modified => saved <? modified
        | None => false
        end
    | _, _ => false
    end.

(** [markAsModified], with the clock reading of its [Date.now()]. *)
Definition markAsModified (now : Z) : M unit :=
  setItem "lastModified" (Number_toString now).

(* ================================================================== *)
(** * api.js *)
(* ================================================================== *)

(** The message of the error [fetchTasks] throws. *)
Definition fetch_failed (msg : string) : string :=
  "Failed to fetch tasks: " +:+ msg.

(** [fetchTasks]: every failure inside is logged and thrown again as
    [Failed to fetch tasks: ...]; a body that is not an array yields the
    empty array. *)
Definition fetchTasks (net : http) : M (list value) :=
  log EvFetch ;;
  try_catch
    (match net with
     | FetchRejects msg => throw msg
     | Response ok status body =>
         if negb ok then throw ("HTTP error! status: " +:+ Number_toString status)
         else
           let* data := lift body in
           ret (match data with VArr l => l | _ => [] end)
     end)
    (λ msg, log (EvConsoleError msg) ;; throw (fetch_failed msg)).

(** [createTask]: the new record has exactly the four properties of the
    literal; [now] is the reading of [Date.now()]. *)
Definition createTask (now : Z) (taskData : value) : M value :=
  log (EvCreateTaskAPI taskData) ;;
  let* title := lift (get_prop taskData "title") in
  let* description := lift (get_prop taskData "description") in
  let* status := lift (get_prop taskData "status") in
  ret (VObj [("id", VNum now); ("title", title);
             ("description", description); ("status", status)]).

(** [updateTask] *)
Definition updateTask (taskId : Z) (taskData : value) : M value :=
  log (EvUpdateTaskAPI taskId taskData) ;;
  let* title := lift (get_prop taskData "title") in
  let* description := lift (get_prop taskData "description") in
  let* status := lift (get_prop taskData "status") in
  ret (VObj [("id", VNum taskId); ("title", title);
             ("description", description); ("status", status)]).

(** [deleteTaskAPI] *)
Definition deleteTaskAPI (taskId : Z) : M bool :=
  log (EvDeleteTaskAPI taskId) ;; ret true.

(* ================================================================== *)
(** * tasks.js *)
(* ================================================================== *)

(** [taskMap[task.id] = task] *)
Definition index_task (l : loc) : M unit :=
  let* task := read l in
  let* id := lift (get_prop task "id") in
  let* s := get_state in
  set_taskMap (<[to_key id := l]> (taskMap s)).

(** [refreshTaskMap] *)
Definition refreshTaskMap : M unit :=
  set_taskMap ∅ ;;
  let* s := get_state in
  forEach (tasks s) index_task.

(** [loadTasksFromAPI] *)
Definition loadTasksFromAPI (net : http) : M (list loc) :=
  try_catch
    (let* fetched := fetchTasks net in
     set_tasks [] ;;
     forEach fetched (λ v, push_new v ;; ret tt) ;;
     refreshTaskMap ;;
     let* s := get_state in
     ret (tasks s))
    (λ msg, log (EvConsoleError msg) ;; throw msg).

(** [addTask]; [now_id] and [now_mod] are the two clock readings. *)
Definition addTask (now_id now_mod : Z) (taskData : value) : M loc :=
  try_catch
    (let* newTask := createTask now_id taskData in
     let* l := push_new newTask in
     let* id := lift (get_prop newTask "id") in
     let* s := get_state in
     set_taskMap (<[to_key id := l]> (taskMap s)) ;;
     markAsModified now_mod ;;
     ret l)
    (λ msg, log (EvConsoleError msg) ;; throw msg).

(** [task.k = v] in strict mode: a primitive refuses the assignment.
    An array cell would take the property; the model cannot hold it and
    treats it as a refusal. A cell found under the key of a Number is
    an object (see [index_sound]). *)
Definition set_prop (l : loc) (k : string) (v : value) : M unit :=
  let* task := read l in
  match task with
  | VObj ps => write l (VObj (set_field ps k v))
  | _ => throw "TypeError: Cannot create property"
  end.

(** [editTask] *)
Definition editTask (now_mod : Z) (taskId : Z) (updates : value) : M bool :=
  try_catch
    (let* updatedTask := updateTask taskId updates in
     let* s := get_state in
     match taskMap s !! Number_toString taskId with
     | None => ret false
     | Some l =>
         let* task := read l in
         if negb (truthy task) then ret false
         else
           let* title := lift (get_prop updatedTask "title") in
           set_prop l "title" title ;;
           let* description := lift (get_prop updatedTask "description") in
           set_prop l "description" description ;;
           let* status := lift (get_prop updatedTask "status") in
           set_prop l "status" status ;;
           markAsModified now_mod ;;
           ret true
     end)
    (λ msg, log (EvConsoleError msg) ;; throw msg).

(** [tasks.findIndex(task => task.id === taskId)], from position [i]. *)
Fixpoint findIndex (h : list value) (ts : list loc) (taskId : Z) (i : nat)
  : result (option nat) :=
  match ts with
  | [] => Ok None
  | l :: r =>
      match get_prop (deref h l) "id" with
      | Ok id => if strict_eq_num id taskId then Ok (Some i)
                 else findIndex h r taskId (S i)
      | Throw e => Throw e
      end
  end.

(** [deleteTask] *)
Definition deleteTask (now_mod : Z) (taskId : Z) : M bool :=
  try_catch
    (deleteTaskAPI taskId ;;
     let* s := get_state in
     let* index := lift (findIndex (heap s) (tasks s) taskId 0) in
     match index with
     | None => ret false
     | Some i =>
         set_tasks (delete i (tasks s)) ;;
         set_taskMap (delete (Number_toString taskId) (taskMap s)) ;;
         markAsModified now_mod ;;
         ret true
     end)
    (λ msg, log (EvConsoleError msg) ;; throw msg).

(* ================================================================== *)
(** * storage.js: the task snapshot *)
(* ================================================================== *)

(** [saveToLocalStorage]; [setItem] stores the text [undefined] when
    [JSON.stringify] returns [undefined], which it never does for an
    array. *)
Definition saveToLocalStorage (now : Z) : M unit :=
  let* s := get_state in
  setItem "tasks" (default "undefined" (JSON_stringify (VArr (task_values s)))) ;;
  setItem "lastSaved" (Number_toString now).

(** [parsed.forEach(task => tasks.push(task))]: only an array has a
    [forEach] to call. *)
Definition push_parsed (parsed : value) : M unit :=
  match parsed with
  | VArr l => forEach l (λ v, push_new v ;; ret tt)
  | VUndef | VNull => throw "TypeError: Cannot read properties of null or undefined"
  | _ => throw "TypeError: parsed.forEach is not a function"
  end.

(** [loadFromLocalStorage] *)
Definition loadFromLocalStorage : M bool :=
  let* stored := getItem "tasks" in
  match stored with
  | Some text =>
      if negb (String.eqb text "") then
        try_catch
          (let* parsed :=
             match JSON_parse text with
             | Some v => ret v
             | None => throw "SyntaxError: not valid JSON"
             end in
           set_tasks [] ;;
           push_parsed parsed ;;
           refreshTaskMap ;;
           ret true)
          (λ msg, log (EvConsoleError msg) ;; ret false)
      else ret false
  | None => ret false
  end.

(* ================================================================== *)
(** * ui.js *)
(* ================================================================== *)

(** One card of a column: [task.priority.toUpperCase()] needs a string. *)
Definition render_card (l : loc) : M unit :=
  let* task := read l in
  let* _ := lift (get_prop task "title") in
  let* priority := lift (get_prop task "priority") in
  match priority with
  | VStr _ => ret tt
  | _ => throw "TypeError: task.priority.toUpperCase is not callable"
  end.

(** [tasks.filter(task => task.status === status)] *)
Fixpoint filter_status (h : list value) (ts : list loc) (status : string)
  : result (list loc) :=
  match ts with
  | [] => Ok []
  | l :: r =>
      match get_prop (deref h l) "status" with
      | Ok st =>
          match filter_status h r status with
          | Ok ls =>
              Ok (match st with
                  | VStr x => if String.eqb x status then l :: ls else ls
                  | _ => ls
                  end)
          | Throw e => Throw e
          end
      | Throw e => Throw e
      end
  end.

(** [renderTasks]: the index is rebuilt, then each column is filled.
    The document is not modelled; a completed rendering is one event. *)
Definition renderTasks : M unit :=
  refreshTaskMap ;;
  forEach ["todo"; "doing"; "done"]
    (λ status,
       let* s := get_state in
       let* filtered := lift (filter_status (heap s) (tasks s) status) in
       forEach filtered render_card) ;;
  log EvRender.

(** One pass of [statuses.forEach] in [renderTasks]. *)
Definition render_column (status : string) : M unit :=
  let* s := get_state in
  let* filtered := lift (filter_status (heap s) (tasks s) status) in
  forEach filtered render_card.

(** The fields of the modal dialog when a handler reads them; [m_taskId]
    is [Number(modal.dataset.taskId)]. *)
Record modal : Type := mkModal {
  m_taskId : Z;
  m_title : string;
  m_description : string;
  m_status : string;
  m_priority : string
}.

(** The object literal both handlers pass on. *)
Definition form_data (m : modal) : value :=
  VObj [("title", VStr (trim (m_title m)));
        ("description", VStr (trim (m_description m)));
        ("status", VStr (m_status m));
        ("priority", VStr (m_priority m))].

(** [saveChanges] *)
Definition saveChanges (now_mod now_save : Z) (m : modal) : M unit :=
  let title := trim (m_title m) in
  if String.eqb title "" then log (EvAlert "Title is required.")
  else
    try_catch
      (let* updated := editTask now_mod (m_taskId m) (form_data m) in
       if updated then
         saveToLocalStorage now_save ;;
         renderTasks ;;
         log EvCloseModal
       else ret tt)
      (λ msg, log (EvAlert ("Error updating task: " +:+ msg))).

(** [addNewTask] *)
Definition addNewTask (now_id now_mod now_save : Z) (m : modal) : M unit :=
  let title := trim (m_title m) in
  if String.eqb title "" then log (EvAlert "Please enter a title.")
  else
    try_catch
      (addTask now_id now_mod (form_data m) ;;
       saveToLocalStorage now_save ;;
       renderTasks ;;
       log EvCloseModal)
      (λ msg, log (EvAlert ("Error creating task: " +:+ msg))).

(** [deleteTaskHandler]: the two guards, the confirmation dialog and the
    callback of its confirm button. [confirmed] tells whether the user
    presses the confirm button or dismisses the dialog; the dialog itself
    is part of the document. *)
Definition deleteTaskHandler (now_mod now_save : Z) (m : modal) (confirmed : bool)
  : M unit :=
  let taskId := m_taskId m in
  if taskId =? 0 then ret tt
  else
    let* s := get_state in
    match taskMap s !! Number_toString taskId with
    | None => ret tt
    | Some l =>
        let* task := read l in
        if negb (truthy task) then ret tt
        else
          let* _ := lift (get_prop task "title") in
          if confirmed then
            try_catch
              (let* deleted := deleteTask now_mod taskId in
               if deleted then
                 saveToLocalStorage now_save ;;
                 renderTasks ;;
                 log EvCloseModal
               else ret tt)
              (λ msg, log (EvAlert ("Error deleting task: " +:+ msg)))
          else ret tt
    end.

(* ================================================================== *)
(** * script.js: the load strategy *)
(* ================================================================== *)

(** The status indicator, the loading overlay and the error box. *)
Definition updateDataStatus (status text : string) : M unit :=
  log (EvStatus status text).

Definition showLoading : M unit :=
  log EvShowLoading ;; updateDataStatus "loading" "Loading from API...".

Definition hideLoading : M unit := log EvHideLoading.

Definition showError (message : string) : M unit := log (EvShowError message).

(** [loadTasks], against the answer [net] the transport would give. *)
Definition loadTasks (net : http) : M unit :=
  let* hasLocalData := loadFromLocalStorage in
  let* stop :=
    if hasLocalData then
      renderTasks ;;
      updateDataStatus "local" "Loaded from local storage" ;;
      let* s := get_state in
      if hasUnsavedChanges (storage s) then
        log (EvConsoleLog "Local changes detected, keeping local data") ;;
        updateDataStatus "local" "Using local data (unsaved changes)" ;;
        ret true
      else ret false
    else
      updateDataStatus "loading" "No local data, loading from API..." ;;
      ret false in
  if stop then ret tt
  else
    showLoading ;;
    try_catch
      (loadTasksFromAPI net ;;
       renderTasks ;;
       hideLoading ;;
       updateDataStatus "api" "Synced with server")
      (λ msg,
         log (EvConsoleError msg) ;;
         if negb hasLocalData then
           showError (if String.eqb msg "" then "Failed to load tasks from the server." else msg) ;;
           updateDataStatus "error" "Failed to load data"
         else
           hideLoading ;;
           log (EvConsoleLog "Using local data due to API failure") ;;
           updateDataStatus "local" "Using local data (API unavailable)").

(** The run of the auto-save timer's callback. *)
Definition autoSave_tick (now : Z) : M unit :=
  let* s := get_state in
  if hasUnsavedChanges (storage s) then
    saveToLocalStorage now ;;
    updateDataStatus "local" "Auto-saved to local storage" ;;
    log (EvConsoleLog "Auto-saved data to localStorage")
  else ret tt.

(* ================================================================== *)
(** * Notions of the specification *)
(* ================================================================== *)

(** [null] and [undefined]: the values no property can be read from. *)
Definition nullish (v : value) : bool :=
  match v with
  | VUndef | VNull => true
  | _ => false
  end.

(** The property key under which a record is indexed: [task.id] as a
    key. *)
Definition record_key (h : list value) (l : loc) : string :=
  to_key (match get_prop (deref h l) "id" with
          | Ok id => id
          | Throw _ => VUndef
          end).

(** The mapping the specification derives from the sequence,
    [{t.id: t for t in sequence}]: a later record replaces an earlier
    one with the same id. *)
Definition derived_index (h : list value) (ts : list loc) : gmap string loc :=
  foldl (λ m l, <[record_key h l := l]> m) ∅ ts.

(** The index is the one derived from the sequence. *)
Definition synced (s : state) : Prop :=
  taskMap s = derived_index (heap s) (tasks s).

(** Every element of the sequence is a record one can read [id] from. *)
Definition readable (s : state) : Prop :=
  Forall (λ l, nullish (deref (heap s) l) = false) (tasks s).

(** The mutating calls of the collection, with their clock readings. *)
Inductive op : Type :=
| OpAdd (now_id now_mod : Z) (taskData : value)
| OpEdit (now_mod : Z) (taskId : Z) (updates : value)
| OpDelete (now_mod : Z) (taskId : Z).

(** The state a call leaves behind, whether it returns or throws. *)
Definition exec (o : op) (s : state) : state :=
  match o with
  | OpAdd now_id now_mod taskData => (addTask now_id now_mod taskData s).2
  | OpEdit now_mod taskId updates => (editTask now_mod taskId updates s).2
  | OpDelete now_mod taskId => (deleteTask now_mod taskId s).2
  end.

(** A run of calls, one after the other. *)
Definition exec_all (ops : list op) (s : state) : state :=
  foldl (λ s o, exec o s) s ops.

(** How many records of the sequence are indexed under the key of [taskId]. *)
Definition occurrences (s : state) (taskId : Z) : nat :=
  length (filter (λ l, record_key (heap s) l = Number_toString taskId) (tasks s)).

(** Every [deleteTask(id)] of the run is called while at most one record
    carries the id. *)
Fixpoint deletes_unambiguous (ops : list op) (s : state) : bool :=
  match ops with
  | [] => true
  | o :: r =>
      match o with
      | OpDelete _ taskId => bool_decide (occurrences s taskId ≤ 1)%nat
      | _ => true
      end && deletes_unambiguous r (exec o s)
  end.

(** Whether a call changed the collection: every [addTask] that returns,
    and an [editTask] or [deleteTask] that returns [true]. *)
Definition mutated (o : op) (s : state) : bool :=
  match o with
  | OpAdd now_id now_mod taskData =>
      match (addTask now_id now_mod taskData s).1 with Ok _ => true | Throw _ => false end
  | OpEdit now_mod taskId updates =>
      match (editTask now_mod taskId updates s).1 with Ok b => b | Throw _ => false end
  | OpDelete now_mod taskId =>
      match (deleteTask now_mod taskId s).1 with Ok b => b | Throw _ => false end
  end.

(** The clock reading a call passes to [markAsModified]. *)
Definition op_time (o : op) : Z :=
  match o with
  | OpAdd _ now_mod _ | OpEdit now_mod _ _ | OpDelete now_mod _ => now_mod
  end.

(** The record [createTask] builds. *)
Definition created (now : Z) (taskData : value) : value :=
  VObj [("id", VNum now);
        ("title", get_field (match taskData with VObj ps => ps | _ => [] end) "title");
        ("description", get_field (match taskData with VObj ps => ps | _ => [] end) "description");
        ("status", get_field (match taskData with VObj ps => ps | _ => [] end) "status")].

(** The properties [editTask] copies onto the record. *)
Definition edited (ps : list (string * value)) (updates : value)
  : list (string * value) :=
  let src := match updates with VObj us => us | _ => [] end in
  set_field
    (set_field (set_field ps "title" (get_field src "title"))
       "description" (get_field src "description"))
    "status" (get_field src "status").

(** The keys of the records of the sequence, in order. *)
Definition keys (s : state) : list string :=
  record_key (heap s) <$> tasks s.

(** Every [addTask] of the run fabricates an id that no record of the
    sequence carries at that moment. *)
Fixpoint fresh_ids (ops : list op) (s : state) : bool :=
  match ops with
  | [] => true
  | o :: r =>
      match o with
      | OpAdd now_id _ taskData =>
          nullish taskData || bool_decide (Number_toString now_id ∉ keys s)
      | _ => true
      end && fresh_ids r (exec o s)
  end.

(** The state after an [alert] and nothing else. *)
Definition alerted (s : state) (msg : string) : state :=
  mkState (storage s) (heap s) (tasks s) (taskMap s) (trace s ++ [EvAlert msg]).

(** The state after the elements of a parsed array entered [tasks]. *)
Definition pushed (s : state) (vals : list value) : state :=
  mkState (storage s) (heap s ++ vals)
          (tasks s ++ seq (length (heap s)) (length vals))
          (taskMap s) (trace s).

(** The state after [tasks.length = 0]. *)
Definition cleared (s : state) : state :=
  mkState (storage s) (heap s) [] (taskMap s) (trace s).

(** The state after one more event. *)
Definition logged (s : state) (e : event) : state :=
  mkState (storage s) (heap s) (tasks s) (taskMap s) (trace s ++ [e]).

(** A task record that JSON can carry: an object without [undefined]
    inside, with integers for its numbers and without a repeated
    property name. *)
Definition valid_record (v : value) : bool :=
  match v with
  | VObj _ => serializable v
  | _ => false
  end.

(** The events a run from [s] to [s'] added to the trace. *)
Definition run_events (s s' : state) (evs : list event) : Prop :=
  trace s' = trace s ++ evs.

(** The message of the failure inside [fetchTasks], when the transport
    answer makes it fail. *)
Definition fetch_cause (net : http) : option string :=
  match net with
  | FetchRejects msg => Some msg
  | Response ok status body =>
      if negb ok then Some ("HTTP error! status: " +:+ Number_toString status)
      else match body with
           | Throw msg => Some msg
           | Ok _ => None
           end
  end.


(** The store after [markAsModified] at clock reading [now]. *)
Definition stamped (st : gmap string string) (now : Z) : gmap string string :=
  <["lastModified" := Number_toString now]> st.

(* ------------------------------------------------------------------ *)
(** ** Records, cards and runs *)

(** Whether the record at a location has the id [taskId]:
    [task.id === taskId], and [false] for an element no [id] can be read
    from. *)
Definition carries (h : list value) (taskId : Z) (l : loc) : bool :=
  match get_prop (deref h l) "id" with
  | Ok id => strict_eq_num id taskId
  | Throw _ => false
  end.

(** [task.status === status] *)
Definition has_status (v : value) (status : string) : bool :=
  match get_prop v "status" with
  | Ok (VStr x) => String.eqb x status
  | _ => false
  end.

(** Whether a record is drawn into one of the three columns. *)
Definition in_column (v : value) : bool :=
  match get_prop v "status" with
  | Ok (VStr x) => String.eqb x "todo" || String.eqb x "doing" || String.eqb x "done"
  | _ => false
  end.

(** Whether [task.priority] is a string. *)
Definition has_priority (v : value) : bool :=
  match get_prop v "priority" with
  | Ok (VStr _) => true
  | _ => false
  end.

(** A record whose card can be drawn: if it belongs to a column, its
    priority is a string. *)
Definition card_ok (v : value) : bool :=
  negb (in_column v) || has_priority v.

(** Every record of the sequence has a card that can be drawn. *)
Definition renderable (s : state) : Prop :=
  Forall (λ l, card_ok (deref (heap s) l) = true) (tasks s).

(** The text [saveToLocalStorage] stores under the tasks key. *)
Definition snapshot (s : state) : string :=
  default "undefined" (JSON_stringify (VArr (task_values s))).

(** [Array.isArray(data) ? data : []] *)
Definition array_or_empty (data : value) : list value :=
  match data with
  | VArr l => l
  | _ => []
  end.

(** The state after a completed [renderTasks]. *)
Definition rendered (s : state) : state :=
  mkState (storage s) (heap s) (tasks s) (derived_index (heap s) (tasks s))
          (trace s ++ [EvRender]).

(** The state after [loadTasksFromAPI] took over a fetched array. *)
Definition fetched (s : state) (vals : list value) : state :=
  mkState (storage s) (heap s ++ vals) (seq (length (heap s)) (length vals))
          (derived_index (heap s ++ vals) (seq (length (heap s)) (length vals)))
          (trace s ++ [EvFetch]).

(** The events from [showLoading] to the end of a run whose fetch and
    rendering succeed. *)
Definition synced_run_events : list event :=
  [EvShowLoading; EvStatus "loading" "Loading from API..."; EvFetch; EvRender;
   EvHideLoading; EvStatus "api" "Synced with server"].

(** The events of a run that finds clean local data and whose fetch
    fails. *)
Definition offline_run_events (cause : string) : list event :=
  [EvRender; EvStatus "local" "Loaded from local storage";
   EvShowLoading; EvStatus "loading" "Loading from API...";
   EvFetch; EvConsoleError cause;
   EvConsoleError (fetch_failed cause); EvConsoleError (fetch_failed cause);
   EvHideLoading; EvConsoleLog "Using local data due to API failure";
   EvStatus "local" "Using local data (API unavailable)"].

(* ------------------------------------------------------------------ *)
(** ** Sample data *)

(** Values used in the examples. *)
Definition sample_tasks : value :=
  VArr [VObj [("id", VNum 1); ("title", VStr "A"); ("status", VStr "todo")];
        VObj [("id", VNum (-2)); ("title", VStr (String dquote "q\n")); ("tags", VArr [VNull; VBool true])]].

Definition sample_data : value :=
  VObj [("title", VStr "Write report"); ("description", VStr "draft");
        ("status", VStr "todo"); ("priority", VStr "high")].

(** The store of the scenarios of the specification: one saved record,
    saved at 1000. *)
Definition scenario_record : value :=
  VObj [("id", VNum 1); ("title", VStr "A"); ("status", VStr "todo");
        ("priority", VStr "low")].

(** The store of the scenarios, with a given [lastModified]. *)
Definition scenario_store (lastModified : string) : gmap string string :=
  {[ "tasks" := default "" (JSON_stringify (VArr [scenario_record]));
     "lastSaved" := "1000";
     "lastModified" := lastModified ]}.

(** White space outside ASCII, in its UTF-8 bytes: U+00A0 (no-break
    space), U+3000 (ideographic space) and U+FEFF (byte order mark). *)
Definition no_break_space : string :=
  Eval cbv in String (ascii_of_N 194) (String (ascii_of_N 160) EmptyString).

Definition ideographic_space : string :=
  Eval cbv in
    String (ascii_of_N 227) (String (ascii_of_N 128) (String (ascii_of_N 128) EmptyString)).

Definition byte_order_mark : string :=
  Eval cbv in
    String (ascii_of_N 239) (String (ascii_of_N 187) (String (ascii_of_N 191) EmptyString)).

(** U+200B (zero width space), which is not white space of the language. *)
Definition zero_width_space : string :=
  Eval cbv in
    String (ascii_of_N 226) (String (ascii_of_N 128) (String (ascii_of_N 139) EmptyString)).

(** The answer of the remote source in the scenarios. *)
Definition scenario_remote : http :=
  Response true 200
    (Ok (VArr [VObj [("id", VNum 2); ("title", VStr "B"); ("status", VStr "doing");
                     ("priority", VStr "high")]])).

(* ================================================================== *)
(** * Tactics *)
(* ================================================================== *)

Ltac ascii_cases c := destruct c as [[] [] [] [] [] [] [] []].

(** Unfolds the plumbing of [M] and the projections of a built state. *)
Ltac run_m :=
  cbv beta iota zeta delta
    [bind ret throw lift try_catch get_state log getItem setItem set_tasks
     set_taskMap alloc read write push_new markAsModified];
  cbn [storage heap tasks taskMap trace fst snd negb].

(* ================================================================== *)
(** * The model on sample inputs *)
(* ================================================================== *)

(** [parseInt] *)
Example parseInt_plain : parseInt "1723720000000" = Some 1723720000000.
Proof. reflexivity. Qed.
Example parseInt_junk_suffix : parseInt "  -12px" = Some (-12).
Proof. reflexivity. Qed.
Example parseInt_hex : parseInt "0x1F" = Some 31.
Proof. reflexivity. Qed.
Example parseInt_nan : parseInt "abc" = None.
Proof. reflexivity. Qed.
Example parseInt_empty : parseInt "" = None.
Proof. reflexivity. Qed.

(** [trim] and [ToPropertyKey] *)
Example trim_both_ends : trim "  Buy milk	 " = "Buy milk".
Proof. reflexivity. Qed.

Example trim_blank_title : trim " 	 " = "".
Proof. reflexivity. Qed.

Example trim_unicode_spaces :
  trim (no_break_space +:+ " Buy milk" +:+ ideographic_space +:+ byte_order_mark)
  = "Buy milk".
Proof. reflexivity. Qed.

Example trim_blank_unicode_title :
  trim (no_break_space +:+ ideographic_space) = "".
Proof. reflexivity. Qed.

Example trim_keeps_zero_width_space :
  trim (" x" +:+ zero_width_space +:+ " ") = "x" +:+ zero_width_space.
Proof. reflexivity. Qed.

Example parseInt_unicode_space : parseInt (no_break_space +:+ " 12") = Some 12.
Proof. reflexivity. Qed.

Example to_key_number : to_key (VNum 1723720000000) = "1723720000000".
Proof. reflexivity. Qed.

Example to_key_missing_id : to_key VUndef = "undefined".
Proof. reflexivity. Qed.

Example to_key_array : to_key (VArr [VNum 1; VNull; VStr "a"]) = "1,,a".
Proof. reflexivity. Qed.

Example stringify_sample :
  JSON_stringify (VArr [VObj [("id", VNum 1); ("t", VUndef)]; VUndef])
  = Some ("[{" +:+ String dquote "id" +:+ String dquote ":1},null]").
Proof. reflexivity. Qed.

Example parse_sample :
  (JSON_stringify sample_tasks ≫= JSON_parse) = Some sample_tasks.
Proof. vm_compute. reflexivity. Qed.

Example parse_spaced : JSON_parse " [ 1 , [ ] , { } ] " = Some (VArr [VNum 1; VArr []; VObj []]).
Proof. vm_compute. reflexivity. Qed.

Example parse_trailing_comma : JSON_parse "[1,]" = None.
Proof. vm_compute. reflexivity. Qed.

Example parse_leading_zero : JSON_parse "01" = None.
Proof. vm_compute. reflexivity. Qed.

Example parse_fraction_number : JSON_parse "1.5" = Some (VFrac false 1 5).
Proof. vm_compute. reflexivity. Qed.

Example parse_fraction_small : JSON_parse "-0.05" = Some (VFrac true 0 50).
Proof. vm_compute. reflexivity. Qed.

Example parse_exponent_integer : JSON_parse "1e3" = Some (VNum 1000).
Proof. vm_compute. reflexivity. Qed.

Example parse_exponent_fraction : JSON_parse "125E-2" = Some (VFrac false 1 52).
Proof. vm_compute. reflexivity. Qed.

Example parse_fraction_integer : JSON_parse "10.0" = Some (VNum 10).
Proof. vm_compute. reflexivity. Qed.

Example parse_fraction_array : JSON_parse "[1.5]" = Some (VArr [VFrac false 1 5]).
Proof. vm_compute. reflexivity. Qed.

Example parse_point_without_digit : JSON_parse "1." = None.
Proof. vm_compute. reflexivity. Qed.

Example parse_exponent_without_digit : JSON_parse "1e+" = None.
Proof. vm_compute. reflexivity. Qed.

Example stringify_fraction :
  JSON_stringify (VArr [VFrac false 1 5; VFrac true 0 50; VFrac false 0 51000000])
  = Some "[1.5,-0.05,1.5e-7]".
Proof. vm_compute. reflexivity. Qed.

Example to_key_fraction : to_key (VFrac false 12 52) = "12.25".
Proof. reflexivity. Qed.

Example parse_not_array : JSON_parse "42" = Some (VNum 42).
Proof. vm_compute. reflexivity. Qed.

(* ================================================================== *)
(** * Facts about strings and numbers *)
(* ================================================================== *)

Lemma string_app_assoc (a b c : string) : (a +:+ b) +:+ c = a +:+ (b +:+ c).
Proof. induction a as [|x a IH]; simpl; [reflexivity | by rewrite IH]. Qed.

Lemma string_app_nil_r (a : string) : a +:+ EmptyString = a.
Proof. induction a as [|x a IH]; simpl; [reflexivity | by rewrite IH]. Qed.

Lemma string_app_length (a b : string) :
  String.length (a +:+ b) = (String.length a + String.length b)%nat.
Proof. induction a as [|x a IH]; simpl; [reflexivity | by rewrite IH]. Qed.

Lemma read_digits_stop (c : ascii) (r : string) :
  is_digit c = false → read_digits (String c r) = (Nil, String c r).
Proof. ascii_cases c; intros H; try discriminate H; reflexivity. Qed.

Lemma read_digits_app (u : Decimal.uint) (rest : string) :
  starts_digit rest = false →
  read_digits (NilEmpty.string_of_uint u +:+ rest) = (u, rest).
Proof.
  intros Hrest. induction u as [|u IH|u IH|u IH|u IH|u IH|u IH|u IH|u IH|u IH|u IH];
    try (simpl; rewrite IH; reflexivity).
  destruct rest as [|c r]; [reflexivity|].
  simpl in Hrest. by apply read_digits_stop.
Qed.

Lemma delimited_not_digit (rest : string) :
  delimited rest = true → starts_digit rest = false.
Proof.
  destruct rest as [|c r]; [done|]. simpl.
  ascii_cases c; intros H; try discriminate H; reflexivity.
Qed.

Lemma delimited_not_fraction (rest : string) :
  delimited rest = true → starts_fraction rest = false.
Proof.
  destruct rest as [|c r]; [done|]. simpl.
  ascii_cases c; intros H; try discriminate H; reflexivity.
Qed.

Lemma to_uint_normal (p : positive) : unorm (Pos.to_uint p) = Pos.to_uint p.
Proof.
  rewrite <- (DecimalPos.Unsigned.to_of (Pos.to_uint p)).
  by rewrite DecimalPos.Unsigned.of_to.
Qed.

Lemma to_uint_no_leading_zero (p : positive) (u : Decimal.uint) :
  Pos.to_uint p = D0 u → False.
Proof.
  intros E. pose proof (to_uint_normal p) as Hn. rewrite E in Hn.
  rewrite DecimalFacts.unorm_D0 in Hn.
  assert (u = Nil ∨ u ≠ Nil) as [->|Hu] by (destruct u; [left | right ..]; congruence).
  - by apply (DecimalPos.Unsigned.to_uint_nonzero p).
  - pose proof (DecimalFacts.nb_digits_unorm u Hu) as Hle.
    rewrite Hn in Hle. simpl in Hle. lia.
Qed.

Lemma N_of_to_uint (p : positive) : N.of_uint (Pos.to_uint p) = Npos p.
Proof. apply DecimalPos.Unsigned.of_to. Qed.

(** Without a fraction and an exponent the number is its integer part. *)
Lemma decimal_integer (neg : bool) (i : N) :
  decimal neg i Nil 0 = VNum (if neg then - Z.of_N i else Z.of_N i).
Proof.
  unfold decimal. cbn [Decimal.nb_digits N.of_uint Z.of_nat N.of_nat Z.leb Z.compare].
  cbn [Z.sub Z.opp Z.add Z.to_N].
  by rewrite N.pow_0_r, N.mul_1_r, N.add_0_r, N.mul_1_r.
Qed.

Lemma parse_number_tail (neg : bool) (i : N) (rest : string) :
  starts_fraction rest = false →
  match parse_fraction rest with
  | Some (f, rest1) =>
      match parse_exponent rest1 with
      | Some (e, rest2) => Some (decimal neg i f e, rest2)
      | None => None
      end
  | None => None
  end = Some (VNum (if neg then - Z.of_N i else Z.of_N i), rest).
Proof.
  intros H. destruct rest as [|c r]; [by rewrite <- decimal_integer|].
  cbn [starts_fraction] in H. apply orb_false_iff in H as [H He].
  apply orb_false_iff in H as [Hp He'].
  cbn [parse_fraction]. rewrite Hp. cbn [parse_exponent]. rewrite He', He.
  cbn [orb]. by rewrite decimal_integer.
Qed.

Lemma parse_number_unsigned (u : Decimal.uint) (rest : string) :
  delimited rest = true → u ≠ Nil → (∀ u', u = D0 u' → u' = Nil) →
  parse_number (NilEmpty.string_of_uint u +:+ rest)
  = Some (VNum (Z.of_N (N.of_uint u)), rest).
Proof.
  intros Hd Hnil Hz.
  pose proof (delimited_not_digit _ Hd) as Hnd.
  pose proof (delimited_not_fraction _ Hd) as Hnf.
  pose proof (read_digits_app u rest Hnd) as Hr.
  unfold parse_number.
  destruct u as [|u|u|u|u|u|u|u|u|u|u]; try done;
    cbn [NilEmpty.string_of_uint String.append] in *.
  all: try (rewrite Hr; exact (parse_number_tail false _ rest Hnf)).
  rewrite Hr. rewrite (Hz u eq_refl). exact (parse_number_tail false _ rest Hnf).
Qed.

Lemma parse_number_negative (u : Decimal.uint) (rest : string) :
  delimited rest = true → u ≠ Nil → (∀ u', u = D0 u' → u' = Nil) →
  parse_number (String "-" (NilEmpty.string_of_uint u +:+ rest))
  = Some (VNum (- Z.of_N (N.of_uint u)), rest).
Proof.
  intros Hd Hnil Hz.
  pose proof (delimited_not_digit _ Hd) as Hnd.
  pose proof (delimited_not_fraction _ Hd) as Hnf.
  pose proof (read_digits_app u rest Hnd) as Hr.
  unfold parse_number. rewrite Hr.
  destruct u as [|u|u|u|u|u|u|u|u|u|u]; try done.
  all: try exact (parse_number_tail true _ rest Hnf).
  rewrite (Hz u eq_refl). exact (parse_number_tail true _ rest Hnf).
Qed.

(** A number token reads back as the number it prints. *)
Lemma parse_number_toString (z : Z) (rest : string) :
  delimited rest = true →
  parse_number (Number_toString z +:+ rest) = Some (VNum z, rest).
Proof.
  intros Hd. destruct z as [|p|p]; unfold Number_toString.
  - apply (parse_number_unsigned (D0 Nil)); [done..|]. by intros u' [= <-].
  - rewrite parse_number_unsigned; [by rewrite N_of_to_uint|done|..].
    + apply DecimalPos.Unsigned.to_uint_nonnil.
    + intros u' E. by destruct (to_uint_no_leading_zero p u').
  - cbn [String.append]. rewrite parse_number_negative; [by rewrite N_of_to_uint|done|..].
    + apply DecimalPos.Unsigned.to_uint_nonnil.
    + intros u' E. by destruct (to_uint_no_leading_zero p u').
Qed.

(* ================================================================== *)
(** * JSON round trip *)
(* ================================================================== *)

Lemma parse_chars_escape_char (c : ascii) (t : string) :
  parse_chars (escape_char c +:+ t) = prepend (String c EmptyString) (parse_chars t).
Proof. ascii_cases c; reflexivity. Qed.

Lemma parse_chars_escape (s rest : string) :
  parse_chars (escape s +:+ String dquote rest) = Some (s, rest).
Proof.
  induction s as [|c s IH]; [reflexivity|].
  cbn [escape]. rewrite string_app_assoc, parse_chars_escape_char, IH.
  reflexivity.
Qed.

Lemma Number_toString_head (z : Z) :
  ∃ c t, Number_toString z = String c t ∧ (is_digit c || Ascii.eqb c "-") = true.
Proof.
  destruct z as [|p|p]; simpl; [by eexists _, _ | | by eexists _, _].
  pose proof (DecimalPos.Unsigned.to_uint_nonnil p) as Hnil.
  destruct (Pos.to_uint p); try done; by eexists _, _.
Qed.

Lemma parse_value_number_head (fuel : nat) (c : ascii) (r : string) :
  (is_digit c || Ascii.eqb c "-") = true →
  parse_value (S fuel) (String c r) = parse_number (String c r).
Proof. ascii_cases c; intros H; try discriminate H; reflexivity. Qed.

Lemma number_head_value_start (c : ascii) :
  (is_digit c || Ascii.eqb c "-") = true → value_start c = true.
Proof. ascii_cases c; intros H; try discriminate H; reflexivity. Qed.

Lemma serializable_stringify (v : value) :
  serializable v = true → JSON_stringify v = Some (ser v).
Proof. destruct v as [| |[]| | | | |]; done. Qed.

Lemma ser_head (v : value) :
  serializable v = true → ∃ c t, ser v = String c t ∧ value_start c = true.
Proof.
  destruct v as [| |[]|n|s|l|ps|]; try done; try (by eexists _, _).
  intros _. destruct (Number_toString_head n) as (c & t & E & H).
  exists c, t. split; [done|]. by apply number_head_value_start.
Qed.

Lemma ser_elems_ser (l : list value) :
  ser_elems JSON_stringify l = map ser l.
Proof. reflexivity. Qed.

Lemma ser_props_serializable (ps : list (string * value)) :
  forallb (λ kv, serializable kv.2) ps = true →
  ser_props JSON_stringify ps = map (λ kv, quote kv.1 +:+ ":" +:+ ser kv.2) ps.
Proof.
  induction ps as [|[k v] ps IH]; [done|]. simpl.
  intros [Hv Hps]%andb_prop. rewrite (serializable_stringify v Hv), IH; done.
Qed.

Lemma parse_value_array_head (fuel : nat) (c : ascii) (r : string) :
  value_start c = true →
  parse_value (S fuel) (String "[" (String c r))
  = match parse_elems fuel (String c r) with
    | Some (l, rest) => Some (VArr l, rest)
    | None => None
    end.
Proof. ascii_cases c; intros H; try discriminate H; reflexivity. Qed.

Lemma parse_elems_more (fuel : nat) (s rest : string) (v : value) :
  parse_value fuel s = Some (v, String "," rest) →
  parse_elems (S fuel) s
  = match parse_elems fuel rest with
    | Some (l, rest') => Some (v :: l, rest')
    | None => None
    end.
Proof. intros H. simpl. rewrite H. reflexivity. Qed.

Lemma parse_elems_last (fuel : nat) (s rest : string) (v : value) :
  parse_value fuel s = Some (v, String "]" rest) →
  parse_elems (S fuel) s = Some ([v], rest).
Proof. intros H. simpl. rewrite H. reflexivity. Qed.

Lemma parse_elems_join (l : list value) :
  l ≠ [] → Forall roundtrips l → forallb serializable l = true →
  ∀ fuel rest, (list_sum (map (λ x, S (size x)) l) ≤ fuel)%nat →
    parse_elems fuel (join "," (map ser l) +:+ String "]" rest) = Some (l, rest).
Proof.
  induction l as [|x l IH]; [done|]. intros _ Hall Hser fuel rest Hfuel.
  apply Forall_cons in Hall as [Hx Hl].
  simpl in Hser. apply andb_prop in Hser as [Hsx Hsl].
  destruct fuel as [|fuel]; [simpl in Hfuel; lia|].
  destruct l as [|y l].
  - apply parse_elems_last. apply (Hx Hsx); [simpl in Hfuel; lia | done].
  - assert (join "," (map ser (x :: y :: l))
            = ser x +:+ String "," (join "," (map ser (y :: l)))) as -> by reflexivity.
    rewrite string_app_assoc.
    erewrite parse_elems_more; last first.
    { apply (Hx Hsx); [simpl in Hfuel; lia | done]. }
    rewrite IH; [done|done|done|done|].
    change (map ?f (x :: ?r)) with (f x :: map f r) in Hfuel.
    change (list_sum (?a :: ?r)) with (a + list_sum r)%nat in Hfuel.
    cbv beta in Hfuel. lia.
Qed.

Lemma parse_members_more (fuel : nat) (k t rest1 rest : string) (v : value) :
  parse_chars t = Some (k, String ":" rest1) →
  parse_value fuel rest1 = Some (v, String "," rest) →
  parse_members (S fuel) (String dquote t)
  = match parse_members fuel rest with
    | Some (raw, rest') => Some ((k, v) :: raw, rest')
    | None => None
    end.
Proof. intros H1 H2. simpl. rewrite H1. simpl. rewrite H2. reflexivity. Qed.

Lemma parse_members_last (fuel : nat) (k t rest1 rest : string) (v : value) :
  parse_chars t = Some (k, String ":" rest1) →
  parse_value fuel rest1 = Some (v, String "}" rest) →
  parse_members (S fuel) (String dquote t) = Some ([(k, v)], rest).
Proof. intros H1 H2. simpl. rewrite H1. simpl. rewrite H2. reflexivity. Qed.

Lemma member_shape (kv : string * value) (rest : string) :
  member kv +:+ rest
  = String dquote (escape kv.1 +:+ String dquote (String ":" (ser kv.2 +:+ rest))).
Proof.
  unfold member, quote. cbn [String.append].
  by rewrite !string_app_assoc.
Qed.

Lemma parse_members_join (ps : list (string * value)) :
  ps ≠ [] → Forall (λ kv, roundtrips kv.2) ps →
  forallb (λ kv, serializable kv.2) ps = true →
  ∀ fuel rest, (list_sum (map (λ kv, S (size kv.2)) ps) ≤ fuel)%nat →
    parse_members fuel (join "," (map member ps) +:+ String "}" rest) = Some (ps, rest).
Proof.
  induction ps as [|[k v] ps IH]; [done|]. intros _ Hall Hser fuel rest Hfuel.
  apply Forall_cons in Hall as [Hx Hl]. cbn [fst snd] in Hx.
  simpl in Hser. apply andb_prop in Hser as [Hsx Hsl].
  destruct fuel as [|fuel]; [simpl in Hfuel; lia|].
  destruct ps as [|kv ps].
  - cbn [map join]. rewrite member_shape.
    eapply parse_members_last; [apply parse_chars_escape|].
    apply (Hx Hsx); [simpl in Hfuel |- *; lia | done].
  - assert (join "," (map member ((k, v) :: kv :: ps))
            = member (k, v) +:+ String "," (join "," (map member (kv :: ps)))) as -> by reflexivity.
    rewrite string_app_assoc, member_shape.
    erewrite parse_members_more; [|apply parse_chars_escape|]; last first.
    { apply (Hx Hsx); [simpl in Hfuel |- *; lia | done]. }
    rewrite IH; [done|done|done|done|].
    change (map ?f ((k, v) :: ?r)) with (f (k, v) :: map f r) in Hfuel.
    change (list_sum (?a :: ?r)) with (a + list_sum r)%nat in Hfuel.
    cbn [fst snd] in Hfuel. cbv beta in Hfuel. cbn [snd] in Hfuel. lia.
Qed.

Lemma set_field_fresh (ps : list (string * value)) (k : string) (v : value) :
  k ∉ map fst ps → set_field ps k v = ps ++ [(k, v)].
Proof.
  induction ps as [|[k' v'] ps IH]; [done|]. simpl. intros Hk.
  apply not_elem_of_cons in Hk as [Hne Hk].
  destruct (String.eqb_spec k' k) as [->|_]; [done|]. by rewrite IH.
Qed.

Lemma build_object_acc (raw acc : list (string * value)) :
  NoDup (map fst (acc ++ raw)) →
  fold_left (λ acc kv, set_field acc kv.1 kv.2) raw acc = acc ++ raw.
Proof.
  revert acc. induction raw as [|[k v] raw IH]; intros acc Hnd.
  - by rewrite app_nil_r.
  - simpl. rewrite set_field_fresh.
    + rewrite IH; rewrite <- app_assoc; done.
    + rewrite map_app in Hnd. apply NoDup_app in Hnd as (_ & Hd & _).
      intros Hin. apply (Hd k Hin). simpl. left.
Qed.

Lemma build_object_nodup (raw : list (string * value)) :
  NoDup (map fst raw) → build_object raw = raw.
Proof. intros H. unfold build_object. by rewrite build_object_acc. Qed.

Lemma parse_value_string (fuel : nat) (t : string) :
  parse_value (S fuel) (String dquote t)
  = match parse_chars t with
    | Some (s, rest) => Some (VStr s, rest)
    | None => None
    end.
Proof. reflexivity. Qed.

Lemma parse_value_object_head (fuel : nat) (t : string) :
  parse_value (S fuel) (String "{" (String dquote t))
  = match parse_members fuel (String dquote t) with
    | Some (raw, rest) => Some (VObj (build_object raw), rest)
    | None => None
    end.
Proof. reflexivity. Qed.

Lemma join_head (x : string) (l : list string) (rest : string) :
  ∃ t, join "," (x :: l) +:+ rest = x +:+ t.
Proof.
  destruct l as [|y l]; [by exists rest|].
  eexists. cbn [join]. by rewrite string_app_assoc.
Qed.

(** Printing a serializable value and parsing the text, followed by
    anything that ends a token, gives the value and what follows. *)
Lemma parse_value_ser (v : value) : roundtrips v.
Proof.
  induction v as [| |b|n|s|l IH|ps IH|neg whole rfrac] using value_ind';
    intros Hser fuel rest Hfuel Hd; try done;
    (destruct fuel as [|fuel]; [simpl in Hfuel; lia|]).
  - reflexivity.
  - by destruct b.
  - unfold ser. cbn [JSON_stringify].
    destruct (Number_toString_head n) as (c & t & E & Hc).
    rewrite E. cbn [String.append].
    rewrite parse_value_number_head by done.
    change (String c (t +:+ rest)) with (String c t +:+ rest).
    rewrite <- E. by apply parse_number_toString.
  - unfold ser. cbn [JSON_stringify]. unfold quote. cbn [String.append].
    rewrite parse_value_string, string_app_assoc. cbn [String.append].
    by rewrite parse_chars_escape.
  - unfold ser. cbn [JSON_stringify]. cbn [String.append].
    rewrite string_app_assoc. cbn [String.append].
    simpl in Hser. rewrite ser_elems_ser.
    destruct l as [|x l]; [reflexivity|].
    pose proof (andb_prop _ _ Hser) as [Hsx _].
    destruct (ser_head x Hsx) as (c & t & E & Hc).
    destruct (join_head (ser x) (map ser l) (String "]" rest)) as [t' Ej].
    pose proof (parse_elems_join (x :: l) ltac:(done) IH Hser fuel rest) as Hp.
    cbn [map] in *. rewrite Ej in *. rewrite E in *. cbn [String.append] in *.
    rewrite parse_value_array_head by done.
    rewrite Hp; [done|]. simpl in Hfuel |- *. lia.
  - unfold ser. cbn [JSON_stringify]. cbn [String.append].
    rewrite string_app_assoc. cbn [String.append].
    simpl in Hser. apply andb_prop in Hser as [Hnd Hser].
    apply bool_decide_eq_true in Hnd.
    rewrite ser_props_serializable by done.
    destruct ps as [|kv ps]; [reflexivity|].
    destruct (join_head (member kv) (map member ps) (String "}" rest)) as [t' Ej].
    pose proof (parse_members_join (kv :: ps) ltac:(done) IH Hser fuel rest) as Hp.
    change (map (λ kv, quote kv.1 +:+ ":" +:+ ser kv.2)) with (map member).
    cbn [map] in *. rewrite Ej in *. rewrite member_shape in *.
    rewrite parse_value_object_head.
    rewrite Hp; [by rewrite build_object_nodup|]. simpl in Hfuel |- *. lia.
Qed.

Lemma join_length (l : list string) :
  (list_sum (map (λ x, S (String.length x)) l) ≤ S (String.length (join "," l)))%nat.
Proof.
  induction l as [|x l IH]; [simpl; lia|].
  destruct l as [|y l]; [simpl; lia|].
  change (join "," (x :: y :: l)) with (x +:+ String "," (join "," (y :: l))).
  rewrite string_app_length. simpl in *. lia.
Qed.

Lemma list_sum_le {A} (f g : A → nat) (l : list A) :
  Forall (λ x, f x ≤ g x)%nat l → (list_sum (map f l) ≤ list_sum (map g l))%nat.
Proof. induction 1; simpl; lia. Qed.

Lemma size_le_length (v : value) :
  serializable v = true → (size v ≤ String.length (ser v))%nat.
Proof.
  induction v as [| |b|n|s|l IH|ps IH|neg whole rfrac] using value_ind'; intros Hser; try done.
  - simpl. lia.
  - destruct b; simpl; lia.
  - unfold ser. simpl. destruct (Number_toString_head n) as (c & t & -> & _).
    simpl. lia.
  - simpl. lia.
  - unfold ser. cbn [JSON_stringify]. simpl in Hser.
    rewrite ser_elems_ser.
    cbn [String.append String.length size]. rewrite string_app_length.
    pose proof (join_length (map ser l)) as Hj. rewrite map_map in Hj.
    assert (list_sum (map (λ x, S (size x)) l)
            ≤ list_sum (map (λ x, S (String.length (ser x))) l))%nat; [|simpl; lia].
    apply list_sum_le. rewrite Forall_forall in IH |- *. intros x Hx.
    pose proof (proj1 (forallb_forall _ _) Hser x (proj1 (list_elem_of_In _ _) Hx)) as Hsx.
    specialize (IH x Hx Hsx). lia.
  - unfold ser. cbn [JSON_stringify]. simpl in Hser.
    apply andb_prop in Hser as [_ Hser].
    rewrite ser_props_serializable by done.
    change (map (λ kv, quote kv.1 +:+ ":" +:+ ser kv.2)) with (map member).
    cbn [String.append String.length size]. rewrite string_app_length.
    pose proof (join_length (map member ps)) as Hj.
    rewrite map_map in Hj.
    assert (list_sum (map (λ kv, S (size kv.2)) ps)
            ≤ list_sum (map (λ kv, S (String.length (member kv))) ps))%nat;
      [|cbn [String.length]; lia].
    apply list_sum_le. rewrite Forall_forall in IH |- *. intros kv Hkv.
    pose proof (proj1 (forallb_forall _ _) Hser kv (proj1 (list_elem_of_In _ _) Hkv)) as Hsx.
    specialize (IH kv Hkv Hsx).
    unfold member. rewrite !string_app_length. lia.
Qed.

(** [JSON.parse(JSON.stringify(v))] is [v] for every serializable [v]. *)
Lemma JSON_parse_stringify (v : value) :
  serializable v = true →
  ∃ text, JSON_stringify v = Some text ∧ text ≠ EmptyString ∧ JSON_parse text = Some v.
Proof.
  intros Hser. exists (ser v). split; [by apply serializable_stringify|].
  pose proof (size_le_length v Hser) as Hsz.
  destruct (ser_head v Hser) as (c & t & E & _).
  split; [by rewrite E|].
  unfold JSON_parse.
  pose proof (parse_value_ser v Hser (S (String.length (ser v))) EmptyString) as Hp.
  rewrite string_app_nil_r in Hp. rewrite Hp; [done|lia|done].
Qed.

(* ================================================================== *)
(** * Time stamps *)
(* ================================================================== *)

Lemma read_digits_all (u : Decimal.uint) :
  read_digits (NilEmpty.string_of_uint u) = (u, EmptyString).
Proof.
  pose proof (read_digits_app u EmptyString eq_refl) as H.
  by rewrite string_app_nil_r in H.
Qed.

Lemma parseInt_nonzero_head (c : ascii) (r : string) :
  is_digit c && negb (Ascii.eqb c "0") = true →
  (parseInt (String c r)
   = match read_digits (String c r) with
     | (Nil, _) => None
     | (u, _) => Some (Z.of_N (N.of_uint u))
     end)
  ∧ (parseInt (String "-" (String c r))
     = match read_digits (String c r) with
       | (Nil, _) => None
       | (u, _) => Some (- Z.of_N (N.of_uint u))
       end).
Proof. ascii_cases c; intros H; try discriminate H; split; reflexivity. Qed.

Lemma string_of_uint_head (u : Decimal.uint) :
  u ≠ Nil → (∀ u', u ≠ D0 u') →
  ∃ c r, NilEmpty.string_of_uint u = String c r
         ∧ is_digit c && negb (Ascii.eqb c "0") = true.
Proof.
  intros Hnil Hz. destruct u; try done; try (by eexists _, _).
  by destruct (Hz u).
Qed.

(** [parseInt] reads back the decimal text of an integer. *)
Lemma parseInt_toString (z : Z) : parseInt (Number_toString z) = Some z.
Proof.
  destruct z as [|p|p]; unfold Number_toString; [reflexivity|..];
    pose proof (DecimalPos.Unsigned.to_uint_nonnil p) as Hnil;
    pose proof (to_uint_no_leading_zero p) as Hz;
    pose proof (read_digits_all (Pos.to_uint p)) as Hr;
    pose proof (N_of_to_uint p) as Hv;
    destruct (string_of_uint_head (Pos.to_uint p)) as (c & r & E & Hc);
    try done; rewrite E in *;
    destruct (parseInt_nonzero_head c r Hc) as [H1 H2].
  - rewrite H1, Hr. rewrite Hv. by destruct (Pos.to_uint p).
  - rewrite H2, Hr. rewrite Hv. by destruct (Pos.to_uint p).
Qed.

(** When [hasUnsavedChanges] answers [true]. *)
Lemma hasUnsavedChanges_true (st : gmap string string) :
  hasUnsavedChanges st = true ↔
  ∃ saved modified a b,
    st !! "lastSaved" = Some saved ∧ st !! "lastModified" = Some modified ∧
    parseInt saved = Some a ∧ parseInt modified = Some b ∧ a ≠ 0 ∧ a < b.
Proof.
  unfold hasUnsavedChanges, getLastSavedTime, falsy_time. split.
  - destruct (st !! "lastSaved") as [saved|]; [|done].
    destruct (String.eqb_spec saved EmptyString) as [->|Hs]; [done|].
    cbn [negb]. destruct (parseInt saved) as [a|] eqn:Ea; [|done].
    destruct (Z.eqb_spec a 0) as [->|Ha]; cbn [orb]; [done|].
    destruct (st !! "lastModified") as [modified|]; [|done].
    destruct (String.eqb modified EmptyString); [done|].
    destruct (parseInt modified) as [b|] eqn:Eb; [|done].
    intros Hlt%Z.ltb_lt. by exists saved, modified, a, b.
  - intros (saved & modified & a & b & -> & -> & Ha & Hb & Hne & Hlt).
    assert (String.eqb saved EmptyString = false) as ->.
    { apply String.eqb_neq. intros ->. discriminate Ha. }
    assert (String.eqb modified EmptyString = false) as ->.
    { apply String.eqb_neq. intros ->. discriminate Hb. }
    cbn [negb]. rewrite Ha, Hb. apply Z.eqb_neq in Hne. rewrite Hne. cbn [orb].
    by apply Z.ltb_lt.
Qed.

(* ================================================================== *)
(** * What each call does to the state *)
(* ================================================================== *)

Lemma get_prop_field (o : value) (k : string) :
  nullish o = false →
  get_prop o k = Ok (get_field (match o with VObj ps => ps | _ => [] end) k).
Proof. by destruct o. Qed.

Lemma addTask_ok (now_id now_mod : Z) (taskData : value) (s : state) :
  nullish taskData = false →
  addTask now_id now_mod taskData s
  = (Ok (length (heap s)),
     mkState (<["lastModified" := Number_toString now_mod]> (storage s))
             (heap s ++ [created now_id taskData])
             (tasks s ++ [length (heap s)])
             (<[Number_toString now_id := length (heap s)]> (taskMap s))
             (trace s ++ [EvCreateTaskAPI taskData])).
Proof.
  intros Hn. unfold addTask, createTask.
  rewrite !(get_prop_field taskData) by done. reflexivity.
Qed.

Lemma addTask_throws (now_id now_mod : Z) (taskData : value) (s : state) :
  nullish taskData = true →
  ∃ msg, addTask now_id now_mod taskData s
  = (Throw msg,
     mkState (storage s) (heap s) (tasks s) (taskMap s)
             (trace s ++ [EvCreateTaskAPI taskData; EvConsoleError msg])).
Proof.
  intros Hn. eexists.
  destruct taskData; try done; unfold addTask, createTask; cbn [get_prop]; run_m;
    rewrite <- app_assoc; reflexivity.
Qed.

Lemma deref_insert_same (h : list value) (l : loc) (ps : list (string * value)) (w : value) :
  deref h l = VObj ps → deref (<[l := w]> h) l = w.
Proof.
  unfold deref. intros H. destruct (h !! l) as [x|] eqn:E; [|done].
  rewrite list_lookup_insert_eq; [done|]. by eapply lookup_lt_Some.
Qed.

Lemma deref_insert_ne (h : list value) (l l' : loc) (w : value) :
  l ≠ l' → deref (<[l := w]> h) l' = deref h l'.
Proof. intros H. unfold deref. by rewrite list_lookup_insert_ne. Qed.

Lemma editTask_absent (now_mod taskId : Z) (updates : value) (s : state) :
  nullish updates = false →
  taskMap s !! Number_toString taskId = None →
  editTask now_mod taskId updates s
  = (Ok false,
     mkState (storage s) (heap s) (tasks s) (taskMap s)
             (trace s ++ [EvUpdateTaskAPI taskId updates])).
Proof.
  intros Hn Hk. unfold editTask, updateTask.
  rewrite !(get_prop_field updates) by done. run_m. by rewrite Hk.
Qed.

Lemma editTask_found (now_mod taskId : Z) (updates : value) (s : state)
    (l : loc) (ps : list (string * value)) :
  nullish updates = false →
  taskMap s !! Number_toString taskId = Some l →
  deref (heap s) l = VObj ps →
  editTask now_mod taskId updates s
  = (Ok true,
     mkState (<["lastModified" := Number_toString now_mod]> (storage s))
             (<[l := VObj (edited ps updates)]> (heap s))
             (tasks s) (taskMap s)
             (trace s ++ [EvUpdateTaskAPI taskId updates])).
Proof.
  intros Hn Hk Hc.
  unfold editTask, updateTask, set_prop.
  rewrite !(get_prop_field updates) by done.
  repeat (run_m;
          cbn [truthy negb get_prop get_field String.eqb Ascii.eqb Bool.eqb];
          rewrite ?Hk, ?Hc, ?(deref_insert_same _ _ _ _ Hc), ?list_insert_insert_eq).
  reflexivity.
Qed.

(** In every case [editTask] leaves the sequence and the index as they
    are, and changes no record's [id]. *)
Lemma editTask_frame (now_mod taskId : Z) (updates : value) (s : state) :
  let s' := (editTask now_mod taskId updates s).2 in
  tasks s' = tasks s ∧ taskMap s' = taskMap s ∧
  (∀ l, record_key (heap s') l = record_key (heap s) l) ∧
  (∀ l, nullish (deref (heap s') l) = nullish (deref (heap s) l)).
Proof.
  destruct (nullish updates) eqn:Hn.
  { destruct updates; try done; unfold editTask, updateTask; cbn [get_prop]; run_m; done. }
  destruct (taskMap s !! Number_toString taskId) as [l|] eqn:Hk.
  2:{ rewrite editTask_absent by done. done. }
  destruct (deref (heap s) l) as [| |b|n|t|els|ps|] eqn:Hc.
  7:{ rewrite (editTask_found _ _ _ _ l ps) by done. cbn [snd tasks taskMap heap].
      split; [done|]. split; [done|].
      assert (∀ l', get_prop (deref (<[l:=VObj (edited ps updates)]> (heap s)) l') "id"
                   = get_prop (deref (heap s) l') "id"
                   ∧ nullish (deref (<[l:=VObj (edited ps updates)]> (heap s)) l')
                     = nullish (deref (heap s) l')) as Hfr.
      { intros l'. destruct (decide (l = l')) as [<-|Hne].
        - rewrite (deref_insert_same _ _ _ _ Hc), Hc. split; [|done]. simpl. f_equal.
          unfold edited.
          generalize (get_field match updates with VObj us => us | _ => [] end "title").
          generalize (get_field match updates with VObj us => us | _ => [] end "description").
          generalize (get_field match updates with VObj us => us | _ => [] end "status").
          intros a b c. clear.
          assert (∀ qs k v, String.eqb k "id" = false →
                    get_field (set_field qs k v) "id" = get_field qs "id") as Hsf.
          { intros qs k v Hkid. induction qs as [|[k' v'] qs IH]; simpl.
            - by rewrite Hkid.
            - destruct (String.eqb_spec k' k) as [->|Hne]; simpl.
              + by rewrite Hkid.
              + destruct (String.eqb k' "id"); done. }
          by rewrite !Hsf.
        - by rewrite deref_insert_ne. }
      split; intros l'; [unfold record_key; by rewrite (proj1 (Hfr l'))|apply Hfr]. }
  all: unfold editTask, updateTask, set_prop;
       rewrite !(get_prop_field updates) by done;
       repeat (run_m; cbn [truthy negb get_prop get_field String.eqb Ascii.eqb Bool.eqb];
               rewrite ?Hk, ?Hc);
       try done.
  - destruct b; repeat (run_m; rewrite ?Hc); done.
  - destruct (n =? 0); repeat (run_m; rewrite ?Hc); done.
  - destruct (String.eqb t ""); repeat (run_m; rewrite ?Hc); done.
Qed.

(** [findIndex] finds the first record whose [id] is the Number. *)
Lemma findIndex_found (h : list value) (ts : list loc) (taskId : Z) (n i : nat) :
  findIndex h ts taskId n = Ok (Some i) →
  ∃ l, (n ≤ i)%nat ∧ ts !! (i - n)%nat = Some l ∧
       get_prop (deref h l) "id" = Ok (VNum taskId).
Proof.
  revert n. induction ts as [|l ts IH]; intros n; [done|]. simpl.
  destruct (get_prop (deref h l) "id") as [id|e] eqn:Eid; [|done].
  destruct (strict_eq_num id taskId) eqn:Eq.
  - intros [= <-]. exists l. rewrite Nat.sub_diag. split; [lia|]. split; [done|].
    destruct id; try done. simpl in Eq. apply Z.eqb_eq in Eq. by subst.
  - intros H. destruct (IH _ H) as (l' & Hle & Hl & Hid).
    exists l'. split; [lia|]. split; [|done].
    replace (i - n)%nat with (S (i - S n)) by lia. done.
Qed.

Lemma deleteTask_cases (now_mod taskId : Z) (s : state) :
  let ev := trace s ++ [EvDeleteTaskAPI taskId] in
  match findIndex (heap s) (tasks s) taskId 0 with
  | Ok (Some i) =>
      deleteTask now_mod taskId s
      = (Ok true,
         mkState (<["lastModified" := Number_toString now_mod]> (storage s))
                 (heap s) (delete i (tasks s))
                 (delete (Number_toString taskId) (taskMap s)) ev)
  | Ok None =>
      deleteTask now_mod taskId s
      = (Ok false, mkState (storage s) (heap s) (tasks s) (taskMap s) ev)
  | Throw msg =>
      deleteTask now_mod taskId s
      = (Throw msg,
         mkState (storage s) (heap s) (tasks s) (taskMap s)
                 (ev ++ [EvConsoleError msg]))
  end.
Proof.
  unfold deleteTask, deleteTaskAPI. run_m.
  destruct (findIndex (heap s) (tasks s) taskId 0) as [[i|]|msg]; reflexivity.
Qed.

(* ------------------------------------------------------------------ *)
(** ** The derived index *)

Lemma derived_index_snoc (h : list value) (ts : list loc) (l : loc) :
  derived_index h (ts ++ [l]) = <[record_key h l := l]> (derived_index h ts).
Proof. unfold derived_index. by rewrite foldl_app. Qed.

Lemma derived_index_ext (h h' : list value) (ts : list loc) :
  Forall (λ l, record_key h' l = record_key h l) ts →
  derived_index h' ts = derived_index h ts.
Proof.
  induction ts as [|l ts IH] using rev_ind; [done|].
  intros [Hts Hl]%Forall_app. rewrite Forall_singleton in Hl.
  rewrite !derived_index_snoc, Hl, IH; done.
Qed.

(** A key finds the last record of the sequence that carries it. *)
Lemma derived_index_lookup (h : list value) (ts : list loc) (k : string) :
  derived_index h ts !! k = last (filter (λ l, record_key h l = k) ts).
Proof.
  induction ts as [|l ts IH] using rev_ind; [done|].
  rewrite derived_index_snoc, filter_app, filter_cons, filter_nil.
  destruct (decide (record_key h l = k)) as [->|Hne].
  - by rewrite lookup_insert_eq, last_snoc.
  - by rewrite lookup_insert_ne, app_nil_r.
Qed.

Lemma derived_index_delete (h : list value) (ts : list loc) (i : nat) (l : loc) :
  ts !! i = Some l →
  (length (filter (λ l', record_key h l' = record_key h l) ts) ≤ 1)%nat →
  derived_index h (delete i ts) = delete (record_key h l) (derived_index h ts).
Proof.
  intros Hi Hone. apply map_eq. intros k.
  rewrite derived_index_lookup, delete_take_drop.
  rewrite <- (take_drop_middle ts i l Hi) in Hone.
  rewrite filter_app, filter_cons in Hone.
  destruct (decide (record_key h l = record_key h l)) as [_|]; [|done].
  rewrite length_app in Hone. simpl in Hone.
  destruct (decide (k = record_key h l)) as [->|Hne].
  - rewrite lookup_delete_eq, filter_app.
    destruct (filter _ (take i ts)); [|simpl in Hone; lia].
    destruct (filter _ (drop (S i) ts)); [done|simpl in Hone; lia].
  - rewrite lookup_delete_ne by done. rewrite derived_index_lookup.
    rewrite <- (take_drop_middle ts i l Hi) at 3.
    rewrite !filter_app, filter_cons.
    destruct (decide (record_key h l = k)); [by subst|done].
Qed.

(** A record indexed under the key of a Number is an object: what
    [editTask] assigns to is never a primitive or an array. *)
Lemma index_sound (s : state) (n : Z) (l : loc) :
  synced s → taskMap s !! Number_toString n = Some l →
  ∃ ps, deref (heap s) l = VObj ps.
Proof.
  unfold synced. intros -> Hl. rewrite derived_index_lookup in Hl.
  apply last_Some_elem_of, list_elem_of_filter in Hl as [Hk _].
  unfold record_key in Hk.
  destruct (Number_toString_head n) as (c & t & E & Hc). rewrite E in Hk.
  destruct (deref (heap s) l) as [| |b|m|x|els|ps|]; cbn in Hk;
    try (injection Hk as <- _; discriminate Hc).
  by exists ps.
Qed.

Lemma deref_app_lt (h : list value) (v : value) (l : loc) :
  nullish (deref h l) = false → deref (h ++ [v]) l = deref h l.
Proof.
  unfold deref. destruct (h !! l) as [x|] eqn:E; [|done].
  intros _. by rewrite (lookup_app_l_Some _ _ _ _ E).
Qed.

Lemma deref_app_new (h : list value) (v : value) :
  deref (h ++ [v]) (length h) = v.
Proof. unfold deref. by rewrite list_lookup_middle. Qed.

(* ------------------------------------------------------------------ *)
(** ** Rebuilding the index *)

Lemma index_task_step (l : loc) (s : state) :
  index_task l s
  = match get_prop (deref (heap s) l) "id" with
    | Ok id => (Ok tt, mkState (storage s) (heap s) (tasks s)
                         (<[to_key id := l]> (taskMap s)) (trace s))
    | Throw e => (Throw e, s)
    end.
Proof.
  unfold index_task. run_m.
  by destruct (get_prop (deref (heap s) l) "id").
Qed.

Lemma index_all (ts : list loc) (s s' : state) (r : result unit) :
  forEach ts index_task s = (r, s') →
  storage s' = storage s ∧ heap s' = heap s ∧ tasks s' = tasks s ∧
  trace s' = trace s ∧
  (∀ u, r = Ok u →
        taskMap s' = foldl (λ m l, <[record_key (heap s) l := l]> m) (taskMap s) ts
        ∧ Forall (λ l, nullish (deref (heap s) l) = false) ts) ∧
  (Forall (λ l, nullish (deref (heap s) l) = false) ts → r = Ok tt).
Proof.
  revert s. induction ts as [|l ts IH]; intros s.
  { cbn. intros [= <- <-]. by repeat split. }
  cbn [forEach]. unfold bind. rewrite index_task_step.
  destruct (get_prop (deref (heap s) l) "id") as [id|e] eqn:Eid.
  - set (s1 := mkState _ _ _ _ _). intros Hrun.
    destruct (IH s1 Hrun) as (H1 & H2 & H3 & H4 & H5 & H6).
    assert (nullish (deref (heap s) l) = false) as Hl
      by (by destruct (deref (heap s) l)).
    do 4 (split; [done|]). split.
    + intros u Hu. destruct (H5 u Hu) as [Hm Hf]. split; [|by constructor].
      assert (record_key (heap s) l = to_key id) as Hk
        by (unfold record_key; by rewrite Eid).
      rewrite Hm. cbn [foldl]. by rewrite Hk.
    + intros [_ Hf]%Forall_cons. by apply H6.
  - intros [= <- <-]. do 4 (split; [done|]). split; [done|].
    intros [Hl _]%Forall_cons. by destruct (deref (heap s) l).
Qed.

(** What [refreshTaskMap] leaves when it returns, and when it returns. *)
Lemma refreshTaskMap_spec (s s' : state) (r : result unit) :
  refreshTaskMap s = (r, s') →
  storage s' = storage s ∧ heap s' = heap s ∧ tasks s' = tasks s ∧
  trace s' = trace s ∧
  (∀ u, r = Ok u → synced s' ∧ readable s') ∧
  (readable s → r = Ok tt).
Proof.
  unfold refreshTaskMap. run_m. set (s1 := mkState _ _ _ ∅ _). intros Hrun.
  destruct (index_all (tasks s) s1 s' r Hrun) as (H1 & H2 & H3 & H4 & H5 & H6).
  do 4 (split; [done|]). split.
  - intros u Hu. destruct (H5 u Hu) as [Hm Hf]. split.
    + unfold synced. by rewrite Hm, H2, H3.
    + unfold readable. by rewrite H2, H3.
  - intros Hr. by apply H6.
Qed.

(* ================================================================== *)
(** * C2: the index follows the sequence *)
(* ================================================================== *)

Lemma record_key_app (h : list value) (v : value) (l : loc) :
  nullish (deref h l) = false → record_key (h ++ [v]) l = record_key h l.
Proof. intros H. unfold record_key. by rewrite deref_app_lt. Qed.

Lemma addTask_preserves (now_id now_mod : Z) (taskData : value) (s : state) :
  readable s → synced s →
  readable (addTask now_id now_mod taskData s).2
  ∧ synced (addTask now_id now_mod taskData s).2.
Proof.
  intros Hr Hs. destruct (nullish taskData) eqn:Hn.
  { destruct (addTask_throws now_id now_mod taskData s Hn) as [msg ->]. done. }
  rewrite addTask_ok by done. unfold readable, synced in *. cbn [snd heap tasks taskMap].
  split.
  - apply Forall_app. split.
    + eapply Forall_impl; [exact Hr|]. intros l Hl. cbv beta in *.
      by rewrite deref_app_lt.
    + apply Forall_singleton. by rewrite deref_app_new.
  - rewrite derived_index_snoc.
    assert (record_key (heap s ++ [created now_id taskData]) (length (heap s))
            = Number_toString now_id) as ->.
    { unfold record_key. by rewrite deref_app_new. }
    f_equal. rewrite Hs. symmetry. apply derived_index_ext.
    eapply Forall_impl; [exact Hr|]. intros l Hl. by apply record_key_app.
Qed.

Lemma editTask_preserves (now_mod taskId : Z) (updates : value) (s : state) :
  readable s → synced s →
  readable (editTask now_mod taskId updates s).2
  ∧ synced (editTask now_mod taskId updates s).2.
Proof.
  intros Hr Hs.
  destruct (editTask_frame now_mod taskId updates s) as (Ht & Hm & Hk & Hn).
  unfold readable, synced in *. rewrite Ht, Hm. split.
  - eapply Forall_impl; [exact Hr|]. intros l Hl. cbv beta in *. by rewrite Hn.
  - rewrite Hs. symmetry. apply derived_index_ext, Forall_forall. intros l _. apply Hk.
Qed.

Lemma deleteTask_preserves (now_mod taskId : Z) (s : state) :
  readable s → synced s → (occurrences s taskId ≤ 1)%nat →
  readable (deleteTask now_mod taskId s).2
  ∧ synced (deleteTask now_mod taskId s).2.
Proof.
  intros Hr Hs Hone. pose proof (deleteTask_cases now_mod taskId s) as Hc.
  cbv zeta in Hc.
  destruct (findIndex (heap s) (tasks s) taskId 0) as [[i|]|msg] eqn:Ef;
    rewrite Hc; try done.
  destruct (findIndex_found _ _ _ _ _ Ef) as (l & _ & Hi & Hid).
  rewrite Nat.sub_0_r in Hi.
  assert (record_key (heap s) l = Number_toString taskId) as Hk.
  { unfold record_key. by rewrite Hid. }
  unfold readable, synced in *. cbn [snd heap tasks taskMap]. split.
  - by apply Forall_delete.
  - rewrite Hs, <- Hk. symmetry. apply derived_index_delete; [done|].
    unfold occurrences in Hone. by rewrite Hk.
Qed.

Lemma exec_preserves (o : op) (s : state) :
  readable s → synced s →
  match o with
  | OpDelete _ taskId => (occurrences s taskId ≤ 1)%nat
  | _ => True
  end →
  readable (exec o s) ∧ synced (exec o s).
Proof.
  intros Hr Hs Ho. destruct o as [a b td|a b u|a b]; cbn [exec].
  - by apply addTask_preserves.
  - by apply editTask_preserves.
  - by apply deleteTask_preserves.
Qed.

Lemma exec_all_preserves (ops : list op) (s : state) :
  readable s → synced s → deletes_unambiguous ops s = true →
  readable (exec_all ops s) ∧ synced (exec_all ops s).
Proof.
  revert s. induction ops as [|o ops IH]; intros s Hr Hs Hu; [done|].
  cbn [deletes_unambiguous] in Hu. apply andb_prop in Hu as [Ho Hu].
  destruct (exec_preserves o s Hr Hs) as [Hr' Hs'].
  { destruct o; try done. by apply bool_decide_eq_true in Ho. }
  cbn [exec_all foldl]. by apply IH.
Qed.

(** C2 (as amended). After [refreshTaskMap] returns, and after every
    call of a run of [addTask], [editTask] and [deleteTask] that starts
    with the index in step with a readable sequence and in which each
    [deleteTask(id)] is called while at most one record carries that id,
    [taskMap] is the mapping derived from the sequence; [refreshTaskMap]
    returns whenever the sequence is readable. *)
Theorem index_matches_sequence :
  (∀ s s' u, refreshTaskMap s = (Ok u, s') → synced s') ∧
  (∀ s, readable s → ∃ s', refreshTaskMap s = (Ok tt, s')) ∧
  (∀ ops s, readable s → synced s → deletes_unambiguous ops s = true →
            synced (exec_all ops s)).
Proof.
  split; [|split].
  - intros s s' u H. destruct (refreshTaskMap_spec _ _ _ H) as (_ & _ & _ & _ & H5 & _).
    by destruct (H5 u).
  - intros s Hr. destruct (refreshTaskMap s) as [r s'] eqn:E. exists s'.
    destruct (refreshTaskMap_spec _ _ _ E) as (_ & _ & _ & _ & _ & H6).
    by rewrite (H6 Hr).
  - intros ops s Hr Hs Hu. by apply exec_all_preserves.
Qed.

Lemma index_matches_sequence_witness :
  synced (exec_all [OpAdd 5 6 sample_data; OpAdd 7 8 sample_data;
                    OpEdit 9 5 sample_data; OpDelete 10 5] (initial ∅)).
Proof.
  apply (proj2 (proj2 index_matches_sequence)).
  - constructor.
  - reflexivity.
  - vm_compute. reflexivity.
Defined.

(** C2, as stated, fails: two records created within one millisecond
    share an id, and deleting by that id removes the first of them from
    the sequence and the id from the index, although the second record
    is still in the sequence. *)
Lemma index_diverges_on_shared_id :
  ¬ synced (exec_all [OpAdd 5 6 sample_data; OpAdd 5 7 sample_data; OpDelete 8 5]
              (initial ∅)).
Proof.
  unfold synced. intros H.
  apply (f_equal (λ m : gmap string loc, m !! "5")) in H.
  vm_compute in H. discriminate H.
Qed.

Lemma filter_none {A} (P : A → Prop) `{!∀ x, Decision (P x)} (l : list A) :
  Forall (λ x, ¬ P x) l → filter P l = [].
Proof.
  induction 1 as [|x l Hx _ IH]; [done|]. by rewrite filter_cons_False.
Qed.

Lemma occurrences_NoDup (s : state) (taskId : Z) :
  NoDup (keys s) → (occurrences s taskId ≤ 1)%nat.
Proof.
  unfold keys, occurrences. generalize (Number_toString taskId) as k.
  generalize (record_key (heap s)) as key. intros key k.
  induction (tasks s) as [|l ts IH]; [simpl; lia|].
  rewrite fmap_cons. intros [Hl Hts]%NoDup_cons. rewrite filter_cons.
  destruct (decide (key l = k)) as [<-|_]; [|by apply IH].
  rewrite filter_none; [simpl; lia|].
  apply Forall_forall. intros l' Hin Heq.
  apply Hl. rewrite <- Heq. by apply list_elem_of_fmap_2.
Qed.

Lemma exec_keeps_ids_unique (o : op) (s : state) :
  readable s → NoDup (keys s) →
  match o with
  | OpAdd now_id _ taskData =>
      nullish taskData = true ∨ Number_toString now_id ∉ keys s
  | _ => True
  end →
  NoDup (keys (exec o s)).
Proof.
  intros Hr Hnd Ho. destruct o as [now_id now_mod td|now_mod taskId u|now_mod taskId];
    cbn [exec].
  - destruct (nullish td) eqn:Hn.
    + destruct (addTask_throws now_id now_mod td s Hn) as [msg ->]. done.
    + destruct Ho as [Ho|Ho]; [done|].
      rewrite addTask_ok by done. unfold keys in *. cbn [snd heap tasks].
      rewrite fmap_app. cbn [fmap list_fmap].
      assert (record_key (heap s ++ [created now_id td]) (length (heap s))
              = Number_toString now_id) as ->.
      { unfold record_key. by rewrite deref_app_new. }
      assert (record_key (heap s ++ [created now_id td]) <$> tasks s
              = record_key (heap s) <$> tasks s) as ->.
      { apply Forall_fmap_ext_1. eapply Forall_impl; [exact Hr|].
        intros l Hl. by apply record_key_app. }
      apply NoDup_app. split; [done|]. split; [|apply NoDup_singleton].
      intros k Hk Hk'%list_elem_of_singleton. by subst.
  - destruct (editTask_frame now_mod taskId u s) as (Ht & _ & Hk & _).
    unfold keys. rewrite Ht.
    rewrite (list_fmap_ext _ (record_key (heap s)) (tasks s)); [done|].
    intros i l _. apply Hk.
  - pose proof (deleteTask_cases now_mod taskId s) as Hc. cbv zeta in Hc.
    destruct (findIndex (heap s) (tasks s) taskId 0) as [[i|]|msg];
      rewrite Hc; try done.
    unfold keys in *. cbn [snd heap tasks].
    rewrite list_fmap_delete. eapply sublist_NoDup; [exact Hnd|].
    apply sublist_delete.
Qed.

Lemma fresh_ids_unambiguous (ops : list op) (s : state) :
  readable s → synced s → NoDup (keys s) → fresh_ids ops s = true →
  deletes_unambiguous ops s = true.
Proof.
  revert s. induction ops as [|o ops IH]; intros s Hr Hs Hnd Hf; [done|].
  cbn [fresh_ids deletes_unambiguous] in *. apply andb_prop in Hf as [Ho Hf].
  assert (match o with
          | OpDelete _ taskId => (occurrences s taskId ≤ 1)%nat
          | _ => True
          end) as Hocc.
  { destruct o; try done. by apply occurrences_NoDup. }
  apply andb_true_intro. split.
  - destruct o; try done. by apply bool_decide_eq_true.
  - destruct (exec_preserves o s Hr Hs Hocc) as [Hr' Hs'].
    apply IH; try done. apply exec_keeps_ids_unique; try done.
    destruct o; try done. apply orb_prop in Ho as [Ho|Ho]; [by left|right].
    by apply bool_decide_eq_true in Ho.
Qed.

(** With the ids of the specification, assumed unique: when no two
    records of the sequence share an id and every [addTask] fabricates
    a fresh one, the index follows the sequence through the whole run. *)
Lemma unique_ids_keep_index (ops : list op) (s : state) :
  readable s → synced s → NoDup (keys s) → fresh_ids ops s = true →
  synced (exec_all ops s).
Proof.
  intros Hr Hs Hnd Hf. apply exec_all_preserves; try done.
  by apply fresh_ids_unambiguous.
Qed.

(* ================================================================== *)
(** * C4 and C5: adding and editing *)
(* ================================================================== *)

(** C4. For every [taskData] object, [addTask] returns a new record
    whose [title], [description] and [status] are those of [taskData],
    whose properties are [id], [title], [description] and [status] only
    (no [priority]), and which the index finds under the record's [id]. *)
Theorem addTask_returns_indexed_record
    (now_id now_mod : Z) (fields : list (string * value)) (s : state) :
  ∃ l s' ps,
    addTask now_id now_mod (VObj fields) s = (Ok l, s') ∧
    deref (heap s') l = VObj ps ∧
    get_field ps "title" = get_field fields "title" ∧
    get_field ps "description" = get_field fields "description" ∧
    get_field ps "status" = get_field fields "status" ∧
    map fst ps = ["id"; "title"; "description"; "status"] ∧
    get_field ps "priority" = VUndef ∧
    taskMap s' !! record_key (heap s') l = Some l.
Proof.
  eexists _, _, _. rewrite addTask_ok by done.
  split; [reflexivity|]. cbn [heap taskMap]. rewrite deref_app_new.
  split; [reflexivity|].
  do 5 (split; [reflexivity|]).
  unfold record_key. rewrite deref_app_new. apply lookup_insert_eq.
Qed.

(** The record of the form: the priority chosen in the modal is not in
    it. *)
Example addTask_drops_priority :
  let run := addTask 1723720000000 1723720000001 sample_data (initial ∅) in
  run.1 = Ok 0%nat ∧
  task_values run.2
  = [VObj [("id", VNum 1723720000000); ("title", VStr "Write report");
           ("description", VStr "draft"); ("status", VStr "todo")]].
Proof. by vm_compute. Qed.

(** C5. For an id that the index does not hold and every [updates]
    object, [editTask] returns [false]; the sequence, its records, the
    index and the local store are as before; and the one thing the call
    did, before returning, is the call of the update stub. *)
Theorem editTask_absent_id_returns_false
    (now_mod taskId : Z) (fields : list (string * value)) (s : state) :
  taskMap s !! Number_toString taskId = None →
  ∃ s',
    editTask now_mod taskId (VObj fields) s = (Ok false, s') ∧
    tasks s' = tasks s ∧ heap s' = heap s ∧ task_values s' = task_values s ∧
    taskMap s' = taskMap s ∧ storage s' = storage s ∧
    trace s' = trace s ++ [EvUpdateTaskAPI taskId (VObj fields)].
Proof.
  intros Hk. eexists. rewrite editTask_absent by done.
  by repeat split.
Qed.

Lemma editTask_absent_id_returns_false_witness :
  ∃ s',
    editTask 9 42 sample_data (exec (OpAdd 5 6 sample_data) (initial ∅)) = (Ok false, s') ∧
    tasks s' = [0%nat] ∧
    trace s' = [EvCreateTaskAPI sample_data; EvUpdateTaskAPI 42 sample_data].
Proof.
  destruct (editTask_absent_id_returns_false 9 42
              [("title", VStr "Write report"); ("description", VStr "draft");
               ("status", VStr "todo"); ("priority", VStr "high")]
              (exec (OpAdd 5 6 sample_data) (initial ∅)))
    as (s' & H & Ht & _ & _ & _ & _ & Htr); [reflexivity |].
  exists s'. split; [exact H|]. split; [exact Ht | exact Htr].
Defined.

(* ================================================================== *)
(** * C9: the modal handlers *)
(* ================================================================== *)

(** C9. When the trimmed title is empty, [saveChanges] and [addNewTask]
    only raise their alert: no stub of the remote source is called,
    which [editTask] and [addTask] would do first, and the sequence, the
    records, the index and the local store are untouched. *)
Theorem empty_title_blocks_mutation
    (now_id now_mod now_save : Z) (m : modal) (s : state) :
  trim (m_title m) = EmptyString →
  saveChanges now_mod now_save m s = (Ok tt, alerted s "Title is required.") ∧
  addNewTask now_id now_mod now_save m s = (Ok tt, alerted s "Please enter a title.").
Proof.
  intros Ht. unfold saveChanges, addNewTask. rewrite Ht. by split.
Qed.

Lemma empty_title_blocks_mutation_witness :
  let m := mkModal 5 (" " +:+ no_break_space +:+ ideographic_space +:+ "	")
             "text" "todo" "low" in
  let s := exec (OpAdd 5 6 sample_data) (initial ∅) in
  saveChanges 8 9 m s = (Ok tt, alerted s "Title is required.") ∧
  addNewTask 7 8 9 m s = (Ok tt, alerted s "Please enter a title.").
Proof.
  apply (empty_title_blocks_mutation 7 8 9). reflexivity.
Defined.

(** The handlers do reach the collection when the title is not empty. *)
Example nonempty_title_reaches_editTask :
  trace (saveChanges 8 9 (mkModal 42 " x " "text" "todo" "low") (initial ∅)).2
  = [EvUpdateTaskAPI 42 (form_data (mkModal 42 " x " "text" "todo" "low"))].
Proof. vm_compute. reflexivity. Qed.

(* ================================================================== *)
(** * C10 and C6: loading and saving the snapshot *)
(* ================================================================== *)

Lemma push_all (vals : list value) (s : state) :
  forEach vals (λ v, push_new v ;; ret tt) s = (Ok tt, pushed s vals).
Proof.
  revert s. induction vals as [|v vals IH]; intros s.
  - unfold pushed. cbn. rewrite !app_nil_r. by destruct s.
  - cbn [forEach]. run_m. rewrite IH. unfold pushed. cbn [storage heap tasks taskMap trace].
    rewrite length_app. cbn [length seq].
    rewrite <- !app_assoc. cbn [app]. by rewrite Nat.add_1_r.
Qed.

Lemma deref_seq (h vals : list value) :
  map (deref (h ++ vals)) (seq (length h) (length vals)) = vals.
Proof.
  revert h. induction vals as [|v vals IH]; intros h; [done|].
  cbn [length seq map]. f_equal.
  - unfold deref. by rewrite list_lookup_middle.
  - specialize (IH (h ++ [v])). rewrite length_app, <- app_assoc in IH.
    cbn [length app] in IH. by rewrite Nat.add_1_r in IH.
Qed.

Lemma load_absent (s : state) :
  storage s !! "tasks" = None → loadFromLocalStorage s = (Ok false, s).
Proof. intros H. unfold loadFromLocalStorage. run_m. by rewrite H. Qed.

Lemma load_empty (s : state) :
  storage s !! "tasks" = Some EmptyString → loadFromLocalStorage s = (Ok false, s).
Proof. intros H. unfold loadFromLocalStorage. run_m. by rewrite H. Qed.

Lemma load_unparseable (s : state) (text : string) :
  storage s !! "tasks" = Some text → text ≠ EmptyString → JSON_parse text = None →
  loadFromLocalStorage s
  = (Ok false, logged s (EvConsoleError "SyntaxError: not valid JSON")).
Proof.
  intros H Hne Hp. unfold loadFromLocalStorage. run_m. rewrite H.
  apply String.eqb_neq in Hne. rewrite Hne. run_m. by rewrite Hp.
Qed.

Lemma load_not_array (s : state) (text : string) (v : value) :
  storage s !! "tasks" = Some text → JSON_parse text = Some v →
  (∀ vals, v ≠ VArr vals) →
  ∃ msg, loadFromLocalStorage s
         = (Ok false, logged (cleared s) (EvConsoleError msg)).
Proof.
  intros H Hp Hv. unfold loadFromLocalStorage. run_m. rewrite H.
  assert (String.eqb text EmptyString = false) as ->.
  { apply String.eqb_neq. intros ->. discriminate Hp. }
  run_m. rewrite Hp. run_m.
  destruct v as [| |b|n|t|vals|ps|]; try (by eexists); by destruct (Hv vals).
Qed.

Lemma load_array (s : state) (text : string) (vals : list value) :
  storage s !! "tasks" = Some text → JSON_parse text = Some (VArr vals) →
  ∃ r s1,
    refreshTaskMap (pushed (cleared s) vals) = (r, s1) ∧
    loadFromLocalStorage s
    = match r with
      | Ok _ => (Ok true, s1)
      | Throw msg => (Ok false, logged s1 (EvConsoleError msg))
      end.
Proof.
  intros H Hp. unfold loadFromLocalStorage. run_m. rewrite H.
  assert (String.eqb text EmptyString = false) as ->.
  { apply String.eqb_neq. intros ->. discriminate Hp. }
  run_m. rewrite Hp. run_m. unfold push_parsed.
  change (mkState (storage s) (heap s) [] (taskMap s) (trace s)) with (cleared s).
  rewrite push_all.
  destruct (refreshTaskMap (pushed (cleared s) vals)) as [r s1] eqn:E.
  exists r, s1. split; [done|]. by destruct r.
Qed.

(** What a successful load leaves: the sequence is, by value, the array
    parsed from the stored text. *)
Lemma load_true (s s1 : state) :
  loadFromLocalStorage s = (Ok true, s1) →
  ∃ text vals,
    storage s !! "tasks" = Some text ∧ JSON_parse text = Some (VArr vals) ∧
    task_values s1 = vals ∧ storage s1 = storage s ∧ trace s1 = trace s ∧
    readable s1 ∧ synced s1.
Proof.
  intros Hl. destruct (storage s !! "tasks") as [text|] eqn:Hs.
  2:{ rewrite load_absent in Hl by done. discriminate Hl. }
  destruct (String.eqb_spec text EmptyString) as [->|Hne].
  { rewrite load_empty in Hl by done. discriminate Hl. }
  destruct (JSON_parse text) as [v|] eqn:Hp.
  2:{ rewrite (load_unparseable s text) in Hl by done. discriminate Hl. }
  assert ((∃ vals, v = VArr vals) ∨ (∀ vals, v ≠ VArr vals)) as [[vals ->]|Hv].
  { destruct v; try (by right); left; by eexists. }
  2:{ destruct (load_not_array s text v Hs Hp Hv) as [msg E].
      rewrite E in Hl. discriminate Hl. }
  destruct (load_array s text vals Hs Hp) as (r & s1' & Hr & E).
  rewrite E in Hl. destruct r as [u|msg]; [|discriminate Hl].
  injection Hl as <-.
  destruct (refreshTaskMap_spec _ _ _ Hr) as (H1 & H2 & H3 & H4 & H5 & _).
  destruct (H5 u eq_refl) as [Hsy Hre].
  exists text, vals. do 2 (split; [done|]). split.
  - unfold task_values. rewrite H2, H3. cbn [pushed cleared heap tasks app].
    apply deref_seq.
  - by rewrite H1, H4.
Qed.

(** C10. When the stored text is valid JSON but not an array,
    [loadFromLocalStorage] returns [false] after it has emptied the
    sequence; the index is not rebuilt. *)
Theorem load_non_array_clears_tasks (s : state) (text : string) (v : value) :
  storage s !! "tasks" = Some text →
  JSON_parse text = Some v →
  (∀ vals, v ≠ VArr vals) →
  ∃ s',
    loadFromLocalStorage s = (Ok false, s') ∧
    tasks s' = [] ∧ task_values s' = [] ∧
    taskMap s' = taskMap s ∧ heap s' = heap s ∧ storage s' = storage s.
Proof.
  intros Hs Hp Hv. destruct (load_not_array s text v Hs Hp Hv) as [msg E].
  eexists. split; [exact E|]. by repeat split.
Qed.

Lemma load_non_array_clears_tasks_witness :
  let s := mkState {[ "tasks" := "1.5" ]}
             [VObj [("id", VNum 7)]] [0%nat] {[ "7" := 0%nat ]} [] in
  ∃ s',
    loadFromLocalStorage s = (Ok false, s') ∧
    tasks s' = [] ∧ task_values s' = [] ∧
    taskMap s' = taskMap s ∧ heap s' = heap s ∧ storage s' = storage s.
Proof.
  intros s.
  apply (load_non_array_clears_tasks s "1.5" (VFrac false 1 5)).
  - reflexivity.
  - vm_compute. reflexivity.
  - intros vals. discriminate.
Defined.

(** The same on a stored object, string and [null]. *)
Example load_object_clears_tasks :
  let s := mkState {[ "tasks" := "{" +:+ String dquote ("id" +:+ String dquote ":1}") ]}
             [VObj [("id", VNum 7)]] [0%nat] {[ "7" := 0%nat ]} [] in
  (loadFromLocalStorage s).1 = Ok false ∧ tasks (loadFromLocalStorage s).2 = [].
Proof. by vm_compute. Qed.

Example load_string_clears_tasks :
  let s := mkState {[ "tasks" := String dquote ("tasks" +:+ String dquote EmptyString) ]}
             [VObj [("id", VNum 7)]] [0%nat] {[ "7" := 0%nat ]} [] in
  (loadFromLocalStorage s).1 = Ok false ∧ tasks (loadFromLocalStorage s).2 = [].
Proof. by vm_compute. Qed.

Example load_null_clears_tasks :
  let s := mkState {[ "tasks" := "null" ]}
             [VObj [("id", VNum 7)]] [0%nat] {[ "7" := 0%nat ]} [] in
  (loadFromLocalStorage s).1 = Ok false ∧ tasks (loadFromLocalStorage s).2 = [].
Proof. by vm_compute. Qed.

Lemma valid_records_serializable (vals : list value) :
  Forall (λ v, valid_record v = true) vals → forallb serializable vals = true.
Proof.
  induction 1 as [|v vals Hv _ IH]; [done|]. cbn [forallb]. rewrite IH.
  destruct v; try done. unfold valid_record in Hv. by rewrite Hv.
Qed.

Lemma saveToLocalStorage_spec (now : Z) (s : state) :
  saveToLocalStorage now s
  = (Ok tt,
     mkState (<["lastSaved" := Number_toString now]>
                (<["tasks" := default "undefined" (JSON_stringify (VArr (task_values s)))]>
                   (storage s)))
             (heap s) (tasks s) (taskMap s) (trace s)).
Proof. reflexivity. Qed.

(** C6. Saving a sequence of valid records and then loading gives back,
    by value, the sequence that was saved, and the load returns [true]:
    the sequence comes back from the store alone, in whatever program
    state over the saved store the load runs, that of the next page load
    included. *)
Theorem save_then_load_roundtrip (now : Z) (s s0 : state) :
  Forall (λ v, valid_record v = true) (task_values s) →
  storage s0 = storage (saveToLocalStorage now s).2 →
  ∃ s2,
    loadFromLocalStorage s0 = (Ok true, s2) ∧
    task_values s2 = task_values s.
Proof.
  intros Hv Hst. rewrite saveToLocalStorage_spec in Hst. cbn [snd storage] in Hst.
  set (vals := task_values s) in *.
  destruct (JSON_parse_stringify (VArr vals)) as (text & Ht & Hne & Hp).
  { by apply valid_records_serializable. }
  rewrite Ht in Hst. cbn [default from_option id] in Hst.
  assert (storage s0 !! "tasks" = Some text) as Hs0.
  { rewrite Hst. by rewrite lookup_insert_ne, lookup_insert_eq. }
  destruct (load_array s0 text vals Hs0 Hp) as (r & s2 & Hr & E).
  destruct (refreshTaskMap_spec _ _ _ Hr) as (H1 & H2 & H3 & H4 & H5 & H6).
  assert (r = Ok tt) as ->.
  { apply H6. unfold readable. cbn [pushed cleared heap tasks app].
    apply Forall_forall. intros l Hl.
    assert (deref (heap s0 ++ vals) l ∈ vals) as Hin.
    { rewrite <- (deref_seq (heap s0) vals) at 2.
      apply list_elem_of_fmap. by exists l. }
    rewrite Forall_forall in Hv. specialize (Hv _ Hin).
    by destruct (deref (heap s0 ++ vals) l). }
  exists s2. split; [exact E|].
  unfold task_values at 1. rewrite H2, H3. cbn [pushed cleared heap tasks app].
  apply deref_seq.
Qed.

Lemma save_then_load_roundtrip_witness :
  let s := exec_all [OpAdd 5 6 sample_data; OpAdd 7 8 sample_data] (initial ∅) in
  (∃ s2,
     loadFromLocalStorage (initial (storage (saveToLocalStorage 9 s).2)) = (Ok true, s2) ∧
     task_values s2 = task_values s) ∧
  (∃ s2,
     loadFromLocalStorage
       (mkState (storage (saveToLocalStorage 9 s).2) [VNull; VStr "stale"] [1%nat; 0%nat]
                {[ "3" := 1%nat ]} []) = (Ok true, s2) ∧
     task_values s2 = task_values s).
Proof.
  intros s. split.
  - apply (save_then_load_roundtrip 9 s); [repeat constructor | reflexivity].
  - apply (save_then_load_roundtrip 9 s); [repeat constructor | reflexivity].
Defined.

(* ================================================================== *)
(** * C1 and C7: the load strategy *)
(* ================================================================== *)

Lemma forEach_keeps_state {A} (f : A → M unit) (xs : list A) :
  (∀ x s, (f x s).2 = s) → ∀ s, (forEach xs f s).2 = s.
Proof.
  intros Hf. induction xs as [|x xs IH]; intros s; [done|].
  cbn [forEach]. unfold bind. specialize (Hf x s).
  destruct (f x s) as [[u|e] s1]; cbn [snd] in *; subst; [apply IH | done].
Qed.

Lemma render_card_keeps_state (l : loc) (s : state) : (render_card l s).2 = s.
Proof.
  unfold render_card. run_m.
  destruct (get_prop (deref (heap s) l) "title"); [|done].
  destruct (get_prop (deref (heap s) l) "priority") as [[]|]; done.
Qed.

Lemma render_column_keeps_state (status : string) (s : state) :
  ((let* s0 := get_state in
    let* filtered := lift (filter_status (heap s0) (tasks s0) status) in
    forEach filtered render_card) s).2 = s.
Proof.
  run_m. destruct (filter_status (heap s) (tasks s) status) as [ls|e]; [|done].
  apply forEach_keeps_state, render_card_keeps_state.
Qed.

(** [renderTasks] touches nothing but the index and the trace, where a
    completed rendering leaves one event. *)
Lemma renderTasks_frame (s s' : state) (r : result unit) :
  renderTasks s = (r, s') →
  storage s' = storage s ∧ heap s' = heap s ∧ tasks s' = tasks s ∧
  ((∃ e, r = Throw e ∧ trace s' = trace s) ∨ (r = Ok tt ∧ trace s' = trace s ++ [EvRender])).
Proof.
  unfold renderTasks. unfold bind at 1.
  destruct (refreshTaskMap s) as [r0 s0] eqn:E0.
  destruct (refreshTaskMap_spec _ _ _ E0) as (H1 & H2 & H3 & H4 & _).
  destruct r0 as [u|e].
  2:{ intros [= <- <-]. do 3 (split; [done|]). left. by exists e. }
  unfold bind at 1.
  pose proof (forEach_keeps_state _ ["todo"; "doing"; "done"]
                (λ status, render_column_keeps_state status) s0) as Hk.
  match goal with |- context [forEach ?xs ?f s0] =>
    change (forEach xs f s0) with
      (forEach ["todo"; "doing"; "done"]
         (λ status, let* s1 := get_state in
                    let* filtered := lift (filter_status (heap s1) (tasks s1) status) in
                    forEach filtered render_card) s0);
    destruct (forEach ["todo"; "doing"; "done"]
         (λ status, let* s1 := get_state in
                    let* filtered := lift (filter_status (heap s1) (tasks s1) status) in
                    forEach filtered render_card) s0) as [[u'|e] s1] end;
    cbn [snd] in Hk; subst s1.
  - unfold log. intros [= <- <-]. cbn [storage heap tasks trace].
    do 3 (split; [done|]). right. by rewrite H4.
  - intros [= <- <-]. do 3 (split; [done|]). left. by exists e.
Qed.

(** C1. In a run whose local load succeeds and finds unsaved changes,
    the remote fetch is not called, and the sequence at the end of the
    run is, by value, the array parsed from the stored text. *)
Theorem unsaved_local_data_skips_fetch (net : http) (s s1 : state) :
  loadFromLocalStorage s = (Ok true, s1) →
  hasUnsavedChanges (storage s1) = true →
  ∃ r s' evs text vals,
    loadTasks net s = (r, s') ∧
    run_events s s' evs ∧ (EvFetch ∉ evs) ∧
    storage s !! "tasks" = Some text ∧ JSON_parse text = Some (VArr vals) ∧
    task_values s' = vals.
Proof.
  intros Hl Hu.
  destruct (load_true s s1 Hl) as (text & vals & Hs & Hp & Hv & Hst & Htr & _ & _).
  unfold loadTasks. unfold bind at 1. rewrite Hl. unfold bind at 1. unfold bind at 1.
  destruct (renderTasks s1) as [r s2] eqn:Er.
  destruct (renderTasks_frame _ _ _ Er) as (H1 & H2 & H3 & [(e & -> & H4)|[-> H4]]).
  - exists (Throw e), s2, [], text, vals. split; [done|].
    split; [unfold run_events; by rewrite H4, Htr, app_nil_r|].
    split; [apply not_elem_of_nil|]. do 2 (split; [done|]).
    unfold task_values in *. by rewrite H2, H3.
  - unfold updateDataStatus. run_m. rewrite H1, Hu. run_m.
    eexists (Ok tt), _, _, text, vals. split; [reflexivity|].
    split; [unfold run_events; cbn [trace]; rewrite H4, Htr, <- !app_assoc; reflexivity|].
    split.
    + cbn [app]. intros Hin. repeat (apply elem_of_cons in Hin as [Hin|Hin]; [discriminate Hin|]).
      by apply elem_of_nil in Hin.
    + do 2 (split; [done|]). unfold task_values in *. cbn [heap tasks]. by rewrite H2, H3.
Qed.

Lemma unsaved_local_data_skips_fetch_witness :
  ∃ r s' evs text vals,
    loadTasks scenario_remote (initial (scenario_store "1500")) = (r, s') ∧
    run_events (initial (scenario_store "1500")) s' evs ∧ (EvFetch ∉ evs) ∧
    scenario_store "1500" !! "tasks" = Some text ∧
    JSON_parse text = Some (VArr vals) ∧
    task_values s' = vals.
Proof.
  eapply (unsaved_local_data_skips_fetch _ (initial (scenario_store "1500"))).
  - vm_compute. reflexivity.
  - vm_compute. reflexivity.
Defined.

(** The scenarios of the specification, run. *)
Example scenario_unsaved_changes :
  let run := loadTasks scenario_remote (initial (scenario_store "1500")) in
  run.1 = Ok tt ∧ task_values run.2 = [scenario_record] ∧
  trace run.2 = [EvRender;
                 EvStatus "local" "Loaded from local storage";
                 EvConsoleLog "Local changes detected, keeping local data";
                 EvStatus "local" "Using local data (unsaved changes)"].
Proof. by vm_compute. Qed.

Example scenario_synced :
  let run := loadTasks scenario_remote (initial (scenario_store "500")) in
  run.1 = Ok tt ∧
  task_values run.2 = [VObj [("id", VNum 2); ("title", VStr "B");
                             ("status", VStr "doing"); ("priority", VStr "high")]] ∧
  last (trace run.2) = Some (EvStatus "api" "Synced with server").
Proof. by vm_compute. Qed.

(** A stored record without a [priority] stops the run inside
    [renderTasks], before the check for unsaved changes. *)
Example scenario_record_without_priority :
  let st : gmap string string :=
    {[ "tasks" := default "" (JSON_stringify (VArr [VObj [("id", VNum 1);
                    ("title", VStr "A"); ("status", VStr "todo")]]));
       "lastSaved" := "1000"; "lastModified" := "1500" ]} in
  let run := loadTasks scenario_remote (initial st) in
  run.1 = Throw "TypeError: task.priority.toUpperCase is not callable" ∧
  trace run.2 = [].
Proof. by vm_compute. Qed.

Lemma loadTasksFromAPI_fails (net : http) (cause : string) (s : state) :
  fetch_cause net = Some cause →
  loadTasksFromAPI net s
  = (Throw (fetch_failed cause),
     mkState (storage s) (heap s) (tasks s) (taskMap s)
       (trace s ++ [EvFetch; EvConsoleError cause; EvConsoleError (fetch_failed cause)])).
Proof.
  intros Hc. unfold loadTasksFromAPI, fetchTasks.
  destruct net as [msg|ok status body]; cbn [fetch_cause] in Hc.
  - injection Hc as ->. run_m. by rewrite <- !app_assoc.
  - destruct ok; cbn [negb] in *.
    + destruct body as [v|msg]; [done|]. injection Hc as ->. run_m.
      by rewrite <- !app_assoc.
    + injection Hc as <-. run_m. by rewrite <- !app_assoc.
Qed.


(** The elements pushed from a parsed array are readable exactly when
    none of them is [null] or [undefined]. *)
Lemma readable_pushed (s : state) (vals : list value) :
  readable (pushed (cleared s) vals) ↔ Forall (λ v, nullish v = false) vals.
Proof.
  unfold readable. cbn [pushed cleared heap tasks app].
  rewrite <- (deref_seq (heap s) vals) at 2.
  change (map ?f ?l) with (f <$> l). by rewrite Forall_fmap.
Qed.





(* ================================================================== *)
(** * C8 and C3: unsaved changes *)
(* ================================================================== *)

Lemma editTask_true_storage (now_mod taskId : Z) (updates : value) (s : state) :
  (editTask now_mod taskId updates s).1 = Ok true →
  storage (editTask now_mod taskId updates s).2 = stamped (storage s) now_mod.
Proof.
  destruct (nullish updates) eqn:Hn.
  { destruct updates; try done; unfold editTask, updateTask; cbn [get_prop]; run_m; done. }
  destruct (taskMap s !! Number_toString taskId) as [l|] eqn:Hk.
  2:{ rewrite editTask_absent by done. done. }
  destruct (deref (heap s) l) as [| |b|n|t|els|ps|] eqn:Hc.
  7:{ by rewrite (editTask_found _ _ _ _ l ps). }
  all: unfold editTask, updateTask, set_prop;
       rewrite !(get_prop_field updates) by done;
       repeat (run_m; cbn [truthy negb get_prop get_field String.eqb Ascii.eqb Bool.eqb];
               rewrite ?Hk, ?Hc);
       try done.
  - destruct b; repeat (run_m; rewrite ?Hc); done.
  - destruct (n =? 0); repeat (run_m; rewrite ?Hc); done.
  - destruct (String.eqb t ""); repeat (run_m; rewrite ?Hc); done.
Qed.

(** A call that changed the collection wrote its clock reading under
    [lastModified] and nothing else to the store. *)
Lemma mutated_storage (o : op) (s : state) :
  mutated o s = true → storage (exec o s) = stamped (storage s) (op_time o).
Proof.
  destruct o as [now_id now_mod td|now_mod taskId u|now_mod taskId];
    cbn [mutated exec op_time].
  - destruct (nullish td) eqn:Hn.
    + destruct (addTask_throws now_id now_mod td s Hn) as [msg ->]. done.
    + by rewrite addTask_ok.
  - intros H. apply editTask_true_storage.
    by destruct (editTask now_mod taskId u s).1 as [[]|].
  - pose proof (deleteTask_cases now_mod taskId s) as Hc. cbv zeta in Hc.
    destruct (findIndex (heap s) (tasks s) taskId 0) as [[i|]|msg];
      rewrite Hc; done.
Qed.

Lemma hasUnsavedChanges_never_saved (st : gmap string string) :
  st !! "lastSaved" = None → hasUnsavedChanges st = false.
Proof. intros H. unfold hasUnsavedChanges, getLastSavedTime. by rewrite H. Qed.

Lemma hasUnsavedChanges_stamps (st : gmap string string) (saved modified : Z) :
  st !! "lastSaved" = Some (Number_toString saved) →
  st !! "lastModified" = Some (Number_toString modified) →
  saved ≠ 0 →
  hasUnsavedChanges st = bool_decide (saved < modified).
Proof.
  intros Hs Hm Hne. apply eq_true_iff_eq. rewrite hasUnsavedChanges_true, bool_decide_eq_true.
  split.
  - intros (s' & m' & a & b & Hs' & Hm' & Ha & Hb & _ & Hlt).
    rewrite Hs in Hs'. rewrite Hm in Hm'. injection Hs' as <-. injection Hm' as <-.
    rewrite parseInt_toString in Ha, Hb. by simplify_eq.
  - intros Hlt. exists (Number_toString saved), (Number_toString modified), saved, modified.
    by rewrite !parseInt_toString.
Qed.

(** C8 (as amended). [hasUnsavedChanges] is [false] when both stamps
    are absent. Right after a call that changed the collection at clock
    reading [t] it is [false] if nothing was ever saved, and otherwise,
    for a [lastSaved] of non-zero integer value [a], it is [true]
    exactly when [a < t]. Right after [saveToLocalStorage] at clock
    reading [t] it is [false] when [lastModified] is absent or holds an
    integer that is at most [t]. *)
Theorem unsaved_changes_follow_stamps :
  (∀ st : gmap string string,
     st !! "lastSaved" = None → st !! "lastModified" = None →
     hasUnsavedChanges st = false) ∧
  (∀ o s, mutated o s = true →
     (storage s !! "lastSaved" = None →
      hasUnsavedChanges (storage (exec o s)) = false) ∧
     (∀ saved a, storage s !! "lastSaved" = Some saved →
        parseInt saved = Some a → a ≠ 0 →
        (hasUnsavedChanges (storage (exec o s)) = true ↔ a < op_time o))) ∧
  (∀ now s,
     (storage s !! "lastModified" = None ∨
      ∃ modified b, storage s !! "lastModified" = Some modified ∧
                    parseInt modified = Some b ∧ b ≤ now) →
     hasUnsavedChanges (storage (saveToLocalStorage now s).2) = false).
Proof.
  split; [|split].
  - intros st Hs _. by apply hasUnsavedChanges_never_saved.
  - intros o s Hm. rewrite (mutated_storage o s Hm). unfold stamped. split.
    + intros Hs. apply hasUnsavedChanges_never_saved. by rewrite lookup_insert_ne.
    + intros saved a Hs Ha Hne. rewrite hasUnsavedChanges_true. split.
      * intros (s' & m' & a' & b & Hs' & Hm' & Ha' & Hb & _ & Hlt).
        rewrite lookup_insert_ne, Hs in Hs' by done. injection Hs' as <-.
        rewrite lookup_insert_eq in Hm'. injection Hm' as <-.
        rewrite parseInt_toString in Hb. by simplify_eq.
      * intros Hlt. exists saved, (Number_toString (op_time o)), a, (op_time o).
        rewrite lookup_insert_ne, lookup_insert_eq, parseInt_toString by done. done.
  - intros now s Hm. rewrite saveToLocalStorage_spec. cbn [snd storage].
    apply not_true_is_false. rewrite hasUnsavedChanges_true.
    intros (s' & m' & a & b & Hs' & Hm' & Ha & Hb & _ & Hlt).
    rewrite lookup_insert_eq in Hs'. injection Hs' as <-.
    rewrite parseInt_toString in Ha. injection Ha as <-.
    rewrite !lookup_insert_ne in Hm' by done.
    destruct Hm as [Hm|(m & b' & Hm & Hb' & Hle)]; rewrite Hm in Hm'; [done|].
    injection Hm' as <-. rewrite Hb in Hb'. injection Hb' as <-. lia.
Qed.

Lemma unsaved_changes_follow_stamps_witness :
  hasUnsavedChanges (∅ : gmap string string) = false ∧
  (let s := (saveToLocalStorage 1000 (initial ∅)).2 in
   hasUnsavedChanges (storage (exec (OpAdd 1500 1501 sample_data) s)) = true) ∧
  (let s := exec (OpAdd 1500 1501 sample_data) (initial ∅) in
   hasUnsavedChanges (storage (saveToLocalStorage 1502 s).2) = false).
Proof.
  destruct unsaved_changes_follow_stamps as (H1 & H2 & H3).
  split; [|split].
  - apply H1; reflexivity.
  - cbv zeta.
    destruct (H2 (OpAdd 1500 1501 sample_data) (saveToLocalStorage 1000 (initial ∅)).2)
      as [_ Hb]; [reflexivity|].
    apply (Hb "1000" 1000); [reflexivity | reflexivity | lia | cbn; lia].
  - cbv zeta. apply H3. right. exists "1501", 1501.
    split; [reflexivity|]. split; [reflexivity|lia].
Defined.

(** C8, as stated, fails: after a mutation that no save follows,
    [hasUnsavedChanges] is [false] when nothing was ever saved. *)
Lemma no_unsaved_changes_before_first_save :
  let o := OpAdd 1500 1501 sample_data in
  mutated o (initial ∅) = true ∧
  storage (exec o (initial ∅)) !! "lastModified" = Some "1501" ∧
  hasUnsavedChanges (storage (exec o (initial ∅))) = false.
Proof. by vm_compute. Qed.

(** C3 at the failing input: both stamps are present, the integer value
    of [lastModified] is greater than that of [lastSaved], and
    [hasUnsavedChanges] answers [false], because a [lastSaved] of 0 is
    falsy in [!lastSaved]. *)
Theorem hasUnsavedChanges_zero_lastSaved :
  let st : gmap string string := {[ "lastSaved" := "0"; "lastModified" := "1" ]} in
  st !! "lastSaved" = Some "0" ∧ st !! "lastModified" = Some "1" ∧
  parseInt "0" = Some 0 ∧ parseInt "1" = Some 1 ∧
  hasUnsavedChanges st = false.
Proof. by vm_compute. Qed.

(* ================================================================== *)
(** * tasks.js: deleting and editing *)
(* ================================================================== *)

(** Reading a property after an assignment. *)
Lemma get_field_set_field (ps : list (string * value)) (k k' : string) (v : value) :
  get_field (set_field ps k v) k' = if String.eqb k k' then v else get_field ps k'.
Proof.
  induction ps as [|[k0 v0] r IH]; cbn.
  - by destruct (String.eqb k k').
  - destruct (String.eqb k0 k) eqn:E0; cbn.
    + apply String.eqb_eq in E0 as ->. by destruct (String.eqb k k').
    + rewrite IH. destruct (String.eqb k0 k') eqn:E1; [|done].
      apply String.eqb_eq in E1 as ->. by rewrite String.eqb_sym, E0.
Qed.

(** On readable records [findIndex] returns the position of the first
    record with the id, counted from [n]. *)
Lemma findIndex_first (h : list value) (ts : list loc) (taskId : Z) (n : nat) :
  Forall (λ l, nullish (deref h l) = false) ts →
  match list_find (λ l, carries h taskId l = true) ts with
  | Some (i, _) => findIndex h ts taskId n = Ok (Some (n + i)%nat)
  | None => findIndex h ts taskId n = Ok None
  end.
Proof.
  intros Hr. revert n. induction Hr as [|l r Hl Hr IH]; intros n; [done|].
  cbn [findIndex list_find].
  destruct (decide (carries h taskId l = true)) as [Hc|Hc]; unfold carries in Hc;
    (destruct (get_prop (deref h l) "id") as [id|e] eqn:Eid;
       [|by destruct (deref h l)]).
  - rewrite Hc. cbn. by rewrite Nat.add_0_r.
  - apply not_true_is_false in Hc. rewrite Hc.
    specialize (IH (S n)). destruct (list_find _ r) as [[i x]|]; cbn; [|done].
    rewrite IH. do 2 f_equal. lia.
Qed.

(** Only an object has an [id] that is strictly equal to a Number. *)
Lemma carries_object (h : list value) (taskId : Z) (l : loc) :
  carries h taskId l = true →
  ∃ ps, deref h l = VObj ps ∧ get_field ps "id" = VNum taskId.
Proof.
  unfold carries. destruct (deref h l) as [| | | | | |ps|]; try done. cbn.
  intros H. exists ps. split; [done|].
  destruct (get_field ps "id"); try done. cbn in H. apply Z.eqb_eq in H. by subst.
Qed.

(** X1. tasks.js, [deleteTask] on an id some record carries: the first such
    record leaves the sequence, which gets shorter by exactly one; the
    key of the id leaves the index and no other key changes; the records
    themselves stay as they are and the collection is flagged as
    modified. *)
Theorem deleteTask_removes_first_match (now_mod taskId : Z) (s : state) :
  readable s →
  (∃ l, l ∈ tasks s ∧ carries (heap s) taskId l = true) →
  ∃ i l s',
    deleteTask now_mod taskId s = (Ok true, s') ∧
    tasks s !! i = Some l ∧ carries (heap s) taskId l = true ∧
    (∀ j l', (j < i)%nat → tasks s !! j = Some l' →
             carries (heap s) taskId l' = false) ∧
    tasks s' = delete i (tasks s) ∧
    S (length (tasks s')) = length (tasks s) ∧
    taskMap s' !! Number_toString taskId = None ∧
    (∀ k, k ≠ Number_toString taskId → taskMap s' !! k = taskMap s !! k) ∧
    heap s' = heap s ∧
    storage s' = stamped (storage s) now_mod ∧
    trace s' = trace s ++ [EvDeleteTaskAPI taskId].
Proof.
  intros Hr (l0 & Hin & Hc).
  pose proof (findIndex_first (heap s) (tasks s) taskId 0 Hr) as Hf.
  pose proof (deleteTask_cases now_mod taskId s) as Hd. cbv zeta in Hd.
  destruct (list_find _ (tasks s)) as [[i l]|] eqn:E.
  - apply list_find_Some in E as (Hi & Hl & Hbefore).
    rewrite Hf in Hd. cbn [Nat.add] in Hd.
    eexists i, l, _. split; [exact Hd|]. cbn [tasks taskMap heap storage trace].
    split; [done|]. split; [done|]. split.
    { intros j l' Hj Hl'. apply not_true_iff_false. by eapply Hbefore. }
    split; [done|]. split.
    { rewrite length_delete by (by rewrite Hi). apply lookup_lt_Some in Hi. lia. }
    split; [apply lookup_delete_eq|].
    split; [intros k Hk; by rewrite lookup_delete_ne|]. done.
  - apply list_find_None in E. rewrite Forall_forall in E. by destruct (E l0 Hin).
Qed.

(** [deleteTask_removes_first_match] at a concrete input. *)
Lemma deleteTask_removes_first_match_witness :
  ∃ i l s',
    deleteTask 8 5 (exec_all [OpAdd 5 6 sample_data; OpAdd 5 7 sample_data] (initial ∅))
    = (Ok true, s') ∧
    i = 0%nat ∧ l = 0%nat ∧ tasks s' = [1%nat] ∧
    taskMap s' !! "5" = None.
Proof.
  destruct (deleteTask_removes_first_match 8 5
              (exec_all [OpAdd 5 6 sample_data; OpAdd 5 7 sample_data] (initial ∅)))
    as (i & l & s' & Hd & Hi & Hc & Hb & Ht & _ & Hm & _).
  - vm_compute. repeat constructor.
  - exists 0%nat. split; [vm_compute; left | reflexivity].
  - exists i, l, s'. split; [exact Hd|].
    assert (i = 0%nat) as ->.
    { destruct i as [|i]; [done|].
      exfalso. by specialize (Hb 0%nat 0%nat ltac:(lia) eq_refl). }
    split; [done|]. split; [by injection Hi|]. split; [by rewrite Ht | exact Hm].
Defined.

(** X2. tasks.js, [deleteTask] on an id no record carries: the call returns
    [false] after the delete stub was called, and neither the sequence,
    nor the index, nor the store changes. *)
Theorem deleteTask_absent_id_returns_false (now_mod taskId : Z) (s : state) :
  readable s →
  (∀ l, l ∈ tasks s → carries (heap s) taskId l = false) →
  deleteTask now_mod taskId s = (Ok false, logged s (EvDeleteTaskAPI taskId)).
Proof.
  intros Hr Hno.
  pose proof (findIndex_first (heap s) (tasks s) taskId 0 Hr) as Hf.
  pose proof (deleteTask_cases now_mod taskId s) as Hd. cbv zeta in Hd.
  destruct (list_find _ (tasks s)) as [[i l]|] eqn:E.
  - apply list_find_Some in E as (Hi & Hl & _).
    apply list_elem_of_lookup_2 in Hi. by rewrite (Hno l Hi) in Hl.
  - by rewrite Hf in Hd.
Qed.

(** [deleteTask_absent_id_returns_false] at a concrete input. *)
Lemma deleteTask_absent_id_returns_false_witness :
  let s := exec (OpAdd 5 6 sample_data) (initial ∅) in
  deleteTask 8 42 s = (Ok false, logged s (EvDeleteTaskAPI 42)).
Proof.
  cbv zeta. apply deleteTask_absent_id_returns_false.
  - vm_compute. repeat constructor.
  - intros l Hl. vm_compute in Hl. apply list_elem_of_singleton in Hl as ->. reflexivity.
Defined.

(** X3. tasks.js, [editTask] on an indexed id: the title, the description and
    the status of the indexed record are overwritten in place with those
    of the updates; every other property of the record (its id, its
    priority) keeps its value, whatever the updates hold; no other record,
    the sequence and the index do not change. *)
Theorem editTask_overwrites_three_fields
    (now_mod taskId : Z) (fields : list (string * value)) (s : state) (l : loc) :
  synced s →
  taskMap s !! Number_toString taskId = Some l →
  ∃ ps ps' s',
    deref (heap s) l = VObj ps ∧
    editTask now_mod taskId (VObj fields) s = (Ok true, s') ∧
    deref (heap s') l = VObj ps' ∧
    get_field ps' "title" = get_field fields "title" ∧
    get_field ps' "description" = get_field fields "description" ∧
    get_field ps' "status" = get_field fields "status" ∧
    (∀ k, k ∉ ["title"; "description"; "status"] →
          get_field ps' k = get_field ps k) ∧
    (∀ l', l' ≠ l → deref (heap s') l' = deref (heap s) l') ∧
    tasks s' = tasks s ∧ taskMap s' = taskMap s ∧
    storage s' = stamped (storage s) now_mod ∧
    trace s' = trace s ++ [EvUpdateTaskAPI taskId (VObj fields)].
Proof.
  intros Hs Hl. destruct (index_sound s taskId l Hs Hl) as [ps Hps].
  exists ps, (edited ps (VObj fields)). eexists. split; [done|].
  split; [by apply editTask_found|]. cbn [heap tasks taskMap storage trace].
  split; [by eapply deref_insert_same|].
  unfold edited. rewrite !get_field_set_field. cbn.
  split; [done|]. split; [done|]. split; [done|]. split.
  { intros k Hk. rewrite !get_field_set_field.
    destruct (String.eqb "status" k) eqn:E1;
      [apply String.eqb_eq in E1 as <-; exfalso; apply Hk; set_solver|].
    destruct (String.eqb "description" k) eqn:E2;
      [apply String.eqb_eq in E2 as <-; exfalso; apply Hk; set_solver|].
    destruct (String.eqb "title" k) eqn:E3;
      [apply String.eqb_eq in E3 as <-; exfalso; apply Hk; set_solver|].
    done. }
  split; [intros l' Hne; by apply deref_insert_ne|]. done.
Qed.

(** [editTask_overwrites_three_fields] at a concrete input. *)
Lemma editTask_overwrites_three_fields_witness :
  ∃ ps ps' s',
    deref (heap (exec (OpAdd 5 6 sample_data) (initial ∅))) 0%nat = VObj ps ∧
    editTask 9 5 (VObj [("title", VStr "B"); ("priority", VStr "low")])
      (exec (OpAdd 5 6 sample_data) (initial ∅)) = (Ok true, s') ∧
    deref (heap s') 0%nat = VObj ps' ∧
    get_field ps' "title" = VStr "B" ∧
    get_field ps' "description" = VUndef ∧
    get_field ps' "priority" = get_field ps "priority" ∧
    get_field ps' "id" = VNum 5.
Proof.
  destruct (editTask_overwrites_three_fields 9 5
              [("title", VStr "B"); ("priority", VStr "low")]
              (exec (OpAdd 5 6 sample_data) (initial ∅)) 0%nat)
    as (ps & ps' & s' & Hps & He & Hps' & Ht & Hd & _ & Hk & _).
  - reflexivity.
  - reflexivity.
  - exists ps, ps', s'. split; [exact Hps|]. split; [exact He|]. split; [exact Hps'|].
    split; [exact Ht|]. split; [exact Hd|].
    assert (∀ k : string, k ≠ "title" → k ≠ "description" → k ≠ "status" →
                          k ∉ ["title"; "description"; "status"]) as Hout.
    { intros k H1 H2 H3. rewrite !not_elem_of_cons. repeat split; try done.
      apply not_elem_of_nil. }
    split; [by apply Hk, Hout|].
    rewrite Hk by (by apply Hout). vm_compute in Hps. by injection Hps as <-.
Defined.

(* ------------------------------------------------------------------ *)
(** ** The index after a rebuild and under unique ids *)

(** Two states with the same components are the same state. *)
Lemma state_eq (s s' : state) :
  storage s' = storage s → heap s' = heap s → tasks s' = tasks s →
  taskMap s' = taskMap s → trace s' = trace s → s' = s.
Proof. destruct s, s'. cbn. by intros -> -> -> -> ->. Qed.

(** In the derived index every key is the key of a record of the
    sequence. *)
Lemma indexed_in_sequence (s : state) (k : string) (l : loc) :
  synced s → taskMap s !! k = Some l →
  l ∈ tasks s ∧ record_key (heap s) l = k.
Proof.
  intros Hs Hl. rewrite Hs, derived_index_lookup in Hl.
  apply last_Some_elem_of, list_elem_of_filter in Hl. tauto.
Qed.

(** X4. tasks.js, [refreshTaskMap] drops every stale key: after a completed
    call each key of the index is the key of a record of the sequence,
    and it holds that record's location; a second call changes
    nothing. *)
Theorem refreshTaskMap_drops_stale_entries (s s1 : state) (u : unit) :
  refreshTaskMap s = (Ok u, s1) →
  (∀ k l, taskMap s1 !! k = Some l →
          l ∈ tasks s1 ∧ record_key (heap s1) l = k) ∧
  refreshTaskMap s1 = (Ok tt, s1).
Proof.
  intros E.
  destruct (refreshTaskMap_spec s s1 _ E) as (_ & _ & _ & _ & Hok & _).
  destruct (Hok u eq_refl) as [Hsy Hr]. split.
  - intros k l Hl. by apply indexed_in_sequence.
  - destruct (refreshTaskMap s1) as [r s2] eqn:E2.
    destruct (refreshTaskMap_spec s1 s2 _ E2) as (Hst & Hh & Ht & Htr & Hok2 & Hrd).
    rewrite (Hrd Hr) in *. destruct (Hok2 tt eq_refl) as [Hsy2 _].
    f_equal. apply state_eq; try done.
    unfold synced in *. by rewrite Hsy2, Hsy, Hh, Ht.
Qed.

(** [refreshTaskMap_drops_stale_entries] at a concrete input. *)
Lemma refreshTaskMap_drops_stale_entries_witness :
  let s := mkState ∅ [VObj [("id", VNum 7)]] [0%nat] {[ "3" := 5%nat ]} [] in
  ∃ s1, refreshTaskMap s = (Ok tt, s1) ∧
        taskMap s1 !! "3" = None ∧ taskMap s1 !! "7" = Some 0%nat ∧
        refreshTaskMap s1 = (Ok tt, s1).
Proof.
  cbv zeta. eexists. split; [reflexivity|]. split; [reflexivity|].
  split; [reflexivity|].
  eapply (refreshTaskMap_drops_stale_entries
            (mkState ∅ [VObj [("id", VNum 7)]] [0%nat] {[ "3" := 5%nat ]} []) _ tt).
  reflexivity.
Defined.

(** X5. tasks.js, with the ids of the task records unique: when no two
    records of the sequence share an id and every [addTask] of a run
    fabricates an id no record carries at that moment, then after the
    run the ids are still unique, the index is the derived one and every
    element of the sequence is a readable record. *)
Theorem fresh_ids_stay_unique (ops : list op) (s : state) :
  readable s → synced s → NoDup (keys s) → fresh_ids ops s = true →
  NoDup (keys (exec_all ops s)) ∧ synced (exec_all ops s) ∧
  readable (exec_all ops s).
Proof.
  revert s. induction ops as [|o ops IH]; intros s Hr Hs Hnd Hf; [done|].
  cbn [fresh_ids] in Hf. apply andb_prop in Hf as [Ho Hf].
  assert (match o with
          | OpDelete _ taskId => (occurrences s taskId ≤ 1)%nat
          | _ => True
          end) as Hocc.
  { destruct o; try done. by apply occurrences_NoDup. }
  destruct (exec_preserves o s Hr Hs Hocc) as [Hr' Hs'].
  change (exec_all (o :: ops) s) with (exec_all ops (exec o s)).
  apply IH; try done. apply exec_keeps_ids_unique; try done.
  destruct o; try done. apply orb_prop in Ho as [Ho|Ho]; [by left|right].
  by apply bool_decide_eq_true in Ho.
Qed.

(** [fresh_ids_stay_unique] at a concrete input. *)
Lemma fresh_ids_stay_unique_witness :
  let s := exec_all [OpAdd 5 6 sample_data; OpAdd 7 8 sample_data;
                     OpEdit 9 5 sample_data; OpDelete 10 5] (initial ∅) in
  NoDup (keys s) ∧ synced s ∧ readable s.
Proof.
  cbv zeta. apply fresh_ids_stay_unique.
  - constructor.
  - reflexivity.
  - constructor.
  - by vm_compute.
Defined.

(* ================================================================== *)
(** * ui.js: rendering *)
(* ================================================================== *)

(** On readable records [filter] does not throw. *)
Lemma filter_status_readable (h : list value) (ts : list loc) (status : string) :
  Forall (λ l, nullish (deref h l) = false) ts →
  filter_status h ts status
  = Ok (filter (λ l, has_status (deref h l) status = true) ts).
Proof.
  induction 1 as [|l r Hl Hr IH]; [done|].
  cbn [filter_status]. rewrite IH, filter_cons. unfold has_status.
  destruct (deref h l) as [| | | | | |ps|]; try done; cbn.
  destruct (get_field ps "status") as [| | | |x| | |]; try done.
  by destruct (String.eqb x status).
Qed.

(** A card is drawn exactly when the priority is a string. *)
Lemma render_card_readable (l : loc) (s : state) :
  nullish (deref (heap s) l) = false →
  render_card l s
  = (if has_priority (deref (heap s) l) then Ok tt
     else Throw "TypeError: task.priority.toUpperCase is not callable", s).
Proof.
  intros Hl. unfold render_card, has_priority. run_m.
  destruct (deref (heap s) l) as [| | | | | |ps|]; try done; cbn.
  by destruct (get_field ps "priority").
Qed.

(** Drawing the cards of a column stops at the first card without a
    string priority. *)
Lemma render_cards (ls : list loc) (s : state) :
  Forall (λ l, nullish (deref (heap s) l) = false) ls →
  ∃ r, forEach ls render_card s = (r, s) ∧
       (r = Ok tt ↔ Forall (λ l, has_priority (deref (heap s) l) = true) ls) ∧
       (r = Ok tt ∨ r = Throw "TypeError: task.priority.toUpperCase is not callable").
Proof.
  induction 1 as [|l r Hl Hr (res & IH & Hiff & Hres)].
  - exists (Ok tt). split; [done|]. split; [|by left].
    split; [intros _; constructor|done].
  - cbn [forEach]. unfold bind. rewrite render_card_readable by done.
    destruct (has_priority (deref (heap s) l)) eqn:E.
    + exists res. split; [done|]. split; [|done].
      rewrite Hiff. split; [by constructor|]. by inversion 1.
    + eexists. split; [done|]. split; [|by right].
      split; [done|]. inversion 1; congruence.
Qed.

(** One column is drawn exactly when each of its records has a string
    priority. *)
Lemma render_column_spec (status : string) (s : state) :
  readable s →
  ∃ r, render_column status s = (r, s) ∧
       (r = Ok tt ↔
        Forall (λ l, has_status (deref (heap s) l) status = true →
                     has_priority (deref (heap s) l) = true) (tasks s)) ∧
       (r = Ok tt ∨ r = Throw "TypeError: task.priority.toUpperCase is not callable").
Proof.
  intros Hr. unfold render_column. run_m.
  rewrite filter_status_readable by done.
  destruct (render_cards (filter (λ l, has_status (deref (heap s) l) status = true) (tasks s)) s)
    as (r & Hrun & Hiff & Hres).
  { apply Forall_forall. intros l [_ Hl]%list_elem_of_filter.
    unfold readable in Hr. rewrite Forall_forall in Hr. by apply Hr. }
  exists r. split; [done|]. split; [|done]. rewrite Hiff, !Forall_forall. split.
  - intros H l Hl Hst. apply H. by apply list_elem_of_filter.
  - intros H l [Hst Hl]%list_elem_of_filter. by apply H.
Qed.

(** [card_ok], column by column. *)
Lemma card_ok_columns (v : value) :
  card_ok v = true ↔
  (has_status v "todo" = true → has_priority v = true) ∧
  (has_status v "doing" = true → has_priority v = true) ∧
  (has_status v "done" = true → has_priority v = true).
Proof.
  unfold card_ok, in_column, has_status.
  destruct (get_prop v "status") as [[| | | |x| | |]|]; cbn; try (split; [done|auto]).
  destruct (has_priority v); [rewrite orb_true_r; split; done|].
  rewrite orb_false_r.
  destruct (String.eqb x "todo"), (String.eqb x "doing"), (String.eqb x "done");
    cbn; split; try done; intros (H1 & H2 & H3); auto.
Qed.

(** [renderTasks], with the loop over the three statuses unrolled. *)
Lemma renderTasks_columns (s : state) :
  renderTasks s
  = (refreshTaskMap ;;
     render_column "todo" ;; render_column "doing" ;; render_column "done" ;;
     log EvRender) s.
Proof.
  unfold renderTasks.
  change (forEach ["todo"; "doing"; "done"] _)
    with (forEach ["todo"; "doing"; "done"] render_column).
  cbn [forEach]. unfold bind, ret.
  destruct (refreshTaskMap s) as [[u|e] s0]; [|done].
  destruct (render_column "todo" s0) as [[[]|] s1]; [|done].
  destruct (render_column "doing" s1) as [[[]|] s2]; [|done].
  by destruct (render_column "done" s2) as [[[]|] s3].
Qed.

(** What [renderTasks] does on a sequence of readable records: the index
    is rebuilt, and the call completes exactly when every card can be
    drawn. *)
Lemma renderTasks_readable (s : state) :
  readable s →
  ∃ r s0,
    renderTasks s = (r, match r with Ok _ => logged s0 EvRender | Throw _ => s0 end) ∧
    storage s0 = storage s ∧ heap s0 = heap s ∧ tasks s0 = tasks s ∧
    trace s0 = trace s ∧ synced s0 ∧
    (r = Ok tt ↔ renderable s) ∧
    (r = Ok tt ∨ r = Throw "TypeError: task.priority.toUpperCase is not callable").
Proof.
  intros Hr. rewrite renderTasks_columns.
  destruct (refreshTaskMap s) as [r0 s0] eqn:E0.
  destruct (refreshTaskMap_spec s s0 r0 E0) as (Hst & Hh & Ht & Htr & Hok & Hrd).
  specialize (Hrd Hr). subst r0. destruct (Hok tt eq_refl) as [Hsy Hr0].
  destruct (render_column_spec "todo" s0 Hr0) as (r1 & E1 & I1 & [O1|O1]).
  2:{ unfold bind at 1. rewrite E0. unfold bind at 1. rewrite E1. subst r1.
      eexists (Throw _), s0. repeat split; try done; [|by right].
      unfold renderable. rewrite <- Hh, <- Ht, Forall_forall. intros H.
      apply I1, Forall_forall. intros l Hl. by apply card_ok_columns, H. }
  destruct (render_column_spec "doing" s0 Hr0) as (r2 & E2 & I2 & [O2|O2]).
  2:{ unfold bind at 1. rewrite E0. unfold bind at 1. rewrite E1. subst r1 r2.
      unfold bind at 1. rewrite E2.
      eexists (Throw _), s0. repeat split; try done; [|by right].
      unfold renderable. rewrite <- Hh, <- Ht, Forall_forall. intros H.
      apply I2, Forall_forall. intros l Hl. by apply card_ok_columns, H. }
  destruct (render_column_spec "done" s0 Hr0) as (r3 & E3 & I3 & [O3|O3]).
  2:{ unfold bind at 1. rewrite E0. unfold bind at 1. rewrite E1. subst r1 r2 r3.
      unfold bind at 1. rewrite E2. unfold bind at 1. rewrite E3.
      eexists (Throw _), s0. repeat split; try done; [|by right].
      unfold renderable. rewrite <- Hh, <- Ht, Forall_forall. intros H.
      apply I3, Forall_forall. intros l Hl. by apply card_ok_columns, H. }
  assert (renderable s ↔ r1 = Ok tt ∧ r2 = Ok tt ∧ r3 = Ok tt) as Hiff.
  { rewrite I1, I2, I3. unfold renderable. rewrite <- Hh, <- Ht, !Forall_forall.
    split.
    - intros H. repeat split; intros l Hl; by apply card_ok_columns, H.
    - intros (H1 & H2 & H3) l Hl. apply card_ok_columns. auto. }
  subst r1 r2 r3.
  unfold bind at 1. rewrite E0. unfold bind at 1. rewrite E1.
  unfold bind at 1. rewrite E2. unfold bind at 1. rewrite E3.
  exists (Ok tt), s0. repeat split; try done; [by rewrite Hiff|by left].
Qed.

(** A completed [renderTasks] has read the [id] of every element. *)
Lemma renderTasks_ok_readable (s : state) :
  (renderTasks s).1 = Ok tt → readable s.
Proof.
  intros Hok. rewrite renderTasks_columns in Hok. unfold bind at 1 in Hok.
  destruct (refreshTaskMap s) as [[u|e] s0] eqn:E0; [|done].
  destruct (refreshTaskMap_spec s s0 _ E0) as (_ & Hh & Ht & _ & H & _).
  destruct (H u eq_refl) as [_ Hr0]. unfold readable in *. by rewrite <- Hh, <- Ht.
Qed.

(** A sequence with a card that cannot be drawn makes [renderTasks]
    throw, after which only the index may differ. *)
Lemma renderTasks_throws (s : state) :
  ¬ renderable s →
  ∃ msg s', renderTasks s = (Throw msg, s') ∧
            storage s' = storage s ∧ heap s' = heap s ∧ tasks s' = tasks s ∧
            trace s' = trace s.
Proof.
  intros Hn. destruct (renderTasks s) as [r s'] eqn:E.
  destruct (renderTasks_frame s s' r E) as (Hst & Hh & Ht & [(e & -> & Htr)|[-> _]]).
  - by exists e, s'.
  - destruct Hn.
    assert (readable s) as Hr by (apply renderTasks_ok_readable; by rewrite E).
    destruct (renderTasks_readable s Hr) as (r & s0 & E' & _ & _ & _ & _ & _ & Hiff & _).
    apply Hiff. rewrite E in E'. by injection E' as <- _.
Qed.

(** The state a completed [renderTasks] leaves. *)
Lemma renderTasks_renderable (s : state) :
  readable s → renderable s → renderTasks s = (Ok tt, rendered s).
Proof.
  intros Hr Hc.
  destruct (renderTasks_readable s Hr) as (r & s0 & E & Hst & Hh & Ht & Htr & Hsy & Hiff & _).
  apply Hiff in Hc. subst r. rewrite E. f_equal.
  apply state_eq; cbn [logged rendered storage heap tasks taskMap trace]; try done.
  - unfold synced in Hsy. by rewrite Hsy, Hh, Ht.
  - by rewrite Htr.
Qed.

(** On readable records the only error of [renderTasks] is that of a
    card. *)
Lemma renderTasks_card_error (s : state) :
  readable s → ¬ renderable s →
  ∃ s', renderTasks s
        = (Throw "TypeError: task.priority.toUpperCase is not callable", s') ∧
        storage s' = storage s ∧ heap s' = heap s ∧ tasks s' = tasks s ∧
        trace s' = trace s ∧ synced s'.
Proof.
  intros Hr Hc.
  destruct (renderTasks_readable s Hr)
    as (r & s0 & E & Hst & Hh & Ht & Htr & Hsy & Hiff & [->| ->]).
  - by destruct Hc; apply Hiff.
  - by exists s0.
Qed.

(** [readable] and [renderable] in terms of the sequence by value. *)
Lemma readable_values (s : state) :
  readable s ↔ Forall (λ v, nullish v = false) (task_values s).
Proof.
  unfold readable, task_values. change (map ?f ?l) with (f <$> l).
  by rewrite Forall_fmap.
Qed.

Lemma renderable_values (s : state) :
  renderable s ↔ Forall (λ v, card_ok v = true) (task_values s).
Proof.
  unfold renderable, task_values. change (map ?f ?l) with (f <$> l).
  by rewrite Forall_fmap.
Qed.





(* ================================================================== *)
(** * ui.js: the modal handlers *)
(* ================================================================== *)

(** The record [createTask] builds from the form: no priority. *)
Lemma created_form_data (now_id : Z) (m : modal) :
  created now_id (form_data m)
  = VObj [("id", VNum now_id); ("title", VStr (trim (m_title m)));
          ("description", VStr (trim (m_description m)));
          ("status", VStr (m_status m))].
Proof. reflexivity. Qed.

(** Its card cannot be drawn when its status is that of a column. *)
Lemma created_card (now_id : Z) (m : modal) :
  m_status m ∈ ["todo"; "doing"; "done"] →
  card_ok (created now_id (form_data m)) = false.
Proof.
  intros Hst. rewrite created_form_data. unfold card_ok, in_column, has_priority.
  cbn. rewrite orb_false_r. apply negb_false_iff.
  rewrite !elem_of_cons, elem_of_nil in Hst.
  destruct Hst as [->|[->|[->|[]]]]; reflexivity.
Qed.

(** The run of [addNewTask] with a title and the status of a column. *)
Lemma addNewTask_run (now_id now_mod now_save : Z) (m : modal) (s : state) :
  trim (m_title m) ≠ EmptyString →
  m_status m ∈ ["todo"; "doing"; "done"] →
  ∃ msg s',
    addNewTask now_id now_mod now_save m s = (Ok tt, s') ∧
    trace s' = trace s ++ [EvCreateTaskAPI (form_data m);
                           EvAlert ("Error creating task: " +:+ msg)] ∧
    tasks s' = tasks s ++ [length (heap s)] ∧
    heap s' = heap s ++ [created now_id (form_data m)] ∧
    storage s'
    = <["lastSaved" := Number_toString now_save]>
        (<["tasks" := snapshot s']>
           (<["lastModified" := Number_toString now_mod]> (storage s))).
Proof.
  intros Htitle Hstatus. unfold addNewTask. cbv zeta.
  apply String.eqb_neq in Htitle. rewrite Htitle.
  unfold try_catch, bind at 1.
  rewrite (addTask_ok now_id now_mod (form_data m) s) by done.
  set (s1 := mkState _ _ _ _ _).
  unfold bind at 1. rewrite saveToLocalStorage_spec.
  set (s2 := mkState _ _ _ _ _).
  destruct (renderTasks_throws s2) as (msg & s3 & E & Hst & Hh & Ht & Htr).
  { intros Hc. unfold renderable, s2, s1 in Hc. cbn [heap tasks] in Hc.
    apply Forall_app in Hc as [_ Hc]. rewrite Forall_singleton, deref_app_new in Hc.
    by rewrite created_card in Hc. }
  unfold bind. rewrite E. exists msg. eexists. split; [reflexivity|].
  unfold log, snapshot, task_values. cbn [storage heap tasks taskMap trace].
  rewrite Htr, Ht, Hh, Hst. unfold s2, s1. cbn [storage heap tasks taskMap trace].
  split; [by rewrite <- app_assoc|]. done.
Qed.

(** X8. ui.js, [addNewTask] with a title and the status of a column: the
    record [createTask] builds has no priority, so after the record was
    appended and the snapshot was saved, [renderTasks] throws; the
    handler ends in the alert of its catch block and never closes the
    modal, while the sequence and the store keep the new record. *)
Theorem addNewTask_ends_in_alert
    (now_id now_mod now_save : Z) (m : modal) (s : state) :
  trim (m_title m) ≠ EmptyString →
  m_status m ∈ ["todo"; "doing"; "done"] →
  ∃ msg s',
    addNewTask now_id now_mod now_save m s = (Ok tt, s') ∧
    trace s' = trace s ++ [EvCreateTaskAPI (form_data m);
                           EvAlert ("Error creating task: " +:+ msg)] ∧
    tasks s' = tasks s ++ [length (heap s)] ∧
    deref (heap s') (length (heap s)) = created now_id (form_data m) ∧
    storage s' !! "tasks" = Some (snapshot s') ∧
    storage s' !! "lastSaved" = Some (Number_toString now_save) ∧
    storage s' !! "lastModified" = Some (Number_toString now_mod).
Proof.
  intros Htitle Hstatus.
  destruct (addNewTask_run now_id now_mod now_save m s Htitle Hstatus)
    as (msg & s' & E & Htr & Ht & Hh & Hst).
  exists msg, s'. do 3 (split; [done|]).
  split; [rewrite Hh; apply deref_app_new|]. rewrite Hst.
  split; [rewrite lookup_insert_ne by done; apply lookup_insert_eq|].
  split; [apply lookup_insert_eq|].
  rewrite !lookup_insert_ne by done. apply lookup_insert_eq.
Qed.

(** [addNewTask_ends_in_alert] at a concrete input. *)
Lemma addNewTask_ends_in_alert_witness :
  ∃ msg s',
    addNewTask 7 8 9 (mkModal 0 "Write report" "draft" "todo" "high") (initial ∅)
    = (Ok tt, s') ∧
    last (trace s') = Some (EvAlert ("Error creating task: " +:+ msg)) ∧
    tasks s' = [0%nat] ∧
    storage s' !! "lastSaved" = Some "9".
Proof.
  destruct (addNewTask_ends_in_alert 7 8 9
              (mkModal 0 "Write report" "draft" "todo" "high") (initial ∅))
    as (msg & s' & E & Htr & Ht & _ & _ & Hs & _).
  - by vm_compute.
  - cbn. rewrite !elem_of_cons. by left.
  - exists msg, s'. split; [exact E|]. split; [by rewrite Htr|]. by split.
Defined.

(** X9. ui.js, [saveChanges] with a title and an id the index does not hold:
    the handler returns without an alert, without saving, without
    rendering and without closing the modal; the only effect is the
    logged call of the update stub. *)
Theorem saveChanges_absent_id_is_silent
    (now_mod now_save : Z) (m : modal) (s : state) :
  trim (m_title m) ≠ EmptyString →
  taskMap s !! Number_toString (m_taskId m) = None →
  saveChanges now_mod now_save m s
  = (Ok tt, logged s (EvUpdateTaskAPI (m_taskId m) (form_data m))).
Proof.
  intros Htitle Hno. unfold saveChanges. cbv zeta.
  apply String.eqb_neq in Htitle. rewrite Htitle.
  unfold try_catch, bind. by rewrite editTask_absent.
Qed.

(** [saveChanges_absent_id_is_silent] at a concrete input. *)
Lemma saveChanges_absent_id_is_silent_witness :
  let m := mkModal 42 "Write report" "draft" "todo" "high" in
  let s := exec (OpAdd 5 6 sample_data) (initial ∅) in
  saveChanges 8 9 m s = (Ok tt, logged s (EvUpdateTaskAPI 42 (form_data m))).
Proof.
  cbv zeta. apply saveChanges_absent_id_is_silent; [by vm_compute | reflexivity].
Defined.

(** X10. ui.js, [saveChanges] with a title and an indexed id: the record gets
    the trimmed title, the trimmed description and the status of the
    form, and keeps its priority, whatever priority the form holds; the
    snapshot of the edited sequence and the time of the save are in the
    store; the modal is closed when the rendering completes, and the
    alert of the catch block is raised when it throws. *)
Theorem saveChanges_persists_edit
    (now_mod now_save : Z) (m : modal) (s : state) (l : loc) :
  trim (m_title m) ≠ EmptyString →
  synced s →
  taskMap s !! Number_toString (m_taskId m) = Some l →
  ∃ ps ps' s',
    deref (heap s) l = VObj ps ∧
    saveChanges now_mod now_save m s = (Ok tt, s') ∧
    deref (heap s') l = VObj ps' ∧
    get_field ps' "title" = VStr (trim (m_title m)) ∧
    get_field ps' "description" = VStr (trim (m_description m)) ∧
    get_field ps' "status" = VStr (m_status m) ∧
    get_field ps' "priority" = get_field ps "priority" ∧
    tasks s' = tasks s ∧
    storage s' !! "tasks" = Some (snapshot s') ∧
    storage s' !! "lastSaved" = Some (Number_toString now_save) ∧
    storage s' !! "lastModified" = Some (Number_toString now_mod) ∧
    (last (trace s') = Some EvCloseModal ∨
     ∃ msg, last (trace s') = Some (EvAlert ("Error updating task: " +:+ msg))).
Proof.
  intros Htitle Hs Hl.
  destruct (index_sound s (m_taskId m) l Hs Hl) as [ps Hps].
  pose proof (editTask_found now_mod (m_taskId m) (form_data m) s l ps eq_refl Hl Hps)
    as He.
  exists ps, (edited ps (form_data m)).
  unfold saveChanges. cbv zeta.
  apply String.eqb_neq in Htitle. rewrite Htitle.
  unfold try_catch, bind at 1. rewrite He.
  set (s1 := mkState _ _ _ _ _).
  unfold bind at 1. rewrite saveToLocalStorage_spec.
  set (s2 := mkState _ _ _ _ _).
  destruct (renderTasks s2) as [r s3] eqn:E.
  destruct (renderTasks_frame s2 s3 r E) as (Hst3 & Hh3 & Ht3 & Htr3).
  assert (∀ e, storage (logged s3 e) !! "tasks" = Some (snapshot (logged s3 e)) ∧
               storage (logged s3 e) !! "lastSaved" = Some (Number_toString now_save) ∧
               storage (logged s3 e) !! "lastModified" = Some (Number_toString now_mod))
    as Hstore.
  { intros e. unfold snapshot, task_values. cbn [logged storage heap tasks].
    rewrite Hst3, Hh3, Ht3. unfold s2. cbn [storage heap tasks].
    split; [rewrite lookup_insert_ne by done; apply lookup_insert_eq|].
    split; [apply lookup_insert_eq|].
    rewrite !lookup_insert_ne by done. unfold s1. apply lookup_insert_eq. }
  assert (deref (heap s3) l = VObj (edited ps (form_data m))) as Hrec.
  { rewrite Hh3. unfold s2, s1. cbn [heap]. by eapply deref_insert_same. }
  unfold bind. rewrite E.
  destruct Htr3 as [(e & -> & Htr)|[-> Htr]].
  - exists (logged s3 (EvAlert ("Error updating task: " +:+ e))).
    destruct (Hstore (EvAlert ("Error updating task: " +:+ e))) as (H1 & H2 & H3).
    split; [done|]. split; [done|]. split; [done|].
    unfold edited. rewrite !get_field_set_field. cbn.
    repeat split; try done. right. exists e. cbn. by rewrite last_snoc.
  - exists (logged s3 EvCloseModal).
    destruct (Hstore EvCloseModal) as (H1 & H2 & H3).
    split; [done|]. split; [done|]. split; [done|].
    unfold edited. rewrite !get_field_set_field. cbn.
    repeat split; try done. left. cbn. by rewrite last_snoc.
Qed.

(** [saveChanges_persists_edit] at a concrete input. *)
Lemma saveChanges_persists_edit_witness :
  ∃ ps ps' s',
    saveChanges 8 9 (mkModal 1 " A2 " "" "done" "high")
      (loadFromLocalStorage (initial (scenario_store "500"))).2 = (Ok tt, s') ∧
    deref (heap s') 0%nat = VObj ps' ∧
    get_field ps' "title" = VStr "A2" ∧
    get_field ps' "status" = VStr "done" ∧
    get_field ps "priority" = VStr "low" ∧
    get_field ps' "priority" = VStr "low" ∧
    storage s' !! "lastSaved" = Some "9".
Proof.
  destruct (saveChanges_persists_edit 8 9 (mkModal 1 " A2 " "" "done" "high")
              (loadFromLocalStorage (initial (scenario_store "500"))).2 0%nat)
    as (ps & ps' & s' & Hps & E & Hps' & Ht & _ & Hst & Hp & _ & _ & Hsaved & _).
  - by vm_compute.
  - reflexivity.
  - reflexivity.
  - exists ps, ps', s'. split; [exact E|]. split; [exact Hps'|].
    split; [exact Ht|]. split; [exact Hst|].
    assert (get_field ps "priority" = VStr "low") as Hlow.
    { vm_compute in Hps. by injection Hps as <-. }
    split; [exact Hlow|]. split; [by rewrite Hp|exact Hsaved].
Defined.

(** X11. ui.js, [deleteTaskHandler] does nothing at all when the id of the
    modal is 0, when the index holds no record under it, or when the user
    dismisses the confirmation dialog: no stub is called, nothing is
    removed, saved or drawn. *)
Theorem deleteTaskHandler_guards
    (now_mod now_save : Z) (m : modal) (confirmed : bool) (s : state) :
  m_taskId m = 0 ∨ taskMap s !! Number_toString (m_taskId m) = None ∨
  confirmed = false →
  deleteTaskHandler now_mod now_save m confirmed s = (Ok tt, s).
Proof.
  intros H. unfold deleteTaskHandler. cbv zeta.
  destruct (m_taskId m =? 0) eqn:E0; [done|].
  run_m.
  destruct (taskMap s !! Number_toString (m_taskId m)) as [l|] eqn:El; [|done].
  destruct (truthy (deref (heap s) l)) eqn:Et; [|done]. cbn.
  destruct H as [H|[H|H]]; [apply Z.eqb_neq in E0; lia | done |]. subst confirmed.
  by destruct (deref (heap s) l).
Qed.

(** [deleteTaskHandler_guards] at a concrete input. *)
Lemma deleteTaskHandler_guards_witness :
  let s := exec (OpAdd 5 6 sample_data) (initial ∅) in
  deleteTaskHandler 8 9 (mkModal 5 "" "" "todo" "low") false s = (Ok tt, s) ∧
  deleteTaskHandler 8 9 (mkModal 0 "" "" "todo" "low") true s = (Ok tt, s).
Proof.
  cbv zeta. split; apply deleteTaskHandler_guards; [by right; right | by left].
Defined.

(** X12. ui.js, [deleteTaskHandler] after the user confirmed, on a non-zero id
    under which the index holds a record with that id: the first record
    of the sequence with the id is removed, the snapshot of the remaining
    sequence and the time of the save are stored, and the index is the
    derived one again when the handler ends (the rendering rebuilds it).
    The modal is closed when the rendering completes; the alert of the
    catch block is raised when it throws. *)
Theorem deleteTaskHandler_confirmed
    (now_mod now_save : Z) (m : modal) (s : state) (l : loc) :
  m_taskId m ≠ 0 →
  readable s → synced s →
  taskMap s !! Number_toString (m_taskId m) = Some l →
  carries (heap s) (m_taskId m) l = true →
  ∃ i l' s',
    deleteTaskHandler now_mod now_save m true s = (Ok tt, s') ∧
    tasks s !! i = Some l' ∧ carries (heap s) (m_taskId m) l' = true ∧
    (∀ j l'', (j < i)%nat → tasks s !! j = Some l'' →
              carries (heap s) (m_taskId m) l'' = false) ∧
    tasks s' = delete i (tasks s) ∧ heap s' = heap s ∧
    synced s' ∧
    storage s' !! "tasks" = Some (snapshot s') ∧
    storage s' !! "lastSaved" = Some (Number_toString now_save) ∧
    storage s' !! "lastModified" = Some (Number_toString now_mod) ∧
    (last (trace s') = Some EvCloseModal ∨
     ∃ msg, last (trace s') = Some (EvAlert ("Error deleting task: " +:+ msg))).
Proof.
  intros Hid Hr Hs Hl Hc.
  destruct (carries_object _ _ _ Hc) as (ps & Hps & _).
  destruct (indexed_in_sequence s _ l Hs Hl) as [Hin _].
  pose proof (findIndex_first (heap s) (tasks s) (m_taskId m) 0 Hr) as Hf.
  pose proof (deleteTask_cases now_mod (m_taskId m) s) as Hd. cbv zeta in Hd.
  destruct (list_find _ (tasks s)) as [[i l']|] eqn:E.
  2:{ apply list_find_None in E. rewrite Forall_forall in E. by destruct (E l Hin). }
  apply list_find_Some in E as (Hi & Hl' & Hbefore).
  rewrite Hf in Hd. cbn [Nat.add] in Hd.
  exists i, l'.
  unfold deleteTaskHandler. cbv zeta.
  apply Z.eqb_neq in Hid. rewrite Hid.
  unfold bind at 1, get_state at 1. rewrite Hl.
  unfold bind at 1, read at 1. rewrite Hps. cbn [truthy negb].
  unfold bind at 1, lift at 1. cbn [get_prop].
  unfold try_catch, bind at 1. rewrite Hd.
  set (s1 := mkState _ _ _ _ _).
  unfold bind at 1. rewrite saveToLocalStorage_spec.
  set (s2 := mkState _ _ _ _ _).
  assert (readable s2) as Hr2
    by (unfold readable, s2, s1; cbn [heap tasks]; by apply Forall_delete).
  destruct (renderTasks_readable s2 Hr2) as (r & s0 & Er & Hst0 & Hh0 & Ht0 & _ & Hsy0 & _ & _).
  unfold bind. rewrite Er.
  assert (∀ e, let s' := logged s0 e in
               tasks s' = delete i (tasks s) ∧ heap s' = heap s ∧ synced s' ∧
               storage s' !! "tasks" = Some (snapshot s') ∧
               storage s' !! "lastSaved" = Some (Number_toString now_save) ∧
               storage s' !! "lastModified" = Some (Number_toString now_mod))
    as Hfinal.
  { intros e. cbv zeta. unfold snapshot, task_values, synced in *.
    cbn [logged storage heap tasks taskMap].
    rewrite Hst0, Hh0, Ht0. unfold s2, s1. cbn [storage heap tasks].
    split; [done|]. split; [done|]. split.
    { rewrite Hsy0, Hh0, Ht0. done. }
    split; [rewrite lookup_insert_ne by done; apply lookup_insert_eq|].
    split; [apply lookup_insert_eq|].
    rewrite !lookup_insert_ne by done. apply lookup_insert_eq. }
  assert (∀ j l'', (j < i)%nat → tasks s !! j = Some l'' →
                   carries (heap s) (m_taskId m) l'' = false) as Hfirst.
  { intros j l'' Hj Hl''. apply not_true_iff_false. by eapply Hbefore. }
  destruct r as [[]|e].
  - exists (logged (logged s0 EvRender) EvCloseModal).
    destruct (Hfinal EvCloseModal) as (H1 & H2 & H3 & H4 & H5 & H6).
    split; [done|]. repeat split; try done. left. cbn. by rewrite last_snoc.
  - exists (logged s0 (EvAlert ("Error deleting task: " +:+ e))).
    destruct (Hfinal (EvAlert ("Error deleting task: " +:+ e)))
      as (H1 & H2 & H3 & H4 & H5 & H6).
    split; [done|]. repeat split; try done. right. exists e. cbn. by rewrite last_snoc.
Qed.

(** [deleteTaskHandler_confirmed] at a concrete input. *)
Lemma deleteTaskHandler_confirmed_witness :
  ∃ s',
    deleteTaskHandler 8 9 (mkModal 1 "" "" "todo" "low") true
      (loadFromLocalStorage (initial (scenario_store "500"))).2 = (Ok tt, s') ∧
    tasks s' = [] ∧ storage s' !! "tasks" = Some "[]" ∧
    last (trace s') = Some EvCloseModal.
Proof.
  destruct (deleteTaskHandler_confirmed 8 9 (mkModal 1 "" "" "todo" "low")
              (loadFromLocalStorage (initial (scenario_store "500"))).2 0%nat)
    as (i & l' & s' & E & Hi & _ & _ & Ht & _ & _ & Hsnap & _ & _ & Hlast).
  - done.
  - vm_compute. repeat constructor.
  - reflexivity.
  - reflexivity.
  - reflexivity.
  - exists s'. split; [exact E|].
    assert (tasks s' = []) as Hnil.
    { rewrite Ht. destruct i as [|i]; [reflexivity|discriminate Hi]. }
    split; [exact Hnil|]. split.
    { rewrite Hsnap. unfold snapshot, task_values. rewrite Hnil. reflexivity. }
    vm_compute in E. by injection E as <-.
Defined.

(* ================================================================== *)
(** * storage.js: the time of the last save and the load *)
(* ================================================================== *)

(** The decimal text of a number is not empty. *)
Lemma Number_toString_nonempty (z : Z) : Number_toString z ≠ EmptyString.
Proof. destruct (Number_toString_head z) as (c & t & -> & _). done. Qed.

(** A stored array loads, and the load returns [true] exactly when the
    index could be rebuilt. *)
Lemma load_array_readable (s : state) (text : string) (vals : list value) :
  storage s !! "tasks" = Some text → JSON_parse text = Some (VArr vals) →
  ∃ r s1,
    loadFromLocalStorage s = (Ok r, s1) ∧
    (r = true ↔ Forall (λ v, nullish v = false) vals) ∧
    (r = true → task_values s1 = vals).
Proof.
  intros Hs Hp. destruct (load_array s text vals Hs Hp) as (r & s1 & Hr & E).
  destruct (refreshTaskMap_spec _ _ _ Hr) as (_ & Hh & Ht & _ & Hok & Hrd).
  rewrite E. destruct r as [u|msg].
  - exists true, s1. split; [done|]. destruct (Hok u eq_refl) as [_ Hre]. split.
    + split; [intros _|done]. apply (readable_pushed s).
      unfold readable in *. by rewrite <- Hh, <- Ht.
    + intros _. unfold task_values. rewrite Hh, Ht. cbn [pushed cleared heap tasks app].
      apply deref_seq.
  - eexists false, _. split; [done|]. split; [|done]. split; [done|].
    intros Hv%(readable_pushed s). by specialize (Hrd Hv).
Qed.

(** [loadFromLocalStorage] does not write to the store. *)
Lemma load_keeps_store (s s1 : state) (r : result bool) :
  loadFromLocalStorage s = (r, s1) → storage s1 = storage s.
Proof.
  intros Hl. destruct (storage s !! "tasks") as [text|] eqn:Hs.
  2:{ rewrite load_absent in Hl by done. by injection Hl as _ <-. }
  destruct (String.eqb_spec text EmptyString) as [->|Hne].
  { rewrite load_empty in Hl by done. by injection Hl as _ <-. }
  destruct (JSON_parse text) as [v|] eqn:Hp.
  2:{ rewrite (load_unparseable s text) in Hl by done. by injection Hl as _ <-. }
  assert ((∃ vals, v = VArr vals) ∨ (∀ vals, v ≠ VArr vals)) as [[vals ->]|Hv].
  { destruct v; try (by right); left; by eexists. }
  2:{ destruct (load_not_array s text v Hs Hp Hv) as [msg E].
      rewrite E in Hl. by injection Hl as _ <-. }
  destruct (load_array s text vals Hs Hp) as (r' & s1' & Hr & E).
  destruct (refreshTaskMap_spec _ _ _ Hr) as (Hst & _).
  rewrite E in Hl. destruct r'; by injection Hl as _ <-.
Qed.

(** X13. storage.js, [getLastSavedTime] reads back the clock reading of the
    last [saveToLocalStorage], for every clock reading that is a safe
    integer, as every time value of [Date.now()] is: the time is stored
    as its decimal text and [parseInt] returns its value. *)
Theorem getLastSavedTime_after_save (now : Z) (s : state) :
  safe_integer now →
  getLastSavedTime (storage (saveToLocalStorage now s).2) = Some (Some now).
Proof.
  intros _. rewrite saveToLocalStorage_spec. cbn [snd storage]. unfold getLastSavedTime.
  rewrite lookup_insert_eq.
  destruct (String.eqb_spec (Number_toString now) EmptyString) as [E|_].
  - by destruct (Number_toString_nonempty now).
  - cbn. by rewrite parseInt_toString.
Qed.

(** [getLastSavedTime_after_save] at a concrete input. *)
Lemma getLastSavedTime_after_save_witness :
  getLastSavedTime
    (storage (saveToLocalStorage 1723720000000
                (exec (OpAdd 5 6 sample_data) (initial ∅))).2)
  = Some (Some 1723720000000).
Proof. apply getLastSavedTime_after_save. unfold safe_integer. lia. Defined.



(** X15. storage.js, [loadFromLocalStorage] replaces the sequence instead of
    extending it: when a load returns [true], a load from any program
    state over the same store returns [true] with the same sequence by
    value; in particular a second load changes nothing. *)
Theorem load_depends_only_on_store (s s1 s0 : state) :
  loadFromLocalStorage s = (Ok true, s1) →
  storage s0 = storage s →
  ∃ s2, loadFromLocalStorage s0 = (Ok true, s2) ∧
        task_values s2 = task_values s1 ∧
        length (tasks s2) = length (tasks s1).
Proof.
  intros Hl Hst.
  destruct (load_true s s1 Hl) as (text & vals & Hs & Hp & Hv & _ & _ & Hr & _).
  rewrite <- Hst in Hs.
  destruct (load_array_readable s0 text vals Hs Hp) as (r & s2 & E & Hiff & Hvals).
  assert (r = true) as ->.
  { apply Hiff. rewrite <- Hv. unfold task_values, readable in *.
    change (map ?f ?l) with (f <$> l). by rewrite Forall_fmap. }
  exists s2. split; [done|].
  assert (task_values s2 = task_values s1) as Heq by (by rewrite Hvals, Hv).
  split; [done|].
  apply (f_equal length) in Heq. unfold task_values in Heq.
  by rewrite !length_map in Heq.
Qed.

(** [load_depends_only_on_store] at a concrete input. *)
Lemma load_depends_only_on_store_witness :
  let s1 := (loadFromLocalStorage (initial (scenario_store "500"))).2 in
  ∃ s2, loadFromLocalStorage s1 = (Ok true, s2) ∧
        task_values s2 = [scenario_record] ∧ length (tasks s2) = 1%nat.
Proof.
  cbv zeta.
  destruct (load_depends_only_on_store (initial (scenario_store "500"))
              (loadFromLocalStorage (initial (scenario_store "500"))).2
              (loadFromLocalStorage (initial (scenario_store "500"))).2)
    as (s2 & E & Hv & Hlen).
  - by vm_compute.
  - reflexivity.
  - exists s2. split; [exact E|]. split; [by rewrite Hv | by rewrite Hlen].
Defined.

(* ================================================================== *)
(** * script.js: the auto-save timer *)
(* ================================================================== *)

(** X16. script.js, the callback of the auto-save timer, at a clock reading
    not before the stored time of the last modification: when it ends
    nothing is unsaved; it never changes the sequence, a record or the
    index; when something was unsaved the store holds the snapshot of the
    sequence and the time of this save, otherwise the state is left as it
    was; and every later tick does nothing until the next modification. *)
Theorem autoSave_tick_settles (now : Z) (s : state) :
  (∀ text b, storage s !! "lastModified" = Some text →
             parseInt text = Some b → b ≤ now) →
  ∃ s',
    autoSave_tick now s = (Ok tt, s') ∧
    hasUnsavedChanges (storage s') = false ∧
    tasks s' = tasks s ∧ heap s' = heap s ∧ taskMap s' = taskMap s ∧
    (hasUnsavedChanges (storage s) = true →
     storage s' !! "tasks" = Some (snapshot s) ∧
     storage s' !! "lastSaved" = Some (Number_toString now)) ∧
    (hasUnsavedChanges (storage s) = false → s' = s) ∧
    (∀ later, autoSave_tick later s' = (Ok tt, s')).
Proof.
  intros Hclock. unfold autoSave_tick. unfold bind at 1, get_state at 1.
  destruct (hasUnsavedChanges (storage s)) eqn:Hu.
  - unfold bind at 1. rewrite saveToLocalStorage_spec.
    unfold updateDataStatus. run_m.
    eexists. split; [reflexivity|]. cbn [storage heap tasks taskMap].
    assert (hasUnsavedChanges
              (<["lastSaved" := Number_toString now]>
                 (<["tasks" := default "undefined"
                                 (JSON_stringify (VArr (task_values s)))]> (storage s)))
            = false) as Hsettled.
    { apply not_true_iff_false. intros H.
      apply hasUnsavedChanges_true in H as (saved & modified & a & b & Hs & Hm & Ha & Hb & _ & Hlt).
      rewrite lookup_insert_eq in Hs. injection Hs as <-.
      rewrite parseInt_toString in Ha. injection Ha as <-.
      rewrite !lookup_insert_ne in Hm by done.
      specialize (Hclock modified b Hm Hb). lia. }
    split; [done|]. do 3 (split; [done|]). split.
    { intros _. split; [|apply lookup_insert_eq].
      rewrite lookup_insert_ne by done. apply lookup_insert_eq. }
    split; [done|]. intros later. run_m. by rewrite Hsettled.
  - exists s. split; [done|]. split; [done|]. do 3 (split; [done|]).
    split; [done|]. split; [done|]. intros later. run_m. by rewrite Hu.
Qed.

(** [autoSave_tick_settles] at a concrete input. *)
Lemma autoSave_tick_settles_witness :
  let s := exec (OpAdd 1500 1501 sample_data) (saveToLocalStorage 1000 (initial ∅)).2 in
  hasUnsavedChanges (storage s) = true ∧
  ∃ s', autoSave_tick 2000 s = (Ok tt, s') ∧
        hasUnsavedChanges (storage s') = false ∧
        storage s' !! "lastSaved" = Some "2000" ∧
        autoSave_tick 3000 s' = (Ok tt, s').
Proof.
  cbv zeta. split; [reflexivity|].
  destruct (autoSave_tick_settles 2000
              (exec (OpAdd 1500 1501 sample_data) (saveToLocalStorage 1000 (initial ∅)).2))
    as (s' & E & Hu & _ & _ & _ & Hsave & _ & Hlater).
  - intros text b Ht Hb. vm_compute in Ht. injection Ht as <-.
    vm_compute in Hb. injection Hb as <-. lia.
  - exists s'. split; [exact E|]. split; [exact Hu|].
    split; [by apply Hsave|apply Hlater].
Defined.

(* ================================================================== *)
(** * tasks.js and api.js: loading from the remote source *)
(* ================================================================== *)

(** The sequence of [fetched], by value. *)
Lemma values_fetched (s : state) (vals : list value) :
  task_values (fetched s vals) = vals.
Proof. unfold task_values. cbn [fetched heap tasks]. apply deref_seq. Qed.

(** [loadTasksFromAPI] on an ok response with a JSON body. *)
Lemma loadTasksFromAPI_answer (status : Z) (data : value) (s : state) :
  ∃ r s2,
    refreshTaskMap (pushed (cleared (logged s EvFetch)) (array_or_empty data)) = (r, s2) ∧
    loadTasksFromAPI (Response true status (Ok data)) s
    = match r with
      | Ok _ => (Ok (tasks s2), s2)
      | Throw msg => (Throw msg, logged s2 (EvConsoleError msg))
      end.
Proof.
  unfold loadTasksFromAPI, fetchTasks. run_m.
  change (match data with VArr l => l | _ => [] end) with (array_or_empty data).
  change (mkState (storage s) (heap s) [] (taskMap s) (trace s ++ [EvFetch]))
    with (cleared (logged s EvFetch)).
  rewrite push_all.
  destruct (refreshTaskMap _) as [r s2] eqn:E.
  exists r, s2. split; [done|]. by destruct r.
Qed.

(** The state [loadTasksFromAPI] leaves when no fetched element is
    [null] or [undefined]. *)
Lemma loadTasksFromAPI_ok (status : Z) (data : value) (s : state) :
  Forall (λ v, nullish v = false) (array_or_empty data) →
  loadTasksFromAPI (Response true status (Ok data)) s
  = (Ok (tasks (fetched s (array_or_empty data))), fetched s (array_or_empty data)).
Proof.
  intros Hv. destruct (loadTasksFromAPI_answer status data s) as (r & s2 & Hr & ->).
  destruct (refreshTaskMap_spec _ _ _ Hr) as (Hst & Hh & Ht & Htr & Hok & Hrd).
  rewrite (Hrd (proj2 (readable_pushed _ _) Hv)) in *.
  destruct (Hok tt eq_refl) as [Hsy _].
  assert (s2 = fetched s (array_or_empty data)) as ->; [|done].
  apply eq_sym, state_eq; cbn [fetched pushed cleared logged storage heap tasks taskMap trace app] in *;
    try done.
  unfold synced in Hsy. by rewrite Hsy, Hh, Ht.
Qed.





(* ================================================================== *)
(** * script.js: the runs of the load strategy *)
(* ================================================================== *)

(** [loadTasks] after clean local data was drawn: what is left to run. *)
Lemma loadTasks_local_prefix (net : http) (s s1 : state) :
  loadFromLocalStorage s = (Ok true, s1) →
  renderable s1 →
  hasUnsavedChanges (storage s1) = false →
  readable s1 ∧
  loadTasks net s
  = (showLoading ;;
     try_catch
       (loadTasksFromAPI net ;; renderTasks ;; hideLoading ;;
        updateDataStatus "api" "Synced with server")
       (λ msg,
          log (EvConsoleError msg) ;;
          hideLoading ;;
          log (EvConsoleLog "Using local data due to API failure") ;;
          updateDataStatus "local" "Using local data (API unavailable)"))
      (logged (rendered s1) (EvStatus "local" "Loaded from local storage")).
Proof.
  intros Hl Hc Hu.
  destruct (load_true s s1 Hl) as (text & vals & _ & _ & _ & _ & _ & Hr & _).
  split; [done|].
  unfold loadTasks. unfold bind at 1. rewrite Hl. unfold bind at 1. unfold bind at 1.
  rewrite renderTasks_renderable by done.
  unfold bind at 1, updateDataStatus at 1, log at 1.
  unfold bind at 1, get_state at 1. cbn [storage rendered]. rewrite Hu.
  unfold ret at 1. cbn [negb]. reflexivity.
Qed.

(** [loadTasks] after no local data was found: what is left to run. *)
Lemma loadTasks_remote_prefix (net : http) (s s1 : state) :
  loadFromLocalStorage s = (Ok false, s1) →
  loadTasks net s
  = (showLoading ;;
     try_catch
       (loadTasksFromAPI net ;; renderTasks ;; hideLoading ;;
        updateDataStatus "api" "Synced with server")
       (λ msg,
          log (EvConsoleError msg) ;;
          showError (if String.eqb msg "" then "Failed to load tasks from the server."
                     else msg) ;;
          updateDataStatus "error" "Failed to load data"))
      (logged s1 (EvStatus "loading" "No local data, loading from API...")).
Proof.
  intros Hl. unfold loadTasks. unfold bind at 1. rewrite Hl.
  unfold bind at 1. unfold bind at 1, updateDataStatus at 1, log at 1.
  unfold ret at 1. cbn [negb]. reflexivity.
Qed.

(** From [showLoading] on, when the fetch and the rendering succeed. *)
Lemma synced_run (status : Z) (data : value) (s : state) (handler : string → M unit) :
  Forall (λ v, nullish v = false) (array_or_empty data) →
  Forall (λ v, card_ok v = true) (array_or_empty data) →
  ∃ s',
    (showLoading ;;
     try_catch
       (loadTasksFromAPI (Response true status (Ok data)) ;; renderTasks ;;
        hideLoading ;; updateDataStatus "api" "Synced with server")
       handler) s = (Ok tt, s') ∧
    task_values s' = array_or_empty data ∧ synced s' ∧
    storage s' = storage s ∧
    trace s' = trace s ++ synced_run_events.
Proof.
  intros Hv Hc. unfold showLoading, hideLoading, updateDataStatus.
  unfold bind at 1. unfold bind at 1, log at 1. unfold log at 1.
  cbn [storage heap tasks taskMap trace].
  set (s1 := mkState _ _ _ _ _).
  unfold try_catch, bind at 1. rewrite loadTasksFromAPI_ok by done.
  set (s2 := fetched s1 (array_or_empty data)).
  assert (task_values s2 = array_or_empty data) as Hvals by apply values_fetched.
  unfold bind at 1. rewrite renderTasks_renderable
    by (by rewrite ?readable_values, ?renderable_values, Hvals).
  run_m. eexists. split; [reflexivity|].
  unfold task_values in *. cbn [heap tasks storage trace taskMap rendered].
  split; [done|]. split; [reflexivity|]. split; [done|].
  unfold s2, s1. cbn [fetched trace]. by rewrite <- !app_assoc.
Qed.

(** X19. script.js, [loadTasks] whenever the run reaches the fetch (no local
    data was found, or local data without unsaved changes was drawn) and
    the answer is ok with records whose cards can be drawn: the sequence
    at the end of the run is the fetched array, whatever the local data
    was; the index is the derived one; the run ends in the status
    [api]; and the store is left as it was, so the fetched records are
    not saved. *)
Theorem loadTasks_syncs_with_remote
    (status : Z) (data : value) (b : bool) (s s1 : state) :
  loadFromLocalStorage s = (Ok b, s1) →
  (b = true → renderable s1 ∧ hasUnsavedChanges (storage s1) = false) →
  Forall (λ v, nullish v = false) (array_or_empty data) →
  Forall (λ v, card_ok v = true) (array_or_empty data) →
  ∃ s',
    loadTasks (Response true status (Ok data)) s = (Ok tt, s') ∧
    task_values s' = array_or_empty data ∧
    synced s' ∧
    storage s' = storage s ∧
    trace s' = trace s1
               ++ (if b then [EvRender; EvStatus "local" "Loaded from local storage"]
                   else [EvStatus "loading" "No local data, loading from API..."])
               ++ synced_run_events.
Proof.
  intros Hl Hb Hv Hc. rewrite <- (load_keeps_store s s1 _ Hl). destruct b.
  - destruct (Hb eq_refl) as [Hrend Hu].
    destruct (loadTasks_local_prefix (Response true status (Ok data)) s s1 Hl Hrend Hu)
      as [_ ->].
    match goal with |- context [try_catch _ ?h] =>
      destruct (synced_run status data
                  (logged (rendered s1) (EvStatus "local" "Loaded from local storage"))
                  h Hv Hc) as (s' & -> & H1 & H2 & H3 & H4) end.
    exists s'. split; [done|]. do 3 (split; [done|]).
    rewrite H4. cbn [logged rendered trace]. by rewrite <- !app_assoc.
  - rewrite (loadTasks_remote_prefix _ s s1 Hl).
    match goal with |- context [try_catch _ ?h] =>
      destruct (synced_run status data
                  (logged s1 (EvStatus "loading" "No local data, loading from API..."))
                  h Hv Hc) as (s' & -> & H1 & H2 & H3 & H4) end.
    exists s'. split; [done|]. do 3 (split; [done|]).
    rewrite H4. cbn [logged trace]. by rewrite <- !app_assoc.
Qed.

(** [loadTasks_syncs_with_remote] at a concrete input. *)
Lemma loadTasks_syncs_with_remote_witness :
  ∃ s',
    loadTasks scenario_remote (initial (scenario_store "500")) = (Ok tt, s') ∧
    task_values s'
    = [VObj [("id", VNum 2); ("title", VStr "B"); ("status", VStr "doing");
             ("priority", VStr "high")]] ∧
    storage s' = scenario_store "500" ∧
    last (trace s') = Some (EvStatus "api" "Synced with server").
Proof.
  destruct (loadTasks_syncs_with_remote 200
              (VArr [VObj [("id", VNum 2); ("title", VStr "B"); ("status", VStr "doing");
                           ("priority", VStr "high")]])
              true (initial (scenario_store "500"))
              (loadFromLocalStorage (initial (scenario_store "500"))).2)
    as (s' & E & Hv & _ & Hst & Htr).
  - by vm_compute.
  - intros _. split; [vm_compute; repeat constructor | reflexivity].
  - by repeat constructor.
  - by repeat constructor.
  - exists s'. split; [exact E|]. split; [exact Hv|]. split; [exact Hst|].
    rewrite Htr. reflexivity.
Defined.

(** X20. script.js, [loadTasks] when clean local data was drawn and the fetch
    fails: the run completes, the sequence is the local one, no error box
    is shown, the loading overlay is hidden again, and the run ends in
    the status [local] with the note that the API is unavailable. *)
Theorem loadTasks_offline_keeps_local
    (net : http) (cause : string) (s s1 : state) :
  loadFromLocalStorage s = (Ok true, s1) →
  renderable s1 →
  hasUnsavedChanges (storage s1) = false →
  fetch_cause net = Some cause →
  ∃ s',
    loadTasks net s = (Ok tt, s') ∧
    tasks s' = tasks s1 ∧ heap s' = heap s1 ∧ synced s' ∧
    storage s' = storage s ∧
    trace s' = trace s1 ++ offline_run_events cause.
Proof.
  intros Hl Hrend Hu Hc. rewrite <- (load_keeps_store s s1 _ Hl).
  destruct (loadTasks_local_prefix net s s1 Hl Hrend Hu) as [_ ->].
  unfold showLoading, hideLoading, updateDataStatus.
  unfold bind at 1. unfold bind at 1, log at 1. unfold log at 1.
  cbn [storage heap tasks taskMap trace logged rendered].
  unfold try_catch, bind at 1. rewrite (loadTasksFromAPI_fails net cause) by done.
  run_m. eexists. split; [reflexivity|]. cbn [storage heap tasks taskMap trace].
  do 2 (split; [done|]). split; [reflexivity|]. split; [done|].
  by rewrite <- !app_assoc.
Qed.

(** [loadTasks_offline_keeps_local] at a concrete input. *)
Lemma loadTasks_offline_keeps_local_witness :
  ∃ s',
    loadTasks (Response false 503 (Ok VNull)) (initial (scenario_store "500"))
    = (Ok tt, s') ∧
    task_values s' = [scenario_record] ∧
    last (trace s') = Some (EvStatus "local" "Using local data (API unavailable)").
Proof.
  destruct (loadTasks_offline_keeps_local (Response false 503 (Ok VNull))
              "HTTP error! status: 503" (initial (scenario_store "500"))
              (loadFromLocalStorage (initial (scenario_store "500"))).2)
    as (s' & E & Ht & Hh & _ & _ & Htr).
  - by vm_compute.
  - vm_compute. repeat constructor.
  - reflexivity.
  - reflexivity.
  - exists s'. split; [exact E|]. split.
    + unfold task_values. rewrite Ht, Hh. reflexivity.
    + rewrite Htr. reflexivity.
Defined.

(** X21. script.js, [loadTasks] when the local data holds a record of a column
    without a string priority: the first [renderTasks], which is outside
    the try block, throws; the run is rejected with that error before any
    status is shown and before the fetch. *)
Theorem loadTasks_rejects_on_local_card
    (net : http) (s s1 : state) :
  loadFromLocalStorage s = (Ok true, s1) →
  ¬ renderable s1 →
  ∃ msg s',
    loadTasks net s = (Throw msg, s') ∧
    tasks s' = tasks s1 ∧ heap s' = heap s1 ∧ storage s' = storage s ∧
    trace s' = trace s1.
Proof.
  intros Hl Hn. rewrite <- (load_keeps_store s s1 _ Hl).
  destruct (load_true s s1 Hl) as (text & vals & _ & _ & _ & _ & _ & Hr & _).
  destruct (renderTasks_card_error s1 Hr Hn) as (s' & E & Hst & Hh & Ht & Htr & _).
  eexists _, s'. unfold loadTasks. unfold bind at 1. rewrite Hl.
  unfold bind at 1. unfold bind at 1. by rewrite E.
Qed.

(** [loadTasks_rejects_on_local_card] at a concrete input. *)
Lemma loadTasks_rejects_on_local_card_witness :
  let s := (saveToLocalStorage 9 (exec (OpAdd 5 6 sample_data) (initial ∅))).2 in
  ∃ msg s',
    loadTasks scenario_remote (initial (storage s)) = (Throw msg, s') ∧
    trace s' = [].
Proof.
  cbv zeta.
  destruct (loadTasks_rejects_on_local_card scenario_remote
              (initial (storage (saveToLocalStorage 9 (exec (OpAdd 5 6 sample_data) (initial ∅))).2))
              (loadFromLocalStorage
                 (initial (storage (saveToLocalStorage 9 (exec (OpAdd 5 6 sample_data) (initial ∅))).2))).2)
    as (msg & s' & E & _ & _ & _ & Htr).
  - by vm_compute.
  - intros H. vm_compute in H. by apply Forall_cons in H as [H _].
  - exists msg, s'. split; [exact E|]. by rewrite Htr.
Defined.

(** X22. script.js, [loadTasks] when no local data was found and the answer is
    ok but holds a record of a column without a string priority: the
    sequence is replaced by the fetched array, the rendering throws inside
    the try block, and the catch block reports it as a failed load: the
    error box shows the message of that error and the run ends in the
    status [error]. *)
Theorem loadTasks_render_failure_shows_error
    (status : Z) (data : value) (s s1 : state) :
  loadFromLocalStorage s = (Ok false, s1) →
  Forall (λ v, nullish v = false) (array_or_empty data) →
  ¬ Forall (λ v, card_ok v = true) (array_or_empty data) →
  ∃ msg s',
    msg ≠ EmptyString ∧
    loadTasks (Response true status (Ok data)) s = (Ok tt, s') ∧
    task_values s' = array_or_empty data ∧
    storage s' = storage s ∧
    trace s' = trace s1
               ++ [EvStatus "loading" "No local data, loading from API...";
                   EvShowLoading; EvStatus "loading" "Loading from API..."; EvFetch;
                   EvConsoleError msg; EvShowError msg;
                   EvStatus "error" "Failed to load data"].
Proof.
  intros Hl Hv Hn. rewrite <- (load_keeps_store s s1 _ Hl).
  rewrite (loadTasks_remote_prefix _ s s1 Hl).
  unfold showLoading, showError, updateDataStatus.
  unfold bind at 1. unfold bind at 1, log at 1. unfold log at 1.
  cbn [storage heap tasks taskMap trace logged].
  set (s2 := mkState _ _ _ _ _).
  unfold try_catch, bind at 1. rewrite loadTasksFromAPI_ok by done.
  set (s3 := fetched s2 (array_or_empty data)).
  assert (task_values s3 = array_or_empty data) as Hvals by apply values_fetched.
  destruct (renderTasks_card_error s3) as (s4 & E & Hst & Hh & Ht & Htr & _).
  { by rewrite readable_values, Hvals. }
  { by rewrite renderable_values, Hvals. }
  unfold bind at 1. rewrite E. run_m.
  exists "TypeError: task.priority.toUpperCase is not callable". eexists.
  split; [done|]. split; [reflexivity|].
  unfold task_values in *. cbn [heap tasks storage trace].
  rewrite Hh, Ht, Hst, Htr. split; [done|]. split; [done|].
  unfold s3, s2. cbn [fetched trace]. by rewrite <- !app_assoc.
Qed.

(** [loadTasks_render_failure_shows_error] at a concrete input. *)
Lemma loadTasks_render_failure_shows_error_witness :
  ∃ msg s',
    loadTasks (Response true 200
                 (Ok (VArr [VObj [("id", VNum 3); ("title", VStr "Keep on Going");
                                  ("description", VStr "You are almost there");
                                  ("status", VStr "doing")]])))
      (initial ∅) = (Ok tt, s') ∧
    length (task_values s') = 1%nat ∧
    EvShowError msg ∈ trace s' ∧
    last (trace s') = Some (EvStatus "error" "Failed to load data").
Proof.
  destruct (loadTasks_render_failure_shows_error 200
              (VArr [VObj [("id", VNum 3); ("title", VStr "Keep on Going");
                           ("description", VStr "You are almost there");
                           ("status", VStr "doing")]])
              (initial ∅) (initial ∅))
    as (msg & s' & _ & E & Hv & _ & Htr).
  - reflexivity.
  - by repeat constructor.
  - intros H. by apply Forall_cons in H as [H _].
  - exists msg, s'. split; [exact E|]. split; [by rewrite Hv|].
    rewrite Htr. split; [|reflexivity].
    cbn. rewrite !elem_of_cons. do 5 right. by left.
Defined.

(* ================================================================== *)
(** * Across a page load *)
(* ================================================================== *)

(** X23. ui.js, api.js, storage.js and script.js together: after [addNewTask]
    with a title and the status of a column, on a sequence of task
    records that JSON can carry, the saved snapshot holds the new record
    without a priority, and the [loadTasks] of the next page load over
    that store is rejected by the first [renderTasks], whatever the
    remote source would answer: nothing is drawn and no status is
    shown. *)
Theorem added_task_rejects_next_load
    (now_id now_mod now_save : Z) (m : modal) (s : state) (net : http) :
  trim (m_title m) ≠ EmptyString →
  m_status m ∈ ["todo"; "doing"; "done"] →
  Forall (λ v, valid_record v = true) (task_values s) →
  ∃ s' msg s'',
    addNewTask now_id now_mod now_save m s = (Ok tt, s') ∧
    task_values s' = task_values s ++ [created now_id (form_data m)] ∧
    loadTasks net (initial (storage s')) = (Throw msg, s'') ∧
    task_values s'' = task_values s' ∧
    trace s'' = [].
Proof.
  intros Htitle Hstatus Hvalid.
  destruct (addNewTask_run now_id now_mod now_save m s Htitle Hstatus)
    as (msg & s' & E & _ & Ht & Hh & Hst).
  assert (task_values s' = task_values s ++ [created now_id (form_data m)]) as Hvals.
  { unfold task_values in *. rewrite Ht, Hh, map_app. cbn [map].
    rewrite deref_app_new. f_equal.
    apply map_ext_Forall. change (map ?f ?l) with (f <$> l) in Hvalid.
    rewrite Forall_fmap in Hvalid. eapply Forall_impl; [exact Hvalid|].
    intros l Hl. cbn in Hl. apply deref_app_lt. by destruct (deref (heap s) l). }
  assert (Forall (λ v, valid_record v = true) (task_values s')) as Hvalid'.
  { rewrite Hvals. apply Forall_app. split; [done|]. by apply Forall_singleton. }
  destruct (JSON_parse_stringify (VArr (task_values s')))
    as (text & Hser & Hne & Hparse).
  { cbn [serializable]. by apply valid_records_serializable. }
  assert (storage (initial (storage s')) !! "tasks" = Some text) as Hstored.
  { cbn [initial storage]. rewrite Hst.
    rewrite lookup_insert_ne by done. rewrite lookup_insert_eq.
    unfold snapshot. by rewrite Hser. }
  destruct (load_array_readable _ text _ Hstored Hparse) as (r & s1 & El & Hiff & Hv1).
  assert (r = true) as ->.
  { apply Hiff. eapply Forall_impl; [exact Hvalid'|]. intros v Hv. by destruct v. }
  specialize (Hv1 eq_refl).
  destruct (load_true _ _ El) as (_ & _ & _ & _ & _ & _ & Htr1 & Hr1 & _).
  destruct (renderTasks_card_error s1 Hr1) as (s'' & Er & _ & Hh2 & Ht2 & Htr2 & _).
  { rewrite renderable_values, Hv1, Hvals. intros [_ Hc]%Forall_app.
    rewrite Forall_singleton in Hc. by rewrite created_card in Hc. }
  eexists s', _, s''. split; [done|]. split; [done|]. split.
  { unfold loadTasks. unfold bind at 1. rewrite El.
    unfold bind at 1. unfold bind at 1. by rewrite Er. }
  split; [unfold task_values in *; by rewrite Hh2, Ht2|].
  by rewrite Htr2, Htr1.
Qed.

(** [added_task_rejects_next_load] at a concrete input. *)
Lemma added_task_rejects_next_load_witness :
  ∃ s' msg s'',
    addNewTask 7 8 9 (mkModal 0 "Write report" "draft" "todo" "high")
      (loadFromLocalStorage (initial (scenario_store "500"))).2 = (Ok tt, s') ∧
    length (task_values s') = 2%nat ∧
    loadTasks scenario_remote (initial (storage s')) = (Throw msg, s'') ∧
    trace s'' = [].
Proof.
  destruct (added_task_rejects_next_load 7 8 9
              (mkModal 0 "Write report" "draft" "todo" "high")
              (loadFromLocalStorage (initial (scenario_store "500"))).2 scenario_remote)
    as (s' & msg & s'' & E & Hv & El & _ & Htr).
  - by vm_compute.
  - cbn. rewrite !elem_of_cons. by left.
  - vm_compute. by repeat constructor.
  - exists s', msg, s''. split; [exact E|]. split; [by rewrite Hv|]. by split.
Defined.

(** X24. storage.js, tasks.js and script.js together: a saved snapshot does
    not survive a page load for which the remote source answers. After
    [saveToLocalStorage] at a clock reading not before the stored time of
    the last modification, on task records that JSON can carry and whose
    cards can be drawn, the [loadTasks] of the next page load first draws
    the saved sequence, finds no unsaved changes, and then replaces the
    sequence by the fetched array. *)
Theorem saved_snapshot_yields_to_remote
    (now status : Z) (data : value) (s : state) :
  Forall (λ v, valid_record v = true) (task_values s) →
  renderable s →
  (∀ text b, storage s !! "lastModified" = Some text →
             parseInt text = Some b → b ≤ now) →
  Forall (λ v, nullish v = false) (array_or_empty data) →
  Forall (λ v, card_ok v = true) (array_or_empty data) →
  ∃ s1 s',
    loadFromLocalStorage (initial (storage (saveToLocalStorage now s).2)) = (Ok true, s1) ∧
    task_values s1 = task_values s ∧
    loadTasks (Response true status (Ok data))
      (initial (storage (saveToLocalStorage now s).2)) = (Ok tt, s') ∧
    task_values s' = array_or_empty data ∧
    trace s' = [EvRender; EvStatus "local" "Loaded from local storage"]
               ++ synced_run_events.
Proof.
  intros Hvalid Hrend Hclock Hv Hc.
  rewrite saveToLocalStorage_spec. cbn [snd storage].
  set (st := <["lastSaved" := _]> _).
  destruct (JSON_parse_stringify (VArr (task_values s)))
    as (text & Hser & Hne & Hparse).
  { cbn [serializable]. by apply valid_records_serializable. }
  assert (storage (initial st) !! "tasks" = Some text) as Hstored.
  { unfold st. cbn [initial storage]. rewrite lookup_insert_ne by done.
    rewrite lookup_insert_eq. by rewrite Hser. }
  destruct (load_array_readable _ text _ Hstored Hparse) as (r & s1 & El & Hiff & Hv1).
  assert (r = true) as ->.
  { apply Hiff. eapply Forall_impl; [exact Hvalid|]. intros v Hval. by destruct v. }
  specialize (Hv1 eq_refl).
  assert (renderable s1) as Hrend1.
  { apply renderable_values. rewrite Hv1. by apply renderable_values. }
  assert (hasUnsavedChanges (storage s1) = false) as Hu.
  { rewrite (load_keeps_store _ _ _ El). cbn [initial storage].
    apply not_true_iff_false. intros H.
    apply hasUnsavedChanges_true in H
      as (saved & modified & a & b & Hs & Hm & Ha & Hb & _ & Hlt).
    unfold st in Hs, Hm. rewrite lookup_insert_eq in Hs. injection Hs as <-.
    rewrite parseInt_toString in Ha. injection Ha as <-.
    rewrite !lookup_insert_ne in Hm by done.
    specialize (Hclock modified b Hm Hb). lia. }
  destruct (load_true _ _ El) as (_ & _ & _ & _ & _ & _ & Htr1 & _).
  destruct (loadTasks_local_prefix (Response true status (Ok data)) _ s1 El Hrend1 Hu)
    as [_ ->].
  match goal with |- context [try_catch _ ?h] =>
    destruct (synced_run status data
                (logged (rendered s1) (EvStatus "local" "Loaded from local storage"))
                h Hv Hc) as (s' & -> & H1 & _ & _ & H4) end.
  exists s1, s'. do 4 (split; [done|]).
  rewrite H4. cbn [logged rendered trace]. rewrite Htr1. cbn [initial trace].
  by rewrite <- !app_assoc.
Qed.

(** [saved_snapshot_yields_to_remote] at a concrete input. *)
Lemma saved_snapshot_yields_to_remote_witness :
  let s := (saveChanges 8 9 (mkModal 1 " A2 " "" "done" "high")
              (loadFromLocalStorage (initial (scenario_store "500"))).2).2 in
  ∃ s1 s',
    loadFromLocalStorage (initial (storage (saveToLocalStorage 10 s).2)) = (Ok true, s1) ∧
    task_values s1 = task_values s ∧
    loadTasks scenario_remote (initial (storage (saveToLocalStorage 10 s).2)) = (Ok tt, s') ∧
    task_values s'
    = [VObj [("id", VNum 2); ("title", VStr "B"); ("status", VStr "doing");
             ("priority", VStr "high")]].
Proof.
  cbv zeta.
  destruct (saved_snapshot_yields_to_remote 10 200
              (VArr [VObj [("id", VNum 2); ("title", VStr "B"); ("status", VStr "doing");
                           ("priority", VStr "high")]])
              (saveChanges 8 9 (mkModal 1 " A2 " "" "done" "high")
                 (loadFromLocalStorage (initial (scenario_store "500"))).2).2)
    as (s1 & s' & El & Hv1 & E & Hv & _).
  - vm_compute. by repeat constructor.
  - vm_compute. by repeat constructor.
  - intros text b Ht Hb. vm_compute in Ht. injection Ht as <-.
    vm_compute in Hb. injection Hb as <-. lia.
  - by repeat constructor.
  - by repeat constructor.
  - exists s1, s'. split; [exact El|]. split; [exact Hv1|]. split; [exact E|exact Hv].
Defined.
